(** * MeetUp: the free-time computation of [shared/src/utils/index.ts]

    A shallow embedding of [TimeUtils.calculateFreeTimeSlots],
    [TimeUtils.findCommonFreeSlots], [TimeUtils.intersectFreeSlots], of the
    controller paths of [timetableController.ts] that call them and of the
    query [Timetable.findByUserAndDateRange] of the timetable model.

    Modelling conventions.
    - A JavaScript [Date] is its [getTime()] value: an integer number of
      milliseconds since the epoch, here a [Z].  Invalid dates ([NaN]) are
      outside the model.
    - [getDay] and [setHours] work in the local zone of the host.  The zone
      is a fixed offset [tz] (milliseconds added to UTC); zones with
      daylight-saving switches are outside the model.
    - [duration] is the quotient of a millisecond difference by [1000 * 60].
      It is kept as the exact rational in lowest terms; the rounding of an
      IEEE double is not modelled.  The comparisons [duration >= 30] of the
      source are not affected by it.
    - [Array.prototype.sort] sorts its receiver in place and is stable; the
      functions that call it return the final content of the array next to
      their result.
    - A minimum duration of a request is the text given, read by
      [parseInt] as the controller reads it. *)

From Stdlib Require Import ZArith QArith List Bool String Lia Permutation Sorted.
From Stdlib Require Import Ascii.
Import ListNotations.
Open Scope Z_scope.

(** ** Dates *)

Module JsDate.

Definition msPerMinute : Z := 1000 * 60.
Definition msPerHour : Z := 60 * msPerMinute.
Definition msPerDay : Z := 24 * msPerHour.

Section LocalZone.
Variable tz : Z.

(** Number of the local calendar day that holds instant [t]
    (day 0 is 1970-01-01). *)
Definition localDay (t : Z) : Z := (t + tz) / msPerDay.

(** [Date.prototype.getDay]: 0 is Sunday; 1970-01-01 was a Thursday. *)
Definition getDay (t : Z) : Z := (localDay t + 4) mod 7.

(** [Date.prototype.setHours(h, m, s, ms)]: same local calendar day,
    the time of day replaced.  Values of [h] outside 0..23 roll over
    to the neighbouring days, as in JavaScript. *)
Definition setHours (t h m s ms : Z) : Z :=
  localDay t * msPerDay + h * msPerHour + m * msPerMinute + s * 1000 + ms - tz.
End LocalZone.

End JsDate.

(** ** Data model ([shared/src/types]) *)

Module IRecurringPattern.
Record t : Type := mk {
  frequency : string;          (* 'weekly' | 'biweekly' | 'monthly' at the type level *)
  interval : Z;
  endDate : option Z;
  daysOfWeek : option (list Z)
}.
End IRecurringPattern.

Module ITimetableEntry.
Record t : Type := mk {
  _id : string;
  userId : string;
  subject : string;
  startTime : Z;
  endTime : Z;
  dayOfWeek : Z;               (* 0-6 (Sunday-Saturday) *)
  isRecurring : bool;
  recurringPattern : option IRecurringPattern.t
}.
End ITimetableEntry.

Module IFreeTimeSlot.
Record t : Type := mk {
  startTime : Z;
  endTime : Z;
  duration : Q;                (* in minutes *)
  dayOfWeek : Z;
  isAvailable : bool
}.
End IFreeTimeSlot.

(** [workingHours: { start: number; end: number }]; [end] is reserved in
    Rocq, hence the prefixed field names. *)
Record WorkingHours : Type := mkWorkingHours { whStart : Z; whEnd : Z }.

(** ** [Array.prototype.sort] with a numeric key: a stable sort *)

Section StableSort.
Context {A : Type} (key : A -> Z).

(** [x] goes in front of the first element whose key is not smaller, so
    that [x], which stood before all of [l], stays before its equals. *)
Fixpoint insertByKey (x : A) (l : list A) : list A :=
  match l with
  | [] => [x]
  | y :: l' => if key x <=? key y then x :: l else y :: insertByKey x l'
  end.

Fixpoint sortByKey (l : list A) : list A :=
  match l with
  | [] => []
  | x :: l' => insertByKey x (sortByKey l')
  end.

(** The order of the keys. *)
Definition keyLe (x y : A) : Prop := key x <= key y.
End StableSort.

(** ** [TimeUtils] *)

Module TimeUtils.
Import JsDate.

Definition defaultWorkingHours : WorkingHours := mkWorkingHours 8 22.

(** The default value of the parameter [workingHours]. *)
Definition hoursOrDefault (workingHours : option WorkingHours) : WorkingHours :=
  match workingHours with Some w => w | None => defaultWorkingHours end.

(** [(b.getTime() - a.getTime()) / (1000 * 60)] *)
Definition minutesBetween (a b : Z) : Q := Qred (Qmake (b - a) 60000).

(** [duration >= 30] *)
Definition atLeast30 (d : Q) : bool := Qle_bool (30 # 1) d.

(** Lines 73-86: the slot from [currentTime] to [slotEnd] is pushed when
    it is not empty and lasts 30 minutes or more. *)
Definition pushGap (dayOfWeek currentTime slotEnd : Z) : list IFreeTimeSlot.t :=
  if currentTime <? slotEnd then
    let duration := minutesBetween currentTime slotEnd in
    if atLeast30 duration
    then [IFreeTimeSlot.mk currentTime slotEnd duration dayOfWeek true]
    else []
  else [].

(** Lines 63-92: the loop over [i = 0 .. dayEntries.length]; the list is
    what remains of [dayEntries] from index [i] on. *)
Fixpoint findGaps (dayOfWeek : Z) (dayEntries : list ITimetableEntry.t)
         (currentTime endOfDay : Z) : list IFreeTimeSlot.t :=
  match dayEntries with
  | [] => pushGap dayOfWeek currentTime endOfDay
  | entry :: rest =>
      pushGap dayOfWeek currentTime (ITimetableEntry.startTime entry)
      ++ findGaps dayOfWeek rest (ITimetableEntry.endTime entry) endOfDay
  end.

Section LocalZone.
Variable tz : Z.

(** Line 53 *)
Definition dayEntriesOf (sortedEntries : list ITimetableEntry.t) (currentDate : Z)
  : list ITimetableEntry.t :=
  filter (fun entry => ITimetableEntry.dayOfWeek entry =? getDay tz currentDate)
         sortedEntries.

(** Lines 52-92: the body of the loop over the days. *)
Definition sweepDay (sortedEntries : list ITimetableEntry.t)
           (workingHours : WorkingHours) (currentDate : Z) : list IFreeTimeSlot.t :=
  let dayOfWeek := getDay tz currentDate in
  let dayEntries := dayEntriesOf sortedEntries currentDate in
  let currentTime := setHours tz currentDate (whStart workingHours) 0 0 0 in
  let endOfDay := setHours tz currentDate (whEnd workingHours) 0 0 0 in
  findGaps dayOfWeek dayEntries currentTime endOfDay.

(** Line 51: [for (currentDate = startDate; currentDate <= endDate;
    currentDate += dayInMs)]. *)
Fixpoint dayLoop (fuel : nat) (sortedEntries : list ITimetableEntry.t)
         (workingHours : WorkingHours) (currentDate endDate : Z)
  : list IFreeTimeSlot.t :=
  match fuel with
  | O => []
  | S fuel' =>
      if currentDate <=? endDate then
        sweepDay sortedEntries workingHours currentDate
        ++ dayLoop fuel' sortedEntries workingHours (currentDate + msPerDay) endDate
      else []
  end.

(** Number of times the condition of the loop of line 51 holds. *)
Definition dayCount (startDate endDate : Z) : nat :=
  Z.to_nat ((endDate - startDate) / msPerDay + 1).

(** The result is the returned array [freeSlots] together with the
    content of the argument array [timetableEntries] after the call
    (line 46 sorts it in place). *)
Definition calculateFreeTimeSlots (timetableEntries : list ITimetableEntry.t)
           (startDate endDate : Z) (workingHours : option WorkingHours)
  : list IFreeTimeSlot.t * list ITimetableEntry.t :=
  let workingHours := hoursOrDefault workingHours in
  let sortedEntries := sortByKey ITimetableEntry.startTime timetableEntries in
  (dayLoop (dayCount startDate endDate) sortedEntries workingHours startDate endDate,
   sortedEntries).
End LocalZone.

(** Lines 117-133: the body of the two nested loops. *)
Definition overlapOf (slot1 slot2 : IFreeTimeSlot.t) : list IFreeTimeSlot.t :=
  let overlapStart :=
    Z.max (IFreeTimeSlot.startTime slot1) (IFreeTimeSlot.startTime slot2) in
  let overlapEnd :=
    Z.min (IFreeTimeSlot.endTime slot1) (IFreeTimeSlot.endTime slot2) in
  if overlapStart <? overlapEnd then
    let duration := minutesBetween overlapStart overlapEnd in
    if atLeast30 duration
    then [IFreeTimeSlot.mk overlapStart overlapEnd duration
                           (IFreeTimeSlot.dayOfWeek slot1) true]
    else []
  else [].

Definition intersectFreeSlots (slots1 slots2 : list IFreeTimeSlot.t)
  : list IFreeTimeSlot.t :=
  flat_map (fun slot1 => flat_map (fun slot2 => overlapOf slot1 slot2) slots2) slots1.

Definition findCommonFreeSlots (userFreeSlots : list (list IFreeTimeSlot.t))
  : list IFreeTimeSlot.t :=
  match userFreeSlots with
  | [] => []
  | [only] => only
  | first :: others => fold_left intersectFreeSlots others first
  end.

(** The digit [n], from 0 to 9, as a character. *)
Definition digit (n : Z) : ascii := ascii_of_nat (48 + Z.to_nat n).

(** A number from 0 to 99 on two digits. *)
Definition twoDigits (n : Z) : string :=
  String (digit (n / 10)) (String (digit (n mod 10)) EmptyString).

(** [moment(time).format('HH:mm')]: the hour and the minute of the local
    time of day, on two digits each. *)
Definition formatHHmm (tz time : Z) : string :=
  let ms := (time + tz) mod msPerDay in
  (twoDigits (ms / msPerHour) ++ ":" ++ twoDigits (ms mod msPerHour / msPerMinute))%string.

(** [timeStr >= start && timeStr <= end]: strings are compared code unit
    by code unit. *)
Definition isWithinTimeRange (tz time : Z) (start finish : string) : bool :=
  let timeStr := formatHHmm tz time in
  String.leb start timeStr && String.leb timeStr finish.

(** [getWeekDates(date)]: [moment(date).startOf('week')] is the start of
    the local day of the Sunday at or before [date] (the week of the
    default locale of moment), [endOf('week')] the last millisecond of the
    Saturday that follows. *)
Definition getWeekDates (tz date : Z) : Z * Z :=
  let start := setHours tz date 0 0 0 0 - getDay tz date * msPerDay in
  (start, start + 7 * msPerDay - 1).

End TimeUtils.

(** ** The timetable model ([models/Timetable]) *)

Module Timetable.

(** The collection of stored documents. *)
Definition collection : Type := list ITimetableEntry.t.

(** The filter of [findByUserAndDateRange].  A recurring document without
    a pattern has no field [recurringPattern.endDate] either. *)
Definition inDateRange (userId : string) (startDate endDate : Z)
           (doc : ITimetableEntry.t) : bool :=
  String.eqb (ITimetableEntry.userId doc) userId
  && ((negb (ITimetableEntry.isRecurring doc)
       && (startDate <=? ITimetableEntry.startTime doc)
       && (ITimetableEntry.startTime doc <=? endDate))
      || (ITimetableEntry.isRecurring doc
          && match ITimetableEntry.recurringPattern doc with
             | None => true
             | Some pattern =>
                 match IRecurringPattern.endDate pattern with
                 | None => true
                 | Some patternEnd => startDate <=? patternEnd
                 end
             end)).

(** [.sort({ dayOfWeek: 1, startTime: 1 })], documents with equal keys
    kept in the order of the collection. *)
Definition findByUserAndDateRange (docs : collection) (userId : string)
           (startDate endDate : Z) : list ITimetableEntry.t :=
  sortByKey ITimetableEntry.dayOfWeek
    (sortByKey ITimetableEntry.startTime
       (filter (inDateRange userId startDate endDate) docs)).

(** The validators of [recurringPatternSchema], run when a document is
    saved: [frequency] in its enum, [interval] at least 1. *)
Definition validRecurringPattern (pattern : IRecurringPattern.t) : bool :=
  (String.eqb (IRecurringPattern.frequency pattern) "weekly"
   || String.eqb (IRecurringPattern.frequency pattern) "biweekly"
   || String.eqb (IRecurringPattern.frequency pattern) "monthly")
  && (1 <=? IRecurringPattern.interval pattern).

(** [findByUserAndDay]: the documents of the user for one weekday, by
    ascending [startTime]. *)
Definition findByUserAndDay (docs : collection) (userId : string) (dayOfWeek : Z)
  : list ITimetableEntry.t :=
  sortByKey ITimetableEntry.startTime
    (filter (fun doc => String.eqb (ITimetableEntry.userId doc) userId
                        && (ITimetableEntry.dayOfWeek doc =? dayOfWeek))
            docs).

(** [x % n === 0]: the remainder takes the sign of [x], and it is [NaN]
    when [n] is 0. *)
Definition remainderIsZero (x n : Z) : bool :=
  if n =? 0 then false else Z.rem x n =? 0.

(** [7 * 24 * 60 * 60 * 1000] *)
Definition msPerWeek : Z := 7 * 24 * 60 * 60 * 1000.

(** The method [occursOnDate] of a document.  Two dates have the same
    [toDateString()] when they are instants of one local calendar day. *)
Definition occursOnDate (tz : Z) (doc : ITimetableEntry.t) (date : Z) : bool :=
  let entryDate := ITimetableEntry.startTime doc in
  if negb (ITimetableEntry.isRecurring doc) then
    JsDate.localDay tz entryDate =? JsDate.localDay tz date
  else
    match ITimetableEntry.recurringPattern doc with
    | None => false
    | Some pattern =>
        if match IRecurringPattern.endDate pattern with
           | Some patternEnd => patternEnd <? date
           | None => false
           end
        then false
        else if negb (JsDate.getDay tz date =? ITimetableEntry.dayOfWeek doc) then false
        else
          let weeksDiff := (date - entryDate) / msPerWeek in
          if String.eqb (IRecurringPattern.frequency pattern) "weekly" then
            (0 <=? weeksDiff)
            && remainderIsZero weeksDiff (IRecurringPattern.interval pattern)
          else if String.eqb (IRecurringPattern.frequency pattern) "biweekly" then
            (0 <=? weeksDiff)
            && remainderIsZero weeksDiff (2 * IRecurringPattern.interval pattern)
          else if String.eqb (IRecurringPattern.frequency pattern) "monthly" then
            (0 <=? weeksDiff)
            && remainderIsZero weeksDiff (4 * IRecurringPattern.interval pattern)
          else false
    end.

End Timetable.

(** ** [parseInt]

    The global function, called with one argument: the radix is 10, or 16
    after the prefix [0x].  Its argument is the text that [ToString] makes
    of the value given.  The result [NaN] is [None], and [-0] is 0.  A
    number above 2^53 is read exactly and not rounded to a double; no
    duration of two dates comes near such a number. *)

Module JsGlobal.

(** [StrWhiteSpaceChar] among the code units up to 255: tab, line feed,
    vertical tab, form feed, carriage return, space and no-break space. *)
Definition isStrWhiteSpace (c : ascii) : bool :=
  let n := nat_of_ascii c in
  ((9 <=? n) && (n <=? 13) || (n =? 32) || (n =? 160))%nat.

Fixpoint skipWhiteSpace (s : string) : string :=
  match s with
  | EmptyString => EmptyString
  | String c rest => if isStrWhiteSpace c then skipWhiteSpace rest else s
  end.

(** The value of a character as a digit of the radix: [0] to [9], then the
    letters of either case from 10 on; [None] for a character that is no
    digit of the radix. *)
Definition digitOf (radix : Z) (c : ascii) : option Z :=
  let n := Z.of_nat (nat_of_ascii c) in
  let value :=
    if (48 <=? n) && (n <=? 57) then n - 48
    else if (97 <=? n) && (n <=? 122) then n - 87
    else if (65 <=? n) && (n <=? 90) then n - 55
    else radix in
  if value <? radix then Some value else None.

(** The number written by the digits at the start of [s], up to the first
    character that is no digit of the radix; [read] is what the digits
    seen so far give, [None] before the first digit. *)
Fixpoint readDigits (radix : Z) (s : string) (read : option Z) : option Z :=
  match s with
  | EmptyString => read
  | String c rest =>
      match digitOf radix c with
      | Some d =>
          readDigits radix rest
            (Some (radix * match read with Some n => n | None => 0 end + d))
      | None => read
      end
  end.

Definition parseInt (input : string) : option Z :=
  let trimmed := skipWhiteSpace input in
  let negative :=
    match trimmed with
    | String c _ => Ascii.eqb c "-"
    | EmptyString => false
    end in
  let unsigned :=
    match trimmed with
    | String c rest => if Ascii.eqb c "-" || Ascii.eqb c "+" then rest else trimmed
    | EmptyString => trimmed
    end in
  let read :=
    match unsigned with
    | String c (String x rest) =>
        if Ascii.eqb c "0" && (Ascii.eqb x "x" || Ascii.eqb x "X")
        then readDigits 16 rest None
        else readDigits 10 unsigned None
    | _ => readDigits 10 unsigned None
    end in
  match read with
  | Some n => Some (if negative then - n else n)
  | None => None
  end.

End JsGlobal.

(** ** The controller ([controllers/timetableController.ts]) *)

Module TimetableController.

Inductive Response (A : Type) : Type :=
| Status200 (data : A)
| Status400 (message : string)
| Status401 (message : string)
| Status500 (message : string).
Arguments Status200 {A} data.
Arguments Status400 {A} message.
Arguments Status401 {A} message.
Arguments Status500 {A} message.

(** [slot.duration >= minDuration] *)
Definition atLeast (minDuration : Z) (slot : IFreeTimeSlot.t) : bool :=
  Qle_bool (inject_Z minDuration) (IFreeTimeSlot.duration slot).

(** [slot.duration >= minDurationNum], where the number comes from
    [parseInt]: no duration is at least [NaN]. *)
Definition atLeastRead (minDuration : option Z) (slot : IFreeTimeSlot.t) : bool :=
  match minDuration with
  | Some n => atLeast n slot
  | None => false
  end.


(** A date of a JSON body: a number of milliseconds, or a text that is
    not empty, with the instant that [new Date] reads from it. *)
Inductive BodyDate : Type :=
| DateNumber (ms : Z)
| DateText (instant : Z).

(** [new Date(value)] *)
Definition instantOf (value : BodyDate) : Z :=
  match value with
  | DateNumber ms => ms
  | DateText instant => instant
  end.

(** [!value]: an absent date and the number 0 are falsy. *)
Definition noDate (value : option BodyDate) : bool :=
  match value with
  | None => true
  | Some (DateNumber ms) => ms =? 0
  | Some (DateText _) => false
  end.

(** The body of [findCommonFreeTime].  [minDuration] is the text that
    [ToString] makes of the value of the body: a string is that string, a
    number is written as [Number.prototype.toString] writes it. *)
Record CommonFreeTimeBody : Type := mkCommonFreeTimeBody {
  userIds : list string;
  bStartDate : option BodyDate;
  bEndDate : option BodyDate;
  bMinDuration : option string     (* default 30 *)
}.

Definition orDefault {A : Type} (o : option A) (d : A) : A :=
  match o with Some v => v | None => d end.

Definition missing (header : option string) : bool :=
  match header with
  | None => true
  | Some s => String.eqb s ""
  end.

Section LocalZone.
Variable tz : Z.

(** Lines 267-290: the documents of one user, handed as a fresh array
    to [calculateFreeTimeSlots]. *)
Definition freeSlotsOfUser (docs : Timetable.collection) (uid : string)
           (startDate endDate : Z) (workingHours : option WorkingHours)
  : list IFreeTimeSlot.t :=
  let entries := Timetable.findByUserAndDateRange docs uid startDate endDate in
  fst (TimeUtils.calculateFreeTimeSlots tz entries startDate endDate workingHours).


(** [findCommonFreeTime]; the payload is [commonFreeTime].  The
    suggestions of [FreeTimeService] are not part of the model. *)
Definition findCommonFreeTime (docs : Timetable.collection)
           (headerUserId : option string) (body : CommonFreeTimeBody)
  : Response (list IFreeTimeSlot.t) :=
  if missing headerUserId then Status401 "User ID not found in request"
  else
    match userIds body with
    | [] => Status400 "User IDs array is required"
    | _ :: _ =>
        if noDate (bStartDate body) || noDate (bEndDate body)
        then Status400 "Start date and end date are required"
        else
          match headerUserId, bStartDate body, bEndDate body with
          | Some userId, Some startDate, Some endDate =>
              let start := instantOf startDate in
              let finish := instantOf endDate in
              let allUserIds := userId :: userIds body in
              let allUserFreeSlots :=
                map (fun uid => freeSlotsOfUser docs uid start finish None)
                    allUserIds in
              let commonSlots := TimeUtils.findCommonFreeSlots allUserFreeSlots in
              Status200
                (filter (atLeastRead
                           (JsGlobal.parseInt (orDefault (bMinDuration body) "30"%string)))
                        commonSlots)
          | _, _, _ => Status400 "Start date and end date are required"
          end
    end.
End LocalZone.

End TimetableController.

(** ** [ArrayUtils] *)

Module ArrayUtils.

Section Elements.
Context {T : Type}.

(** The comparison of [Array.prototype.includes] and of [Set]. *)
Variable sameValueZero : T -> T -> bool.

Definition includes (array : list T) (value : T) : bool :=
  existsb (fun element => sameValueZero element value) array.

(** An index argument of [slice]: counted from the end when negative, and
    kept between 0 and the length. *)
Definition relativeIndex (len index : Z) : Z :=
  if index <? 0 then Z.max (len + index) 0 else Z.min index len.

(** [Array.prototype.slice(start, end)] *)
Definition slice (array : list T) (start finish : Z) : list T :=
  let len := Z.of_nat (List.length array) in
  let first := relativeIndex len start in
  let final := relativeIndex len finish in
  firstn (Z.to_nat (final - first)) (skipn (Z.to_nat first) array).

(** [for (let i = 0; i < array.length; i += size)
       chunks.push(array.slice(i, i + size))], from the value [i] on.
    [None]: the loop has not ended when the fuel is used up. *)
Fixpoint chunkFrom (fuel : nat) (array : list T) (size i : Z) : option (list (list T)) :=
  match fuel with
  | O => None
  | S fuel' =>
      if i <? Z.of_nat (List.length array) then
        match chunkFrom fuel' array size (i + size) with
        | Some chunks => Some (slice array i (i + size) :: chunks)
        | None => None
        end
      else Some []
  end.

(** With a size of 1 or more the loop has at most [array.length] rounds. *)
Definition chunk (array : list T) (size : Z) : option (list (list T)) :=
  chunkFrom (S (List.length array)) array size 0.

(** [Set.prototype.add], on the values of the set in insertion order. *)
Definition setAdd (set : list T) (value : T) : list T :=
  if includes set value then set else set ++ [value].

(** [[...new Set(array)]] *)
Definition unique (array : list T) : list T := fold_left setAdd array [].

Definition intersection (arr1 arr2 : list T) : list T :=
  filter (fun value => includes arr2 value) arr1.

Definition difference (arr1 arr2 : list T) : list T :=
  filter (fun value => negb (includes arr2 value)) arr1.
End Elements.

End ArrayUtils.

(** ** [CacheUtils]

    The static field [cache] is the state: every method takes it and, when
    it writes, returns it.  [Date.now()] is the argument [now]. *)

Module CacheUtils.

Section Data.
Context {T : Type}.              (* the cached data, [any] in the source *)

Record item : Type := mkItem { data : T; expiry : Z }.

(** A [Map<string, item>]: the bindings in insertion order, a key once. *)
Definition cache : Type := list (string * item).

(** [Map.prototype.get] *)
Fixpoint mapGet (m : cache) (key : string) : option item :=
  match m with
  | [] => None
  | (k, v) :: m' => if String.eqb k key then Some v else mapGet m' key
  end.

(** [Map.prototype.set]: a key that is bound keeps its place. *)
Fixpoint mapSet (m : cache) (key : string) (value : item) : cache :=
  match m with
  | [] => [(key, value)]
  | (k, v) :: m' =>
      if String.eqb k key then (k, value) :: m' else (k, v) :: mapSet m' key value
  end.

(** [Map.prototype.delete]: the binding of the key, if any, is removed. *)
Definition mapDelete (m : cache) (key : string) : cache :=
  filter (fun binding => negb (String.eqb (fst binding) key)) m.

Definition mapHas (m : cache) (key : string) : bool :=
  match mapGet m key with Some _ => true | None => false end.

(** [set(key, data, ttlMs = 300000)] *)
Definition set (now : Z) (c : cache) (key : string) (d : T) (ttlMs : option Z) : cache :=
  let ttl := match ttlMs with Some t => t | None => 300000 end in
  mapSet c key (mkItem d (now + ttl)).

(** [get(key)]: the value returned ([None] is [null]) and the cache after
    the call. *)
Definition get (now : Z) (c : cache) (key : string) : option T * cache :=
  match mapGet c key with
  | None => (None, c)
  | Some found =>
      if expiry found <? now then (None, mapDelete c key) else (Some (data found), c)
  end.

Definition clear (c : cache) : cache := [].

(** [delete(key)]: the boolean of [Map.prototype.delete] and the cache
    after the call. *)
Definition delete (c : cache) (key : string) : bool * cache :=
  (mapHas c key, mapDelete c key).
End Data.

End CacheUtils.

(** ** [ValidationUtils.sanitizeInput]

    A JavaScript string is a Rocq string, one character for each code
    unit; code units above 255 are outside the model. *)

Module ValidationUtils.

(** The white space and line terminators that [String.prototype.trim]
    removes, among the code units up to 255: tab, line feed, vertical tab,
    form feed, carriage return, space and no-break space. *)
Definition isWhiteSpace (c : ascii) : bool :=
  let n := nat_of_ascii c in
  ((9 <=? n) && (n <=? 13) || (n =? 32) || (n =? 160))%nat.

Fixpoint trimStart (s : string) : string :=
  match s with
  | EmptyString => EmptyString
  | String c rest => if isWhiteSpace c then trimStart rest else s
  end.

Fixpoint trimEnd (s : string) : string :=
  match s with
  | EmptyString => EmptyString
  | String c rest =>
      match trimEnd rest with
      | EmptyString => if isWhiteSpace c then EmptyString else String c EmptyString
      | kept => String c kept
      end
  end.

(** [String.prototype.trim] *)
Definition trim (s : string) : string := trimEnd (trimStart s).

(** The character class of the regular expression: less-than sign,
    greater-than sign, double quote and single quote. *)
Definition isMarkup (c : ascii) : bool :=
  let n := nat_of_ascii c in
  ((n =? 60) || (n =? 62) || (n =? 34) || (n =? 39))%nat.

(** [String.prototype.replace] with that class, the flag [g] and the empty
    replacement: every such character is removed. *)
Fixpoint removeMarkup (s : string) : string :=
  match s with
  | EmptyString => EmptyString
  | String c rest => if isMarkup c then removeMarkup rest else String c (removeMarkup rest)
  end.

Definition sanitizeInput (input : string) : string := removeMarkup (trim input).

End ValidationUtils.

(** ** The controller: [createEntry] and [deleteEntry]

    The collection of documents is the state: each method takes it and
    returns it with its reply.  A reply is its status code and its data;
    the message of an error is not part of the model, except that the
    reply 409 keeps the entry its message names.  The reply 500 is given
    when the query of [deleteEntry] cannot cast the identifier it is asked
    for; other failures of the database are outside the model. *)

Module CreateEntryBody.
Record t : Type := mk {
  subject : string;
  type : option string;              (* default 'lecture' *)
  startTime : Z;
  endTime : Z;
  dayOfWeek : Z;
  room : option string;
  instructor : option string;
  isRecurring : option bool;         (* default false *)
  recurringPattern : option IRecurringPattern.t
}.
End CreateEntryBody.

Module EntryController.

Inductive Reply (A : Type) : Type :=
| Reply200 (data : A)
| Reply201 (data : A)
| Reply400
| Reply401
| Reply404
| Reply409 (existing : ITimetableEntry.t)
| Reply500.
Arguments Reply200 {A} data.
Arguments Reply201 {A} data.
Arguments Reply400 {A}.
Arguments Reply401 {A}.
Arguments Reply404 {A}.
Arguments Reply409 {A} existing.
Arguments Reply500 {A}.

(** Lines 47-50: the test of the loop over the existing entries. *)
Definition conflicts (newStartTime newEndTime : Z) (entry : ITimetableEntry.t) : bool :=
  let entryStart := ITimetableEntry.startTime entry in
  let entryEnd := ITimetableEntry.endTime entry in
  ((newStartTime <? entryEnd) && (entryStart <? newEndTime))
  || ((entryStart <? newEndTime) && (newStartTime <? entryEnd)).

(** [value ? ValidationUtils.sanitizeInput(value) : undefined]; the empty
    string is falsy.  The schema trims what it stores. *)
Definition sanitizedOption (value : option string) : option string :=
  match value with
  | None => None
  | Some v =>
      if String.eqb v "" then None
      else Some (ValidationUtils.trim (ValidationUtils.sanitizeInput v))
  end.

Definition atMost (n : nat) (value : option string) : bool :=
  match value with
  | None => true
  | Some v => (String.length v <=? n)%nat
  end.

(** The validators of [recurringPatternSchema], [daysOfWeek] included. *)
Definition validPattern (pattern : IRecurringPattern.t) : bool :=
  Timetable.validRecurringPattern pattern
  && match IRecurringPattern.daysOfWeek pattern with
     | None => true
     | Some days => forallb (fun d => (0 <=? d) && (d <=? 6)) days
     end.

(** A pattern as the document holds it: the array [daysOfWeek] is empty
    when the pattern given has none. *)
Definition storedPattern (pattern : IRecurringPattern.t) : IRecurringPattern.t :=
  IRecurringPattern.mk
    (IRecurringPattern.frequency pattern) (IRecurringPattern.interval pattern)
    (IRecurringPattern.endDate pattern)
    (Some match IRecurringPattern.daysOfWeek pattern with
          | Some days => days
          | None => []
          end).

(** The document that [new Timetable({...})] builds. *)
Definition newDocument (newId userId : string) (body : CreateEntryBody.t)
  : ITimetableEntry.t :=
  let recurring :=
    match CreateEntryBody.isRecurring body with Some b => b | None => false end in
  ITimetableEntry.mk newId userId
    (ValidationUtils.trim (ValidationUtils.sanitizeInput (CreateEntryBody.subject body)))
    (CreateEntryBody.startTime body) (CreateEntryBody.endTime body)
    (CreateEntryBody.dayOfWeek body) recurring
    (if recurring then option_map storedPattern (CreateEntryBody.recurringPattern body)
     else None).

(** The validators of [timetableSchema] that [save] runs. *)
Definition validDocument (body : CreateEntryBody.t) (doc : ITimetableEntry.t) : bool :=
  negb (String.eqb (ITimetableEntry.subject doc) "")
  && (String.length (ITimetableEntry.subject doc) <=? 100)%nat
  && match CreateEntryBody.type body with
     | None => true
     | Some t =>
         existsb (String.eqb t) ["lecture"; "lab"; "tutorial"; "exam"; "other"]%string
     end
  && (ITimetableEntry.startTime doc <? ITimetableEntry.endTime doc)
  && (0 <=? ITimetableEntry.dayOfWeek doc) && (ITimetableEntry.dayOfWeek doc <=? 6)
  && atMost 50 (sanitizedOption (CreateEntryBody.room body))
  && atMost 100 (sanitizedOption (CreateEntryBody.instructor body))
  && (if ITimetableEntry.isRecurring doc then
        match ITimetableEntry.recurringPattern doc with
        | Some pattern => validPattern pattern
        | None => false
        end
      else true).

(** [createEntry]; [newId] is the identifier the database gives to the
    new document. *)
Definition createEntry (docs : Timetable.collection) (newId : string)
           (headerUserId : option string) (body : CreateEntryBody.t)
  : Reply ITimetableEntry.t * Timetable.collection :=
  match headerUserId with
  | None => (Reply401, docs)
  | Some userId =>
      if TimetableController.missing headerUserId then (Reply401, docs)
      else
        let existingEntries :=
          Timetable.findByUserAndDay docs userId (CreateEntryBody.dayOfWeek body) in
        match find (conflicts (CreateEntryBody.startTime body)
                              (CreateEntryBody.endTime body)) existingEntries with
        | Some entry => (Reply409 entry, docs)
        | None =>
            let doc := newDocument newId userId body in
            if validDocument body doc then (Reply201 doc, docs ++ [doc])
            else (Reply400, docs)
        end
  end.

(** [Timetable.findOneAndDelete(filter)]: the first document that matches
    and the collection without it. *)
Fixpoint findOneAndDelete (matches : ITimetableEntry.t -> bool)
         (docs : Timetable.collection)
  : option (ITimetableEntry.t * Timetable.collection) :=
  match docs with
  | [] => None
  | doc :: rest =>
      if matches doc then Some (doc, rest)
      else match findOneAndDelete matches rest with
           | Some (found, rest') => Some (found, doc :: rest')
           | None => None
           end
  end.

Section ObjectIds.

(** The cast of a string to the [ObjectId] of the path [_id], which the
    query runs on the identifier it is given: the identifier as the
    documents carry it, or [None] when the string is no [ObjectId] and the
    query fails with a [CastError]. *)
Variable castObjectId : string -> option string.

(** [deleteEntry]; the data of its reply 200 is [null].  The [catch]
    answers a query that fails with the reply 500. *)
Definition deleteEntry (docs : Timetable.collection)
           (headerUserId : option string) (entryId : string)
  : Reply unit * Timetable.collection :=
  match headerUserId with
  | None => (Reply401, docs)
  | Some userId =>
      if TimetableController.missing headerUserId then (Reply401, docs)
      else
        match castObjectId entryId with
        | None => (Reply500, docs)
        | Some id =>
            match findOneAndDelete
                    (fun doc => String.eqb (ITimetableEntry._id doc) id
                                && String.eqb (ITimetableEntry.userId doc) userId) docs with
            | Some (_, rest) => (Reply200 tt, rest)
            | None => (Reply404, docs)
            end
        end
  end.
End ObjectIds.






End EntryController.

(** * Vocabulary of the properties, and sample timetables *)

(** What a pushed slot looks like: it starts at the cursor or at the end of
    a swept entry, it ends at the start of a swept entry or at the end of
    the window, and it lasts half an hour or more. *)
Record gapOf (dow : Z) (es : list ITimetableEntry.t) (cur eod : Z)
       (s : IFreeTimeSlot.t) : Prop := mkGapOf {
  gap_start : IFreeTimeSlot.startTime s = cur
              \/ exists e, In e es /\ IFreeTimeSlot.startTime s = ITimetableEntry.endTime e;
  gap_end : IFreeTimeSlot.endTime s = eod
            \/ exists e, In e es /\ IFreeTimeSlot.endTime s = ITimetableEntry.startTime e;
  gap_length : 1800000 <= IFreeTimeSlot.endTime s - IFreeTimeSlot.startTime s;
  gap_duration : IFreeTimeSlot.duration s =
                 TimeUtils.minutesBetween (IFreeTimeSlot.startTime s) (IFreeTimeSlot.endTime s);
  gap_day : IFreeTimeSlot.dayOfWeek s = dow;
  gap_available : IFreeTimeSlot.isAvailable s = true
}.

(** Entries whose end is not before their start. *)
Definition wellFormed (e : ITimetableEntry.t) : Prop :=
  ITimetableEntry.startTime e <= ITimetableEntry.endTime e.

(** Two slots, as half-open spans, share an instant. *)
Definition slotsOverlap (a b : IFreeTimeSlot.t) : Prop :=
  Z.max (IFreeTimeSlot.startTime a) (IFreeTimeSlot.startTime b)
  < Z.min (IFreeTimeSlot.endTime a) (IFreeTimeSlot.endTime b).

(** The first of the two ends before the second starts, or when it starts. *)
Definition slotBefore (a b : IFreeTimeSlot.t) : Prop :=
  IFreeTimeSlot.endTime a <= IFreeTimeSlot.startTime b.

(** The values [currentDate] takes in [n] rounds. *)
Fixpoint datesFrom (n : nat) (currentDate : Z) : list Z :=
  match n with
  | O => []
  | S n' => currentDate :: datesFrom n' (currentDate + JsDate.msPerDay)
  end.

Definition loopDates (startDate endDate : Z) : list Z :=
  datesFrom (TimeUtils.dayCount startDate endDate) startDate.

(** Two slots of a result are of the same day: same [dayOfWeek], and they
    start on the same calendar date. *)
Definition sameDay (tz : Z) (a b : IFreeTimeSlot.t) : Prop :=
  IFreeTimeSlot.dayOfWeek a = IFreeTimeSlot.dayOfWeek b
  /\ JsDate.localDay tz (IFreeTimeSlot.startTime a)
     = JsDate.localDay tz (IFreeTimeSlot.startTime b).

(** No two slots of the result, at different positions, are of the same day
    and overlap. *)
Definition disjointPerDay (tz : Z) (slots : list IFreeTimeSlot.t) : Prop :=
  forall i j a b,
    i <> j -> nth_error slots i = Some a -> nth_error slots j = Some b ->
    sameDay tz a b -> ~ slotsOverlap a b.

(** Sample timetables.  Instants are UTC; 1704067200000 is Monday
    2024-01-01 00:00 and 1704672000000 is Monday 2024-01-08 00:00. *)

(** Two classes on Monday 2024-01-01: 09:00 to 10:00 and 11:00 to 12:00. *)
Definition mondayClasses : list ITimetableEntry.t :=
  [ ITimetableEntry.mk "c1" "alice" "Algebra" 1704099600000 1704103200000 1 false None;
    ITimetableEntry.mk "c2" "alice" "Physics" 1704106800000 1704110400000 1 false None ].


(** The payload of a response, when there is one, satisfies [P]. *)
Definition payloadSatisfies {A : Type} (P : A -> Prop)
           (r : TimetableController.Response A) : Prop :=
  match r with
  | TimetableController.Status200 data => P data
  | _ => True
  end.

(** The entry is one of the [dayEntries] of the round of [currentDate]. *)
Definition sweptOn (tz : Z) (timetableEntries : list ITimetableEntry.t)
           (entry : ITimetableEntry.t) (currentDate : Z) : Prop :=
  In entry (TimeUtils.dayEntriesOf tz
              (sortByKey ITimetableEntry.startTime timetableEntries) currentDate).

(** In the rounds of the loop the entry is swept on its own calendar date
    and on no other. *)
Definition sweptOnOwnDateOnly (tz : Z) (timetableEntries : list ITimetableEntry.t)
           (startDate endDate : Z) (entry : ITimetableEntry.t) : Prop :=
  forall currentDate,
    In currentDate (loopDates startDate endDate) ->
    sweptOn tz timetableEntries entry currentDate ->
    JsDate.localDay tz currentDate
    = JsDate.localDay tz (ITimetableEntry.startTime entry).

(** A class held once, on Monday 2024-01-01 from 09:00 to 10:30. *)
Definition mondayClass : ITimetableEntry.t :=
  ITimetableEntry.mk "c1" "alice" "Algebra" 1704099600000 1704105000000 1 false None.


(** The same class, weekly, until Friday 2024-01-05 00:00. *)
Definition weeklyClass : ITimetableEntry.t :=
  ITimetableEntry.mk "c1" "alice" "Algebra" 1704099600000 1704105000000 1 true
    (Some (IRecurringPattern.mk "weekly" 1 (Some 1704412800000) None)).

(** A weekly class first held on Monday 2023-12-25 from 09:00 to 10:30,
    until Sunday 2023-12-31 00:00. *)
Definition endedClass : ITimetableEntry.t :=
  ITimetableEntry.mk "c0" "alice" "Logic" 1703494800000 1703500200000 1 true
    (Some (IRecurringPattern.mk "weekly" 1 (Some 1703980800000) None)).

(** Two entries with the same instants and the same [dayOfWeek]. *)
Definition sameSchedule (e e' : ITimetableEntry.t) : Prop :=
  ITimetableEntry.startTime e = ITimetableEntry.startTime e'
  /\ ITimetableEntry.endTime e = ITimetableEntry.endTime e'
  /\ ITimetableEntry.dayOfWeek e = ITimetableEntry.dayOfWeek e'.

(** The class of [mondayClass] with a recurrence that no validator accepts. *)
Definition brokenClass : ITimetableEntry.t :=
  ITimetableEntry.mk "c1" "alice" "Algebra" 1704099600000 1704105000000 1 true
    (Some (IRecurringPattern.mk "daily" 0 None None)).

(** Monday 2024-01-01: the class of 12:00 to 13:00 stored before the class
    of 09:00 to 10:00. *)
Definition lateThenEarly : list ITimetableEntry.t :=
  [ ITimetableEntry.mk "c2" "alice" "Physics" 1704110400000 1704114000000 1 false None;
    ITimetableEntry.mk "c1" "alice" "Algebra" 1704099600000 1704103200000 1 false None ].

(** The span of a slot: its two instants and its duration. *)
Definition span (slot : IFreeTimeSlot.t) : Z * Z * Q :=
  (IFreeTimeSlot.startTime slot, IFreeTimeSlot.endTime slot, IFreeTimeSlot.duration slot).

Definition bounds (slot : IFreeTimeSlot.t) : Z * Z :=
  (IFreeTimeSlot.startTime slot, IFreeTimeSlot.endTime slot).

(** Two results hold the same spans. *)
Definition sameSpans (slots slots' : list IFreeTimeSlot.t) : Prop :=
  forall iv, In iv (map span slots) <-> In iv (map span slots').

Definition meet (p q : Z * Z) : Z * Z := (Z.max (fst p) (fst q), Z.min (snd p) (snd q)).

Definition longEnough (p : Z * Z) : Prop := 1800000 <= snd p - fst p.

Definition spanOf (p : Z * Z) : Z * Z * Q :=
  (fst p, snd p, TimeUtils.minutesBetween (fst p) (snd p)).

(** A span common to one slot of each of three participants, long enough. *)
Definition common3 (A B C : list IFreeTimeSlot.t) (iv : Z * Z * Q) : Prop :=
  exists a b c, In a A /\ In b B /\ In c C
                /\ longEnough (meet (meet (bounds a) (bounds b)) (bounds c))
                /\ iv = spanOf (meet (meet (bounds a) (bounds b)) (bounds c)).

(** Every slot of the sequence carries the weekday [d]. *)
Definition taggedWith (d : Z) (slots : list IFreeTimeSlot.t) : Prop :=
  Forall (fun slot => IFreeTimeSlot.dayOfWeek slot = d) slots.

(** Monday 2024-01-01: A is free from 08:00 to 12:00, B from 10:00 to
    14:00, C from 09:00 to 22:00. *)
Definition freeA : list IFreeTimeSlot.t :=
  [IFreeTimeSlot.mk 1704096000000 1704110400000 240 1 true].
Definition freeB : list IFreeTimeSlot.t :=
  [IFreeTimeSlot.mk 1704103200000 1704117600000 240 1 true].
Definition freeC : list IFreeTimeSlot.t :=
  [IFreeTimeSlot.mk 1704099600000 1704146400000 780 1 true].

(** The slot lies within the working window of the day of [currentDate]. *)
Definition withinWindow (tz : Z) (workingHours : WorkingHours) (currentDate : Z)
           (slot : IFreeTimeSlot.t) : Prop :=
  JsDate.setHours tz currentDate (whStart workingHours) 0 0 0
  <= IFreeTimeSlot.startTime slot
  /\ IFreeTimeSlot.endTime slot
     <= JsDate.setHours tz currentDate (whEnd workingHours) 0 0 0.

(** Every round of the loop pushes slots of the window of its day only. *)
Definition gapsWithinWindows (tz : Z) (timetableEntries : list ITimetableEntry.t)
           (startDate endDate : Z) (workingHours : WorkingHours) : Prop :=
  forall currentDate,
    In currentDate (loopDates startDate endDate) ->
    Forall (withinWindow tz workingHours currentDate)
           (TimeUtils.sweepDay tz (sortByKey ITimetableEntry.startTime timetableEntries)
              workingHours currentDate).

(** The entry ends when the window opens or later, and starts when the
    window closes or earlier. *)
Definition reachesWindow (tz : Z) (workingHours : WorkingHours) (currentDate : Z)
           (entry : ITimetableEntry.t) : Prop :=
  JsDate.setHours tz currentDate (whStart workingHours) 0 0 0
  <= ITimetableEntry.endTime entry
  /\ ITimetableEntry.startTime entry
     <= JsDate.setHours tz currentDate (whEnd workingHours) 0 0 0.

(** Monday 2024-01-01: a class from 06:00 to 07:00, a class from 22:30 to
    23:00. *)
Definition earlyClass : ITimetableEntry.t :=
  ITimetableEntry.mk "c1" "alice" "Rowing" 1704088800000 1704092400000 1 false None.
Definition eveningClass : ITimetableEntry.t :=
  ITimetableEntry.mk "c2" "alice" "Choir" 1704148200000 1704150000000 1 false None.

(** Monday 2024-01-01: a class from 07:00 to 09:00 and a class from 21:00
    to 23:00. *)
Definition straddlingClasses : list ITimetableEntry.t :=
  [ ITimetableEntry.mk "c1" "alice" "Rowing" 1704092400000 1704099600000 1 false None;
    ITimetableEntry.mk "c2" "alice" "Choir" 1704142800000 1704150000000 1 false None ].

(** ** Vocabulary of the further properties *)

(** The test of [createEntry] and [updateEntry]: the two entries share an
    instant. *)
Definition entriesOverlap (a b : ITimetableEntry.t) : Prop :=
  ITimetableEntry.startTime a < ITimetableEntry.endTime b
  /\ ITimetableEntry.startTime b < ITimetableEntry.endTime a.

(** The entry ends after it starts. *)
Definition properEntry (e : ITimetableEntry.t) : Prop :=
  ITimetableEntry.startTime e < ITimetableEntry.endTime e.

(** No two different entries of one weekday share an instant. *)
Definition noDayConflict (entries : list ITimetableEntry.t) : Prop :=
  forall a b,
    In a entries -> In b entries -> a <> b ->
    ITimetableEntry.dayOfWeek a = ITimetableEntry.dayOfWeek b ->
    ~ entriesOverlap a b.

(** The entry and the slot share an instant. *)
Definition entryOverlapsSlot (e : ITimetableEntry.t) (s : IFreeTimeSlot.t) : Prop :=
  Z.max (ITimetableEntry.startTime e) (IFreeTimeSlot.startTime s)
  < Z.min (ITimetableEntry.endTime e) (IFreeTimeSlot.endTime s).

(** The whole working window of the day of [currentDate], as a slot. *)
Definition windowSlot (tz : Z) (workingHours : WorkingHours) (currentDate : Z)
  : IFreeTimeSlot.t :=
  let opening := JsDate.setHours tz currentDate (whStart workingHours) 0 0 0 in
  let closing := JsDate.setHours tz currentDate (whEnd workingHours) 0 0 0 in
  IFreeTimeSlot.mk opening closing (TimeUtils.minutesBetween opening closing)
                   (JsDate.getDay tz currentDate) true.

(** The slot [inner] lies within the slot [outer]. *)
Definition slotWithin (inner outer : IFreeTimeSlot.t) : Prop :=
  IFreeTimeSlot.startTime outer <= IFreeTimeSlot.startTime inner
  /\ IFreeTimeSlot.endTime inner <= IFreeTimeSlot.endTime outer.

(** A slot as [calculateFreeTimeSlots] and [intersectFreeSlots] build them:
    half an hour or more, [duration] computed from the two instants, and
    available. *)
Definition gapShaped (s : IFreeTimeSlot.t) : Prop :=
  1800000 <= IFreeTimeSlot.endTime s - IFreeTimeSlot.startTime s
  /\ IFreeTimeSlot.duration s
     = TimeUtils.minutesBetween (IFreeTimeSlot.startTime s) (IFreeTimeSlot.endTime s)
  /\ IFreeTimeSlot.isAvailable s = true.

(** Every chunk but the last holds [size] elements, and the last one holds
    from 1 to [size] elements. *)
Fixpoint chunksFilled {T : Type} (size : Z) (chunks : list (list T)) : Prop :=
  match chunks with
  | [] => True
  | [last] => 1 <= Z.of_nat (List.length last) <= size
  | c :: rest => Z.of_nat (List.length c) = size /\ chunksFilled size rest
  end.

(** No key is bound twice. *)
Definition keysOnce {T : Type} (c : @CacheUtils.cache T) : Prop :=
  NoDup (map fst c).

(** The characters of a string, first to last. *)
Definition chars (s : string) : list ascii := list_ascii_of_string s.

(** The string neither begins nor ends with white space. *)
Definition trimmed (s : string) : Prop :=
  match chars s with
  | [] => True
  | first :: _ =>
      ValidationUtils.isWhiteSpace first = false
      /\ ValidationUtils.isWhiteSpace (last (chars s) first) = false
  end.

(** The order of [.sort({ dayOfWeek: 1, startTime: 1 })]. *)
Definition byDayThenStart (a b : ITimetableEntry.t) : Prop :=
  ITimetableEntry.dayOfWeek a < ITimetableEntry.dayOfWeek b
  \/ (ITimetableEntry.dayOfWeek a = ITimetableEntry.dayOfWeek b
      /\ ITimetableEntry.startTime a <= ITimetableEntry.startTime b).

(** The number of weeks after which a recurrence comes again: [interval]
    for weekly, twice and four times as much for biweekly and monthly. *)
Definition weeksOfPeriod (pattern : IRecurringPattern.t) : Z :=
  if String.eqb (IRecurringPattern.frequency pattern) "weekly"
  then IRecurringPattern.interval pattern
  else if String.eqb (IRecurringPattern.frequency pattern) "biweekly"
  then 2 * IRecurringPattern.interval pattern
  else if String.eqb (IRecurringPattern.frequency pattern) "monthly"
  then 4 * IRecurringPattern.interval pattern
  else 0.

(** What [occursOnDate] asks of a date, for a recurring document with the
    pattern [pattern]: not after the end of the pattern, on the weekday of
    the document, not before its first start, and a whole number of periods
    of whole weeks after it. *)
Definition recurrenceHits (tz : Z) (doc : ITimetableEntry.t)
           (pattern : IRecurringPattern.t) (date : Z) : Prop :=
  (forall patternEnd,
      IRecurringPattern.endDate pattern = Some patternEnd -> date <= patternEnd)
  /\ JsDate.getDay tz date = ITimetableEntry.dayOfWeek doc
  /\ ITimetableEntry.startTime doc <= date
  /\ weeksOfPeriod pattern <> 0
  /\ (weeksOfPeriod pattern
      | (date - ITimetableEntry.startTime doc) / Timetable.msPerWeek).

(** A weekly class from Monday 2024-01-01 09:00, every second week, with
    no end. *)
Definition fortnightlyClass : ITimetableEntry.t :=
  ITimetableEntry.mk "c3" "alice" "Seminar" 1704099600000 1704105000000 1 true
    (Some (IRecurringPattern.mk "weekly" 2 None None)).

(** What [createEntry] keeps: every document ends after it starts, and no
    two different documents of one user and one weekday share an instant. *)
Definition conflictFree (docs : Timetable.collection) : Prop :=
  Forall properEntry docs
  /\ forall a b,
      In a docs -> In b docs -> a <> b ->
      ITimetableEntry.userId a = ITimetableEntry.userId b ->
      ITimetableEntry.dayOfWeek a = ITimetableEntry.dayOfWeek b ->
      ~ entriesOverlap a b.

(** The collections that calls of [createEntry] and [deleteEntry] make of
    the empty collection. *)
Inductive builtByCalls (castObjectId : string -> option string)
  : Timetable.collection -> Prop :=
| built_empty : builtByCalls castObjectId []
| built_create docs newId headerUserId body :
    builtByCalls castObjectId docs ->
    builtByCalls castObjectId
      (snd (EntryController.createEntry docs newId headerUserId body))
| built_delete docs headerUserId entryId :
    builtByCalls castObjectId docs ->
    builtByCalls castObjectId
      (snd (EntryController.deleteEntry castObjectId docs headerUserId entryId)).

(** The time span of the body shares an instant with the document. *)
Definition bodyOverlaps (body : CreateEntryBody.t) (doc : ITimetableEntry.t) : Prop :=
  CreateEntryBody.startTime body < ITimetableEntry.endTime doc
  /\ ITimetableEntry.startTime doc < CreateEntryBody.endTime body.

(** A request for a lecture on Monday 2024-01-01 from 09:30 to 10:30. *)
Definition lectureBody : CreateEntryBody.t :=
  CreateEntryBody.mk "Logic" None 1704101400000 1704105000000 1 None None None None.



(** The text of a time of day, hour and minute on two digits each. *)
Definition clockText (hour minute : Z) : string :=
  (TimeUtils.twoDigits hour ++ ":" ++ TimeUtils.twoDigits minute)%string.

(** The minute of the local day that holds the instant, from 0 to 1439. *)
Definition minuteOfDay (tz time : Z) : Z :=
  (time + tz) mod JsDate.msPerDay / JsDate.msPerMinute.

(** ** Numerals, dates of a body, identifiers *)









(** The list [l] is the lists [l1] and [l2] shuffled together, each of the
    two in its order. *)
Inductive interleaved {T : Type} : list T -> list T -> list T -> Prop :=
| interleaved_nil : interleaved [] [] []
| interleaved_first x l1 l2 l :
    interleaved l1 l2 l -> interleaved (x :: l1) l2 (x :: l)
| interleaved_second x l1 l2 l :
    interleaved l1 l2 l -> interleaved l1 (x :: l2) (x :: l).

(** A cast for the examples: an identifier is a text of 24 hexadecimal
    digits, and the documents carry it with its letters in lower case. *)
Definition isHexDigit (c : ascii) : bool :=
  match JsGlobal.digitOf 16 c with Some _ => true | None => false end.

Definition lowerCase (c : ascii) : ascii :=
  let n := nat_of_ascii c in
  if ((65 <=? n) && (n <=? 90))%nat then ascii_of_nat (n + 32) else c.

Fixpoint lowerCaseText (s : string) : string :=
  match s with
  | EmptyString => EmptyString
  | String c rest => String (lowerCase c) (lowerCaseText rest)
  end.

Definition hexObjectId (s : string) : option string :=
  if ((String.length s =? 24)%nat && forallb isHexDigit (chars s))%bool
  then Some (lowerCaseText s) else None.

(** The classes of [mondayClasses] under identifiers of the database. *)
Definition storedClasses : Timetable.collection :=
  [ ITimetableEntry.mk "65920a4e7f3c2b0012ab34c1" "alice" "Algebra"
      1704099600000 1704103200000 1 false None;
    ITimetableEntry.mk "65920a4e7f3c2b0012ab34c2" "alice" "Physics"
      1704106800000 1704110400000 1 false None ].

(** * Properties *)

(** ** The stable sort *)

Section StableSortFacts.
Context {A : Type} (key : A -> Z).

Lemma insertByKey_perm (x : A) (l : list A) :
  Permutation (insertByKey key x l) (x :: l).
Proof.
  induction l as [|y l IH]; simpl.
  - reflexivity.
  - destruct (key x <=? key y).
    + reflexivity.
    + rewrite IH. apply perm_swap.
Qed.

Lemma sortByKey_perm (l : list A) : Permutation (sortByKey key l) l.
Proof.
  induction l as [|x l IH]; simpl.
  - constructor.
  - rewrite insertByKey_perm. now constructor.
Qed.

Lemma insertByKey_sorted (x : A) (l : list A) :
  StronglySorted (keyLe key) l -> StronglySorted (keyLe key) (insertByKey key x l).
Proof.
  induction 1 as [|y l Hl IH Hy]; simpl.
  - repeat constructor.
  - destruct (key x <=? key y) eqn:E.
    + apply Z.leb_le in E. constructor.
      * now constructor.
      * constructor; [exact E|].
        eapply Forall_impl; [|exact Hy]. unfold keyLe. intros; lia.
    + apply Z.leb_gt in E. constructor; [exact IH|].
      rewrite (insertByKey_perm x l). constructor; [|exact Hy].
      unfold keyLe. lia.
Qed.

Lemma sortByKey_sorted (l : list A) : StronglySorted (keyLe key) (sortByKey key l).
Proof.
  induction l as [|x l IH]; simpl.
  - constructor.
  - now apply insertByKey_sorted.
Qed.

(** An array that is in order already is left as it is. *)
Lemma sortByKey_fixed (l : list A) :
  StronglySorted (keyLe key) l -> sortByKey key l = l.
Proof.
  induction 1 as [|x l Hl IH Hx]; simpl; [reflexivity|].
  rewrite IH. destruct l as [|y l']; [reflexivity|]. simpl.
  inversion Hx as [|? ? Hxy _]; subst. unfold keyLe in Hxy.
  apply Z.leb_le in Hxy. now rewrite Hxy.
Qed.

Lemma sortByKey_idempotent (l : list A) :
  sortByKey key (sortByKey key l) = sortByKey key l.
Proof. apply sortByKey_fixed, sortByKey_sorted. Qed.

Lemma filter_sorted (f : A -> bool) (l : list A) :
  StronglySorted (keyLe key) l -> StronglySorted (keyLe key) (filter f l).
Proof.
  induction 1 as [|x l Hl IH Hx]; simpl; [constructor|].
  destruct (f x); [|exact IH].
  constructor; [exact IH|].
  apply Forall_forall. intros y Hy. apply filter_In in Hy.
  rewrite Forall_forall in Hx. now apply Hx.
Qed.
End StableSortFacts.

(** ** Pairs of a list taken in order *)

Lemma ForallOrdPairs_app {A : Type} (R : A -> A -> Prop) (l1 l2 : list A) :
  ForallOrdPairs R l1 -> ForallOrdPairs R l2 ->
  (forall a b, In a l1 -> In b l2 -> R a b) ->
  ForallOrdPairs R (l1 ++ l2).
Proof.
  intros H1 H2 Hx. induction H1 as [|a l1 Ha H1 IH]; simpl; [exact H2|].
  constructor.
  - apply Forall_app. split; [exact Ha|].
    apply Forall_forall. intros b Hb. apply Hx; [now left|exact Hb].
  - apply IH. intros a' b Ha' Hb. apply Hx; [now right|exact Hb].
Qed.

(** ** Durations *)

Lemma minutesBetween_eq (a b : Z) : (TimeUtils.minutesBetween a b == (b - a) # 60000)%Q.
Proof. apply Qred_correct. Qed.

Lemma atLeast30_iff (a b : Z) :
  TimeUtils.atLeast30 (TimeUtils.minutesBetween a b) = true <-> 1800000 <= b - a.
Proof.
  unfold TimeUtils.atLeast30. rewrite Qle_bool_iff, minutesBetween_eq.
  unfold Qle. simpl. lia.
Qed.


(** ** The sweep of one day *)

Lemma pushGap_eq (dow c x : Z) :
  TimeUtils.pushGap dow c x =
  if 1800000 <=? x - c
  then [IFreeTimeSlot.mk c x (TimeUtils.minutesBetween c x) dow true]
  else [].
Proof.
  unfold TimeUtils.pushGap.
  destruct (TimeUtils.atLeast30 (TimeUtils.minutesBetween c x)) eqn:E.
  - apply atLeast30_iff in E.
    destruct (Z.ltb_spec c x); destruct (Z.leb_spec 1800000 (x - c)); (reflexivity || lia).
  - assert (H : ~ 1800000 <= x - c)
      by (intro H; apply atLeast30_iff in H; congruence).
    destruct (Z.ltb_spec c x); destruct (Z.leb_spec 1800000 (x - c)); (reflexivity || lia).
Qed.

Lemma pushGap_In (dow c x : Z) (s : IFreeTimeSlot.t) :
  In s (TimeUtils.pushGap dow c x) <->
  1800000 <= x - c /\
  s = IFreeTimeSlot.mk c x (TimeUtils.minutesBetween c x) dow true.
Proof.
  rewrite pushGap_eq. destruct (Z.leb_spec 1800000 (x - c)); simpl.
  - split; [intros [<-|[]]; now split | intros [_ ->]; now left].
  - split; [intros [] | intros [H' _]; lia].
Qed.

Lemma findGaps_gapOf (dow : Z) (es : list ITimetableEntry.t) (cur eod : Z)
      (s : IFreeTimeSlot.t) :
  In s (TimeUtils.findGaps dow es cur eod) -> gapOf dow es cur eod s.
Proof.
  revert cur. induction es as [|e es IH]; intros cur; simpl.
  - rewrite pushGap_In. intros [Hlen ->]. constructor; simpl; auto.
  - rewrite in_app_iff, pushGap_In. intros [[Hlen ->]|Hin].
    + constructor; simpl; auto. right. exists e. split; [now left|reflexivity].
    + destruct (IH _ Hin) as [Hs He Hl Hd Hw Ha].
      constructor; auto.
      * right. destruct Hs as [Hs|(e' & He' & Hs)]; [exists e|exists e'];
          (split; [simpl; tauto|exact Hs]).
      * destruct He as [He|(e' & He' & He)]; [now left|].
        right. exists e'. split; [simpl; tauto|exact He].
Qed.

Lemma slotBefore_disjoint (a b : IFreeTimeSlot.t) :
  slotBefore a b -> ~ slotsOverlap a b.
Proof. unfold slotBefore, slotsOverlap. lia. Qed.

Lemma findGaps_ordered (dow : Z) (es : list ITimetableEntry.t) (cur eod : Z) :
  StronglySorted (keyLe ITimetableEntry.startTime) es ->
  Forall wellFormed es ->
  ForallOrdPairs slotBefore (TimeUtils.findGaps dow es cur eod).
Proof.
  intros Hs. revert cur. induction Hs as [|e es Hs IH He]; intros cur Hwf; simpl.
  - rewrite pushGap_eq. destruct (_ <=? _); repeat constructor.
  - inversion Hwf as [|? ? Hwe Hwes]; subst.
    apply ForallOrdPairs_app.
    + rewrite pushGap_eq. destruct (_ <=? _); repeat constructor.
    + now apply IH.
    + intros a b Ha Hb. apply pushGap_In in Ha as [_ ->].
      apply findGaps_gapOf in Hb. destruct Hb as [Hb _ _ _ _ _].
      unfold slotBefore, wellFormed in *. simpl.
      destruct Hb as [->|(e' & He' & ->)]; [exact Hwe|].
      rewrite Forall_forall in He, Hwes.
      specialize (He _ He'). specialize (Hwes _ He').
      unfold keyLe, wellFormed in *. lia.
Qed.

(** ** The loop over the days *)

Lemma dayCount_stop (cur endDate : Z) :
  endDate < cur -> TimeUtils.dayCount cur endDate = O.
Proof.
  intros H. unfold TimeUtils.dayCount.
  change JsDate.msPerDay with 86400000.
  assert ((endDate - cur) / 86400000 < 0) by (apply Z.div_lt_upper_bound; lia).
  lia.
Qed.

Lemma dayCount_step (cur endDate : Z) :
  cur <= endDate ->
  TimeUtils.dayCount cur endDate = S (TimeUtils.dayCount (cur + JsDate.msPerDay) endDate).
Proof.
  intros H. unfold TimeUtils.dayCount.
  change JsDate.msPerDay with 86400000.
  replace (endDate - cur) with ((endDate - (cur + 86400000)) + 1 * 86400000) by lia.
  rewrite Z.div_add by lia.
  assert (-1 <= (endDate - (cur + 86400000)) / 86400000)
    by (apply Z.div_le_lower_bound; lia).
  lia.
Qed.

(** The loop stops on its own condition: with [dayCount] rounds of fuel or
    more it sweeps the dates [startDate], [startDate + 1 day], ... that are
    not after [endDate], and nothing else. *)
Lemma dayLoop_dates (tz : Z) (sorted : list ITimetableEntry.t) (wh : WorkingHours)
      (endDate : Z) (fuel : nat) (cur : Z) :
  (TimeUtils.dayCount cur endDate <= fuel)%nat ->
  TimeUtils.dayLoop tz fuel sorted wh cur endDate =
  flat_map (TimeUtils.sweepDay tz sorted wh) (loopDates cur endDate).
Proof.
  unfold loopDates. revert cur. induction fuel as [|fuel IH]; intros cur Hf; simpl.
  - replace (TimeUtils.dayCount cur endDate) with O by lia. reflexivity.
  - destruct (Z.leb_spec cur endDate) as [Hle|Hgt].
    + rewrite (dayCount_step cur endDate Hle) in *. simpl.
      rewrite IH by lia. reflexivity.
    + now rewrite dayCount_stop.
Qed.

Lemma dayLoop_fuel_enough (tz : Z) (sorted : list ITimetableEntry.t) (wh : WorkingHours)
      (endDate : Z) (fuel : nat) (cur : Z) :
  (TimeUtils.dayCount cur endDate <= fuel)%nat ->
  TimeUtils.dayLoop tz fuel sorted wh cur endDate =
  TimeUtils.dayLoop tz (TimeUtils.dayCount cur endDate) sorted wh cur endDate.
Proof.
  intros H. rewrite (dayLoop_dates _ _ _ _ fuel cur H).
  symmetry. apply dayLoop_dates. apply Nat.le_refl.
Qed.

Lemma datesFrom_In (n : nat) (cur d : Z) :
  In d (datesFrom n cur) <->
  exists k, 0 <= k < Z.of_nat n /\ d = cur + k * JsDate.msPerDay.
Proof.
  revert cur. induction n as [|n IH]; intros cur; simpl.
  - split; [intros [] | intros (k & Hk & _); lia].
  - rewrite IH. split.
    + intros [<-|(k & Hk & ->)]; [exists 0|exists (k + 1)]; split; lia.
    + intros (k & Hk & ->). destruct (Z.eq_dec k 0) as [->|Hne].
      * left. lia.
      * right. exists (k - 1). split; lia.
Qed.

Lemma loopDates_In (startDate endDate d : Z) :
  In d (loopDates startDate endDate) <->
  exists k, 0 <= k /\ d = startDate + k * JsDate.msPerDay /\ d <= endDate.
Proof.
  unfold loopDates. rewrite datesFrom_In. unfold TimeUtils.dayCount.
  change JsDate.msPerDay with 86400000.
  split; intros (k & Hk & Hd); exists k.
  - destruct Hk as [Hk0 Hk1]. split; [exact Hk0|]. split; [exact Hd|]. subst d.
    assert (k <= (endDate - startDate) / 86400000) by lia.
    assert (86400000 * ((endDate - startDate) / 86400000) <= endDate - startDate)
      by (apply Z.mul_div_le; lia).
    lia.
  - destruct Hd as [-> Hd]. split; [|reflexivity]. split; [exact Hk|].
    assert (k <= (endDate - startDate) / 86400000)
      by (apply Z.div_le_lower_bound; lia).
    lia.
Qed.

Lemma calculateFreeTimeSlots_days (tz : Z) (entries : list ITimetableEntry.t)
      (startDate endDate : Z) (workingHours : option WorkingHours) :
  fst (TimeUtils.calculateFreeTimeSlots tz entries startDate endDate workingHours) =
  flat_map
    (TimeUtils.sweepDay tz (sortByKey ITimetableEntry.startTime entries)
       (TimeUtils.hoursOrDefault workingHours))
    (loopDates startDate endDate).
Proof. unfold TimeUtils.calculateFreeTimeSlots. simpl. now apply dayLoop_dates. Qed.

Lemma dayCount_one (startDate endDate : Z) :
  startDate <= endDate < startDate + JsDate.msPerDay ->
  TimeUtils.dayCount startDate endDate = 1%nat.
Proof.
  intros [H1 H2]. rewrite (dayCount_step _ _ H1), dayCount_stop by lia. reflexivity.
Qed.

Lemma minutesBetween_shift (a b d : Z) :
  b - a = d -> TimeUtils.minutesBetween a b = Qred (d # 60000).
Proof. intros <-. reflexivity. Qed.

(** ** Scenario 1 of the specification *)

(** C1: one commitment on a Monday from 09:00 to 10:30, working hours from
    08:00 to 22:00 (given, or the default), a range whose loop visits that
    Monday only: [calculateFreeTimeSlots] returns exactly two slots, 08:00
    to 09:00 of 60 minutes and 10:30 to 22:00 of 690 minutes. *)
Theorem monday_commitment_two_gaps
        (tz : Z) (entry : ITimetableEntry.t) (startDate endDate : Z)
        (workingHours : option WorkingHours) :
  JsDate.getDay tz startDate = 1 ->
  startDate <= endDate < startDate + JsDate.msPerDay ->
  workingHours = None \/ workingHours = Some (mkWorkingHours 8 22) ->
  ITimetableEntry.dayOfWeek entry = 1 ->
  ITimetableEntry.startTime entry = JsDate.setHours tz startDate 9 0 0 0 ->
  ITimetableEntry.endTime entry = JsDate.setHours tz startDate 10 30 0 0 ->
  fst (TimeUtils.calculateFreeTimeSlots tz [entry] startDate endDate workingHours) =
  [ IFreeTimeSlot.mk (JsDate.setHours tz startDate 8 0 0 0)
                     (JsDate.setHours tz startDate 9 0 0 0) 60 1 true;
    IFreeTimeSlot.mk (JsDate.setHours tz startDate 10 30 0 0)
                     (JsDate.setHours tz startDate 22 0 0 0) 690 1 true ].
Proof.
  intros Hmon Hrange Hwh Hdow Hs He.
  rewrite calculateFreeTimeSlots_days.
  unfold loopDates. rewrite (dayCount_one _ _ Hrange). simpl.
  rewrite app_nil_r.
  assert (Hw : TimeUtils.hoursOrDefault workingHours = mkWorkingHours 8 22)
    by (destruct Hwh; subst; reflexivity).
  rewrite Hw. unfold TimeUtils.sweepDay, TimeUtils.dayEntriesOf.
  cbn [filter whStart whEnd TimeUtils.findGaps].
  rewrite Hdow, Hmon. cbn [Z.eqb Pos.eqb TimeUtils.findGaps].
  rewrite Hs, He, !pushGap_eq.
  assert (D1 : JsDate.setHours tz startDate 9 0 0 0
               - JsDate.setHours tz startDate 8 0 0 0 = 3600000)
    by (unfold JsDate.setHours, JsDate.msPerHour, JsDate.msPerMinute; lia).
  assert (D2 : JsDate.setHours tz startDate 22 0 0 0
               - JsDate.setHours tz startDate 10 30 0 0 = 41400000)
    by (unfold JsDate.setHours, JsDate.msPerHour, JsDate.msPerMinute; lia).
  rewrite D1, D2, (minutesBetween_shift _ _ _ D1), (minutesBetween_shift _ _ _ D2).
  reflexivity.
Qed.

(** The scenario on Monday 2024-01-01, UTC, the range being that whole day. *)
Lemma monday_commitment_two_gaps_witness :
  fst (TimeUtils.calculateFreeTimeSlots 0
         [ITimetableEntry.mk "c1" "alice" "Algebra" 1704099600000 1704105000000 1 false None]
         1704067200000 1704153599999 None) =
  [ IFreeTimeSlot.mk 1704096000000 1704099600000 60 1 true;
    IFreeTimeSlot.mk 1704105000000 1704146400000 690 1 true ].
Proof.
  apply (monday_commitment_two_gaps 0
           (ITimetableEntry.mk "c1" "alice" "Algebra" 1704099600000 1704105000000 1 false None)
           1704067200000 1704153599999 None).
  - reflexivity.
  - unfold JsDate.msPerDay, JsDate.msPerHour, JsDate.msPerMinute. lia.
  - now left.
  - reflexivity.
  - reflexivity.
  - reflexivity.
Defined.

(** ** Free slots of one day do not overlap *)

Lemma ForallOrdPairs_impl {A : Type} (R R' : A -> A -> Prop) (l : list A) :
  (forall a b, R a b -> R' a b) -> ForallOrdPairs R l -> ForallOrdPairs R' l.
Proof.
  intros HR. induction 1 as [|a l Ha Hl IH]; constructor.
  - eapply Forall_impl; [|exact Ha]. apply HR.
  - exact IH.
Qed.

(** C2: no two free slots of one person and one day overlap.  The code
    breaks this.  Two classes held once on Monday 2024-01-01, from 09:00 to
    10:00 and from 11:00 to 12:00 (UTC), each ending after it starts; the
    range goes from that Monday 00:00 to the next Monday 00:00, and the
    query of the controller answers it with the two classes.  The round of
    2024-01-08 sweeps the two classes again, with their instants of
    2024-01-01, although [occursOnDate] says of both that they do not occur
    on 2024-01-08: it pushes the slot 10:00 to 11:00 of 2024-01-01 a second
    time (positions 1 and 9 of the result), and a slot from 2024-01-01
    12:00 to 2024-01-08 22:00. *)
Theorem gaps_of_two_mondays_coincide :
  Forall properEntry mondayClasses
  /\ Timetable.findByUserAndDateRange mondayClasses "alice"
       1704067200000 1704672000000 = mondayClasses
  /\ Forall (fun entry => Timetable.occursOnDate 0 entry 1704672000000 = false)
            mondayClasses
  /\ TimeUtils.sweepDay 0 mondayClasses TimeUtils.defaultWorkingHours 1704672000000
     = [ IFreeTimeSlot.mk 1704103200000 1704106800000 60 1 true;
         IFreeTimeSlot.mk 1704110400000 1704751200000 10680 1 true ]
  /\ ~ disjointPerDay 0
        (fst (TimeUtils.calculateFreeTimeSlots 0 mondayClasses
                1704067200000 1704672000000 None)).
Proof.
  split; [|split; [|split; [|split]]].
  - repeat constructor; unfold properEntry; simpl; lia.
  - vm_compute. reflexivity.
  - repeat constructor.
  - vm_compute. reflexivity.
  - intros H.
    apply (H 1%nat 9%nat
             (IFreeTimeSlot.mk 1704103200000 1704106800000 60 1 true)
             (IFreeTimeSlot.mk 1704103200000 1704106800000 60 1 true)).
    + discriminate.
    + vm_compute. reflexivity.
    + vm_compute. reflexivity.
    + split; reflexivity.
    + unfold slotsOverlap. simpl. lia.
Qed.

(** When no entry ends before it starts, the result is the slots of the
    days of the loop, one day after the other, and the slots pushed by the
    sweep of one day are in order, each ending before or when the next
    starts; no two of them overlap. *)
Theorem gaps_of_one_sweep_disjoint
        (tz : Z) (timetableEntries : list ITimetableEntry.t)
        (startDate endDate : Z) (workingHours : option WorkingHours) :
  Forall wellFormed timetableEntries ->
  let result := TimeUtils.calculateFreeTimeSlots tz timetableEntries
                  startDate endDate workingHours in
  let sweep := TimeUtils.sweepDay tz (snd result)
                 (TimeUtils.hoursOrDefault workingHours) in
  fst result = flat_map sweep (loopDates startDate endDate)
  /\ forall currentDate,
      ForallOrdPairs (fun a b => slotBefore a b /\ ~ slotsOverlap a b)
                     (sweep currentDate).
Proof.
  intros Hwf result sweep. split.
  - apply calculateFreeTimeSlots_days.
  - intros d. subst sweep result. simpl.
    apply ForallOrdPairs_impl with (R := slotBefore).
    + intros a b Hab. split; [exact Hab|now apply slotBefore_disjoint].
    + unfold TimeUtils.sweepDay, TimeUtils.dayEntriesOf. apply findGaps_ordered.
      * apply filter_sorted, sortByKey_sorted.
      * apply Forall_forall. intros e He. apply filter_In in He as [He _].
        rewrite Forall_forall in Hwf. apply Hwf.
        eapply Permutation_in; [apply sortByKey_perm|exact He].
Qed.

Lemma gaps_of_one_sweep_disjoint_witness :
  let result := TimeUtils.calculateFreeTimeSlots 0 mondayClasses
                  1704067200000 1704672000000 None in
  let sweep := TimeUtils.sweepDay 0 (snd result) (TimeUtils.hoursOrDefault None) in
  fst result = flat_map sweep (loopDates 1704067200000 1704672000000)
  /\ forall currentDate,
      ForallOrdPairs (fun a b => slotBefore a b /\ ~ slotsOverlap a b)
                     (sweep currentDate).
Proof.
  apply (gaps_of_one_sweep_disjoint 0 mondayClasses 1704067200000 1704672000000 None).
  repeat constructor; unfold wellFormed; simpl; lia.
Defined.

(** ** Minimum duration *)










(** *** What [parseInt] reads from a decimal numeral *)















(** ** On which dates an entry is swept *)

Lemma sweptOn_iff (tz : Z) (entries : list ITimetableEntry.t)
      (entry : ITimetableEntry.t) (d : Z) :
  sweptOn tz entries entry d <->
  In entry entries /\ ITimetableEntry.dayOfWeek entry = JsDate.getDay tz d.
Proof.
  unfold sweptOn, TimeUtils.dayEntriesOf. rewrite filter_In, Z.eqb_eq.
  split; intros [H1 H2]; (split; [|exact H2]).
  - eapply Permutation_in; [apply sortByKey_perm|exact H1].
  - eapply Permutation_in; [symmetry; apply sortByKey_perm|exact H1].
Qed.


Lemma localDay_step (tz d k : Z) :
  JsDate.localDay tz (d + k * JsDate.msPerDay) = JsDate.localDay tz d + k.
Proof.
  unfold JsDate.localDay. change JsDate.msPerDay with 86400000.
  replace (d + k * 86400000 + tz) with (d + tz + k * 86400000) by lia.
  apply Z.div_add. lia.
Qed.

Lemma localDay_mono (tz a b : Z) :
  a <= b -> JsDate.localDay tz a <= JsDate.localDay tz b.
Proof.
  intros H. unfold JsDate.localDay. change JsDate.msPerDay with 86400000.
  apply Z.div_le_mono; lia.
Qed.

(** When the range touches seven calendar dates at most, and the entry
    starts within the range on the weekday its [dayOfWeek] names, the
    entry is swept on its own calendar date only, hence in one round of
    the loop at most. *)
Theorem one_off_class_swept_once_within_a_week
        (tz : Z) (timetableEntries : list ITimetableEntry.t)
        (startDate endDate : Z) (entry : ITimetableEntry.t) :
  JsDate.localDay tz endDate - JsDate.localDay tz startDate < 7 ->
  startDate <= ITimetableEntry.startTime entry <= endDate ->
  ITimetableEntry.dayOfWeek entry
  = JsDate.getDay tz (ITimetableEntry.startTime entry) ->
  sweptOnOwnDateOnly tz timetableEntries startDate endDate entry
  /\ forall d1 d2,
      In d1 (loopDates startDate endDate) -> In d2 (loopDates startDate endDate) ->
      sweptOn tz timetableEntries entry d1 -> sweptOn tz timetableEntries entry d2 ->
      d1 = d2.
Proof.
  intros Hweek [Hlo Hhi] Hdow.
  assert (Hown : sweptOnOwnDateOnly tz timetableEntries startDate endDate entry).
  { intros d Hd Hsw. apply sweptOn_iff in Hsw as [_ Hsw].
    apply loopDates_In in Hd as (k & Hk & Hd & Hle).
    pose proof (localDay_mono tz _ _ Hlo) as M1.
    pose proof (localDay_mono tz _ _ Hhi) as M2.
    pose proof (localDay_mono tz _ _ Hle) as M3.
    assert (M4 : JsDate.localDay tz startDate <= JsDate.localDay tz d)
      by (subst d; rewrite localDay_step; lia).
    rewrite Hdow in Hsw. unfold JsDate.getDay in Hsw.
    revert Hsw M1 M2 M3 M4 Hweek.
    generalize (JsDate.localDay tz d)
               (JsDate.localDay tz (ITimetableEntry.startTime entry))
               (JsDate.localDay tz startDate) (JsDate.localDay tz endDate).
    intros x y s e Hsw M1 M2 M3 M4 Hweek.
    Z.div_mod_to_equations. lia. }
  split; [exact Hown|].
  intros d1 d2 H1 H2 S1 S2.
  pose proof (Hown _ H1 S1) as E1. pose proof (Hown _ H2 S2) as E2.
  apply loopDates_In in H1 as (k1 & _ & -> & _).
  apply loopDates_In in H2 as (k2 & _ & -> & _).
  rewrite localDay_step in E1, E2. f_equal. f_equal. lia.
Qed.

Lemma one_off_class_swept_once_within_a_week_witness :
  sweptOnOwnDateOnly 0 [mondayClass] 1704067200000 1704585600000 mondayClass
  /\ forall d1 d2,
      In d1 (loopDates 1704067200000 1704585600000) ->
      In d2 (loopDates 1704067200000 1704585600000) ->
      sweptOn 0 [mondayClass] mondayClass d1 -> sweptOn 0 [mondayClass] mondayClass d2 ->
      d1 = d2.
Proof.
  apply (one_off_class_swept_once_within_a_week 0 [mondayClass]
           1704067200000 1704585600000 mondayClass).
  - vm_compute. reflexivity.
  - simpl. lia.
  - reflexivity.
Defined.

(** ** The end date of a recurrence *)


Lemma findByUserAndDateRange_In (docs : Timetable.collection) (uid : string)
      (startDate endDate : Z) (doc : ITimetableEntry.t) :
  In doc (Timetable.findByUserAndDateRange docs uid startDate endDate) <->
  In doc docs /\ Timetable.inDateRange uid startDate endDate doc = true.
Proof.
  unfold Timetable.findByUserAndDateRange. rewrite <- filter_In.
  split; intros H.
  - eapply Permutation_in; [|exact H].
    etransitivity; apply sortByKey_perm.
  - eapply Permutation_in; [|exact H].
    symmetry. etransitivity; apply sortByKey_perm.
Qed.

(** The query of the controller reads the end of a recurrence: a
    recurring entry whose [endDate] is before the start of the range is
    not handed to [calculateFreeTimeSlots], and the free slots of its
    owner are those computed without it. *)
Theorem ended_recurrence_left_out_by_the_query
        (tz : Z) (before after : Timetable.collection) (entry : ITimetableEntry.t)
        (pattern : IRecurringPattern.t) (patternEnd : Z)
        (uid : string) (startDate endDate : Z) (workingHours : option WorkingHours) :
  ITimetableEntry.isRecurring entry = true ->
  ITimetableEntry.recurringPattern entry = Some pattern ->
  IRecurringPattern.endDate pattern = Some patternEnd ->
  patternEnd < startDate ->
  TimetableController.freeSlotsOfUser tz (before ++ entry :: after) uid
    startDate endDate workingHours
  = TimetableController.freeSlotsOfUser tz (before ++ after) uid
      startDate endDate workingHours.
Proof.
  intros Hrec Hpat Hend Hlt.
  unfold TimetableController.freeSlotsOfUser, Timetable.findByUserAndDateRange.
  rewrite !filter_app. simpl. unfold Timetable.inDateRange at 2.
  rewrite Hrec, Hpat, Hend.
  replace (startDate <=? patternEnd) with false
    by (symmetry; apply Z.leb_gt; exact Hlt).
  simpl. rewrite !andb_false_r. reflexivity.
Qed.

(** [endedClass] ends before the range from 2024-01-01 to 2024-01-08
    starts. *)
Lemma ended_recurrence_left_out_by_the_query_witness :
  TimetableController.freeSlotsOfUser 0 ([] ++ endedClass :: [weeklyClass]) "alice"
    1704067200000 1704672000000 None
  = TimetableController.freeSlotsOfUser 0 ([] ++ [weeklyClass]) "alice"
      1704067200000 1704672000000 None.
Proof.
  apply (ended_recurrence_left_out_by_the_query 0 [] [weeklyClass] endedClass
           (IRecurringPattern.mk "weekly" 1 (Some 1703980800000) None)
           1703980800000 "alice" 1704067200000 1704672000000 None);
    (reflexivity || lia).
Defined.

(** ** Recurrence metadata is not read *)

Lemma insertByKey_sameSchedule (x x' : ITimetableEntry.t) (l l' : list ITimetableEntry.t) :
  sameSchedule x x' -> Forall2 sameSchedule l l' ->
  Forall2 sameSchedule (insertByKey ITimetableEntry.startTime x l)
                       (insertByKey ITimetableEntry.startTime x' l').
Proof.
  intros Hx. induction 1 as [|y y' l l' Hy Hl IH]; simpl.
  - constructor; [exact Hx|constructor].
  - replace (ITimetableEntry.startTime x') with (ITimetableEntry.startTime x)
      by apply Hx.
    replace (ITimetableEntry.startTime y') with (ITimetableEntry.startTime y)
      by apply Hy.
    destruct (_ <=? _).
    + constructor; [exact Hx|]. constructor; [exact Hy|exact Hl].
    + constructor; [exact Hy|exact IH].
Qed.

Lemma sortByKey_sameSchedule (l l' : list ITimetableEntry.t) :
  Forall2 sameSchedule l l' ->
  Forall2 sameSchedule (sortByKey ITimetableEntry.startTime l)
                       (sortByKey ITimetableEntry.startTime l').
Proof.
  induction 1; simpl; [constructor|]. now apply insertByKey_sameSchedule.
Qed.

Lemma dayEntriesOf_sameSchedule (tz : Z) (l l' : list ITimetableEntry.t) (d : Z) :
  Forall2 sameSchedule l l' ->
  Forall2 sameSchedule (TimeUtils.dayEntriesOf tz l d) (TimeUtils.dayEntriesOf tz l' d).
Proof.
  unfold TimeUtils.dayEntriesOf.
  induction 1 as [|x x' l l' Hx Hl IH]; simpl; [constructor|].
  replace (ITimetableEntry.dayOfWeek x') with (ITimetableEntry.dayOfWeek x)
    by apply Hx.
  destruct (_ =? _); [constructor; [exact Hx|exact IH]|exact IH].
Qed.

Lemma findGaps_sameSchedule (dow : Z) (l l' : list ITimetableEntry.t) (cur eod : Z) :
  Forall2 sameSchedule l l' ->
  TimeUtils.findGaps dow l cur eod = TimeUtils.findGaps dow l' cur eod.
Proof.
  intros H. revert cur. induction H as [|x x' l l' Hx Hl IH]; intros cur; simpl.
  - reflexivity.
  - destruct Hx as (Hx1 & Hx2 & Hx3). now rewrite Hx1, Hx2, IH.
Qed.

(** C9, as stated, fails.  A class whose recurrence has the frequency
    ['daily'] and the interval 0, which the validators of the schema
    refuse: [calculateFreeTimeSlots] returns the two slots of scenario 1,
    and [findCommonFreeTime], asked for the owner and a friend with no
    class, answers with status 200 and the same two slots. *)
Lemma broken_recurrence_gets_a_normal_result :
  (exists pattern,
      ITimetableEntry.recurringPattern brokenClass = Some pattern
      /\ Timetable.validRecurringPattern pattern = false)
  /\ fst (TimeUtils.calculateFreeTimeSlots 0 [brokenClass]
            1704067200000 1704067200000 None)
     = [ IFreeTimeSlot.mk 1704096000000 1704099600000 60 1 true;
         IFreeTimeSlot.mk 1704105000000 1704146400000 690 1 true ]
  /\ TimetableController.findCommonFreeTime 0 [brokenClass] (Some "alice"%string)
       (TimetableController.mkCommonFreeTimeBody ["bob"%string]
          (Some (TimetableController.DateNumber 1704067200000))
          (Some (TimetableController.DateNumber 1704067200000)) None)
     = TimetableController.Status200
         [ IFreeTimeSlot.mk 1704096000000 1704099600000 60 1 true;
           IFreeTimeSlot.mk 1704105000000 1704146400000 690 1 true ].
Proof.
  split; [eexists; split; reflexivity|].
  split; vm_compute; reflexivity.
Qed.

(** C9, amended: [calculateFreeTimeSlots] reads [startTime], [endTime] and
    [dayOfWeek] of its entries and nothing else, so an entry with malformed
    recurrence metadata gets the result of any entry with the same instants
    and weekday; malformed metadata is refused where a document is saved,
    by [validRecurringPattern], not here. *)
Theorem free_slots_ignore_recurrence
        (tz : Z) (entries entries' : list ITimetableEntry.t)
        (startDate endDate : Z) (workingHours : option WorkingHours) :
  Forall2 sameSchedule entries entries' ->
  fst (TimeUtils.calculateFreeTimeSlots tz entries startDate endDate workingHours)
  = fst (TimeUtils.calculateFreeTimeSlots tz entries' startDate endDate workingHours).
Proof.
  intros H. rewrite !calculateFreeTimeSlots_days.
  apply flat_map_ext. intros d. unfold TimeUtils.sweepDay.
  apply findGaps_sameSchedule, dayEntriesOf_sameSchedule, sortByKey_sameSchedule, H.
Qed.

Lemma free_slots_ignore_recurrence_witness :
  fst (TimeUtils.calculateFreeTimeSlots 0 [brokenClass]
         1704067200000 1704672000000 None)
  = fst (TimeUtils.calculateFreeTimeSlots 0 [mondayClass]
           1704067200000 1704672000000 None).
Proof.
  apply (free_slots_ignore_recurrence 0 [brokenClass] [mondayClass]
           1704067200000 1704672000000 None).
  repeat constructor.
Defined.

(** ** The argument array after the call *)

(** C10, as stated, fails.  An array that holds the class of 12:00 before
    the class of 09:00 holds them in the other order after the call. *)
Lemma argument_array_reordered :
  snd (TimeUtils.calculateFreeTimeSlots 0 lateThenEarly
         1704067200000 1704067200000 None)
  = rev lateThenEarly
  /\ snd (TimeUtils.calculateFreeTimeSlots 0 lateThenEarly
            1704067200000 1704067200000 None)
     <> lateThenEarly.
Proof. split; [reflexivity|discriminate]. Qed.

(** C10, amended: [calculateFreeTimeSlots] is a function of its arguments,
    and it sorts the argument array in place: after the call the array
    holds the same entries, in ascending order of [startTime], entries
    with equal [startTime] in their former order.  A second call on the
    same array returns the same slots and leaves the array as the first
    call left it. *)
Theorem argument_array_sorted_in_place
        (tz : Z) (timetableEntries : list ITimetableEntry.t)
        (startDate endDate : Z) (workingHours : option WorkingHours) :
  let result := TimeUtils.calculateFreeTimeSlots tz timetableEntries
                  startDate endDate workingHours in
  snd result = sortByKey ITimetableEntry.startTime timetableEntries
  /\ Permutation (snd result) timetableEntries
  /\ StronglySorted (keyLe ITimetableEntry.startTime) (snd result)
  /\ TimeUtils.calculateFreeTimeSlots tz (snd result) startDate endDate workingHours
     = result.
Proof.
  simpl. split; [reflexivity|]. split; [apply sortByKey_perm|].
  split; [apply sortByKey_sorted|].
  unfold TimeUtils.calculateFreeTimeSlots. now rewrite sortByKey_idempotent.
Qed.

(** ** The intersection of the participants *)

(** C6: [findCommonFreeSlots] returns the empty sequence for no participant
    and, for one participant, the slots of that participant as they are. *)
Theorem common_slots_of_none_and_of_one :
  TimeUtils.findCommonFreeSlots [] = []
  /\ forall slots : list IFreeTimeSlot.t, TimeUtils.findCommonFreeSlots [slots] = slots.
Proof. split; [reflexivity|intros slots; reflexivity]. Qed.

(** ** The common slots do not depend on the order of the participants *)

Lemma meet_comm (p q : Z * Z) : meet p q = meet q p.
Proof. unfold meet. f_equal; lia. Qed.

Lemma meet_assoc (p q r : Z * Z) : meet (meet p q) r = meet p (meet q r).
Proof. unfold meet. simpl. f_equal; lia. Qed.

Lemma longEnough_meet_l (p q : Z * Z) : longEnough (meet p q) -> longEnough p.
Proof. unfold longEnough, meet. simpl. lia. Qed.

Lemma overlapOf_eq (slot1 slot2 : IFreeTimeSlot.t) :
  TimeUtils.overlapOf slot1 slot2 =
  let m := meet (bounds slot1) (bounds slot2) in
  if 1800000 <=? snd m - fst m
  then [IFreeTimeSlot.mk (fst m) (snd m) (TimeUtils.minutesBetween (fst m) (snd m))
                         (IFreeTimeSlot.dayOfWeek slot1) true]
  else [].
Proof.
  unfold TimeUtils.overlapOf, meet, bounds. cbn [fst snd].
  set (s := Z.max _ _). set (e := Z.min _ _).
  destruct (TimeUtils.atLeast30 (TimeUtils.minutesBetween s e)) eqn:E.
  - apply atLeast30_iff in E.
    destruct (Z.ltb_spec s e); destruct (Z.leb_spec 1800000 (e - s)); (reflexivity || lia).
  - assert (H : ~ 1800000 <= e - s)
      by (intro H; apply atLeast30_iff in H; congruence).
    destruct (Z.ltb_spec s e); destruct (Z.leb_spec 1800000 (e - s)); (reflexivity || lia).
Qed.

Lemma intersectFreeSlots_In (slots1 slots2 : list IFreeTimeSlot.t) (x : IFreeTimeSlot.t) :
  In x (TimeUtils.intersectFreeSlots slots1 slots2) <->
  exists a b, In a slots1 /\ In b slots2
              /\ longEnough (meet (bounds a) (bounds b))
              /\ bounds x = meet (bounds a) (bounds b)
              /\ span x = spanOf (meet (bounds a) (bounds b))
              /\ IFreeTimeSlot.dayOfWeek x = IFreeTimeSlot.dayOfWeek a
              /\ IFreeTimeSlot.isAvailable x = true.
Proof.
  unfold TimeUtils.intersectFreeSlots. rewrite in_flat_map. split.
  - intros (a & Ha & Hx). apply in_flat_map in Hx as (b & Hb & Hx).
    exists a, b. rewrite overlapOf_eq in Hx. cbv zeta in Hx.
    destruct (Z.leb_spec 1800000
                (snd (meet (bounds a) (bounds b)) - fst (meet (bounds a) (bounds b))))
      as [Hl|Hl]; [|destruct Hx].
    destruct Hx as [<-|[]]. repeat split; auto.
  - intros (a & b & Ha & Hb & Hl & Hbd & Hsp & Hd & Hav).
    exists a. split; [exact Ha|]. apply in_flat_map. exists b. split; [exact Hb|].
    rewrite overlapOf_eq. cbv zeta. unfold longEnough in Hl.
    apply Z.leb_le in Hl. rewrite Hl. left.
    destruct x as [xs xe xd xw xa]. unfold span, spanOf in Hsp. simpl in *.
    injection Hsp as -> -> ->. subst. reflexivity.
Qed.

Lemma left_fold_spans (A B C : list IFreeTimeSlot.t) (iv : Z * Z * Q) :
  In iv (map span (TimeUtils.intersectFreeSlots (TimeUtils.intersectFreeSlots A B) C))
  <-> common3 A B C iv.
Proof.
  rewrite in_map_iff. split.
  - intros (x & <- & Hx).
    apply intersectFreeSlots_In in Hx as (y & c & Hy & Hc & Hl & _ & Hsp & _).
    apply intersectFreeSlots_In in Hy as (a & b & Ha & Hb & _ & Hbd & _).
    rewrite Hbd in Hl, Hsp. exists a, b, c. auto.
  - intros (a & b & c & Ha & Hb & Hc & Hl & ->).
    set (m := meet (bounds a) (bounds b)).
    set (y := IFreeTimeSlot.mk (fst m) (snd m) (TimeUtils.minutesBetween (fst m) (snd m))
                               (IFreeTimeSlot.dayOfWeek a) true).
    assert (Hy : In y (TimeUtils.intersectFreeSlots A B)).
    { apply intersectFreeSlots_In. exists a, b.
      repeat split; auto. apply (longEnough_meet_l _ _ Hl). }
    set (m3 := meet m (bounds c)).
    exists (IFreeTimeSlot.mk (fst m3) (snd m3)
                             (TimeUtils.minutesBetween (fst m3) (snd m3))
                             (IFreeTimeSlot.dayOfWeek y) true).
    split; [reflexivity|].
    apply intersectFreeSlots_In. exists y, c. repeat split; auto.
Qed.

Lemma right_fold_spans (A B C : list IFreeTimeSlot.t) (iv : Z * Z * Q) :
  In iv (map span (TimeUtils.intersectFreeSlots A (TimeUtils.intersectFreeSlots B C)))
  <-> common3 A B C iv.
Proof.
  rewrite in_map_iff. split.
  - intros (x & <- & Hx).
    apply intersectFreeSlots_In in Hx as (a & y & Ha & Hy & Hl & _ & Hsp & _).
    apply intersectFreeSlots_In in Hy as (b & c & Hb & Hc & _ & Hbd & _).
    rewrite Hbd, <- meet_assoc in Hl, Hsp. exists a, b, c. auto.
  - intros (a & b & c & Ha & Hb & Hc & Hl & ->).
    rewrite meet_assoc in *.
    set (m := meet (bounds b) (bounds c)) in *.
    set (y := IFreeTimeSlot.mk (fst m) (snd m) (TimeUtils.minutesBetween (fst m) (snd m))
                               (IFreeTimeSlot.dayOfWeek b) true).
    assert (Hy : In y (TimeUtils.intersectFreeSlots B C)).
    { apply intersectFreeSlots_In. exists b, c.
      repeat split; auto. rewrite meet_comm in Hl. apply (longEnough_meet_l _ _ Hl). }
    set (m3 := meet (bounds a) m).
    exists (IFreeTimeSlot.mk (fst m3) (snd m3)
                             (TimeUtils.minutesBetween (fst m3) (snd m3))
                             (IFreeTimeSlot.dayOfWeek a) true).
    split; [reflexivity|].
    apply intersectFreeSlots_In. exists a, y. repeat split; auto.
Qed.

Lemma common3_swap_first (A B C : list IFreeTimeSlot.t) (iv : Z * Z * Q) :
  common3 A B C iv -> common3 B A C iv.
Proof.
  intros (a & b & c & Ha & Hb & Hc & Hl & ->). exists b, a, c.
  rewrite (meet_comm (bounds b) (bounds a)). auto.
Qed.

Lemma common3_swap_last (A B C : list IFreeTimeSlot.t) (iv : Z * Z * Q) :
  common3 A B C iv -> common3 A C B iv.
Proof.
  intros (a & b & c & Ha & Hb & Hc & Hl & ->). exists a, c, b.
  rewrite meet_assoc, (meet_comm (bounds c) (bounds b)), <- meet_assoc. auto.
Qed.

Lemma common3_orders (A B C X Y Z : list IFreeTimeSlot.t) :
  Permutation [A; B; C] [X; Y; Z] ->
  forall iv, common3 A B C iv <-> common3 X Y Z iv.
Proof.
  intros HP.
  assert (Hcases : [X; Y; Z] = [A; B; C] \/ [X; Y; Z] = [A; C; B]
                   \/ [X; Y; Z] = [B; A; C] \/ [X; Y; Z] = [C; A; B]
                   \/ [X; Y; Z] = [B; C; A] \/ [X; Y; Z] = [C; B; A]).
  { assert (HA : In A [X; Y; Z]) by (eapply Permutation_in; [exact HP|now left]).
    destruct HA as [->|[->|[->|[]]]].
    - apply Permutation_cons_inv, Permutation_length_2_inv in HP.
      destruct HP as [-> | ->]; tauto.
    - assert (HP' : Permutation (A :: [B; C]) (A :: [X; Z]))
        by (rewrite HP; apply perm_swap).
      apply Permutation_cons_inv, Permutation_length_2_inv in HP'.
      destruct HP' as [E|E]; injection E as -> ->; tauto.
    - assert (HP' : Permutation (A :: [B; C]) (A :: [X; Y])).
      { rewrite HP. change [X; Y; A] with ([X; Y] ++ [A]).
        symmetry. apply Permutation_cons_append. }
      apply Permutation_cons_inv, Permutation_length_2_inv in HP'.
      destruct HP' as [E|E]; injection E as -> ->; tauto. }
  intros iv.
  destruct Hcases as [E|[E|[E|[E|[E|E]]]]]; injection E as -> -> ->; split; intros H.
  - exact H.
  - exact H.
  - now apply common3_swap_last.
  - now apply common3_swap_last.
  - now apply common3_swap_first.
  - now apply common3_swap_first.
  - now apply common3_swap_first, common3_swap_last.
  - now apply common3_swap_last, common3_swap_first.
  - now apply common3_swap_last, common3_swap_first.
  - now apply common3_swap_first, common3_swap_last.
  - now apply common3_swap_first, common3_swap_last, common3_swap_first.
  - now apply common3_swap_first, common3_swap_last, common3_swap_first.
Qed.

Lemma intersectFreeSlots_tagged (d : Z) (slots1 slots2 : list IFreeTimeSlot.t) :
  taggedWith d slots1 ->
  Forall (fun x => IFreeTimeSlot.dayOfWeek x = d /\ IFreeTimeSlot.isAvailable x = true)
         (TimeUtils.intersectFreeSlots slots1 slots2).
Proof.
  intros Ht. apply Forall_forall. intros x Hx.
  apply intersectFreeSlots_In in Hx as (a & b & Ha & _ & _ & _ & _ & Hd & Hav).
  unfold taggedWith in Ht. rewrite Forall_forall in Ht.
  split; [rewrite Hd; now apply Ht|exact Hav].
Qed.

(** Slots with the same weekday and the same flag are told apart by their
    spans. *)
Lemma In_by_span (d : Z) (slots : list IFreeTimeSlot.t) (x : IFreeTimeSlot.t) :
  Forall (fun y => IFreeTimeSlot.dayOfWeek y = d /\ IFreeTimeSlot.isAvailable y = true)
         slots ->
  IFreeTimeSlot.dayOfWeek x = d -> IFreeTimeSlot.isAvailable x = true ->
  In (span x) (map span slots) -> In x slots.
Proof.
  intros Hall Hd Ha Hin. apply in_map_iff in Hin as (y & Hsp & Hy).
  rewrite Forall_forall in Hall. destruct (Hall y Hy) as [Hyd Hya].
  replace x with y; [exact Hy|].
  destruct x, y. unfold span in Hsp. simpl in *. injection Hsp as -> -> ->.
  subst. reflexivity.
Qed.

(** C7: for three participants, in whatever order they are handed over,
    [findCommonFreeSlots] returns the same set of common intervals (start,
    end, duration): the spans, of 30 minutes or more, common to one slot of
    each participant; folding from the right gives that set too.  The
    field [dayOfWeek] of a result slot is copied from the slot of the first
    participant and is not part of the interval; when the slots of the
    three participants carry one weekday, the results are the same sets of
    whole records. *)
Theorem common_intervals_independent_of_order
        (A B C : list IFreeTimeSlot.t) (order : list (list IFreeTimeSlot.t)) :
  Permutation [A; B; C] order ->
  sameSpans (TimeUtils.findCommonFreeSlots [A; B; C])
            (TimeUtils.findCommonFreeSlots order)
  /\ (forall iv, In iv (map span (TimeUtils.findCommonFreeSlots order))
                 <-> common3 A B C iv)
  /\ (forall X Y Z, order = [X; Y; Z] ->
        sameSpans (TimeUtils.findCommonFreeSlots [A; B; C])
                  (TimeUtils.intersectFreeSlots X (TimeUtils.intersectFreeSlots Y Z)))
  /\ (forall d, Forall (taggedWith d) [A; B; C] ->
        forall x, In x (TimeUtils.findCommonFreeSlots [A; B; C])
                  <-> In x (TimeUtils.findCommonFreeSlots order)).
Proof.
  intros HP.
  pose proof (Permutation_length HP) as Hlen.
  destruct order as [|X [|Y [|Z [|W order]]]]; try discriminate Hlen.
  pose proof (common3_orders _ _ _ _ _ _ HP) as Hsym.
  assert (Hleft : forall P Q R iv,
             In iv (map span (TimeUtils.findCommonFreeSlots [P; Q; R]))
             <-> common3 P Q R iv) by (intros; apply left_fold_spans).
  assert (Hspans : sameSpans (TimeUtils.findCommonFreeSlots [A; B; C])
                             (TimeUtils.findCommonFreeSlots [X; Y; Z]))
    by (intros iv; rewrite !Hleft; apply Hsym).
  split; [exact Hspans|]. split; [|split].
  - intros iv. rewrite Hleft. symmetry. apply Hsym.
  - intros X' Y' Z' E. injection E as <- <- <-.
    intros iv. rewrite Hleft, right_fold_spans. apply Hsym.
  - intros d Htag x.
    assert (Htag' : Forall (taggedWith d) [X; Y; Z])
      by (eapply Permutation_Forall; [exact HP|exact Htag]).
    assert (TA : taggedWith d A) by (inversion Htag; assumption).
    assert (TX : taggedWith d X) by (inversion Htag'; assumption).
    assert (RA : Forall (fun y => IFreeTimeSlot.dayOfWeek y = d
                                  /\ IFreeTimeSlot.isAvailable y = true)
                        (TimeUtils.findCommonFreeSlots [A; B; C])).
    { apply intersectFreeSlots_tagged. eapply Forall_impl;
        [|apply (intersectFreeSlots_tagged d A B TA)]. intros y Hy. apply Hy. }
    assert (RX : Forall (fun y => IFreeTimeSlot.dayOfWeek y = d
                                  /\ IFreeTimeSlot.isAvailable y = true)
                        (TimeUtils.findCommonFreeSlots [X; Y; Z])).
    { apply intersectFreeSlots_tagged. eapply Forall_impl;
        [|apply (intersectFreeSlots_tagged d X Y TX)]. intros y Hy. apply Hy. }
    split; intros Hx.
    + pose proof (proj1 (Forall_forall _ _) RA x Hx) as [Hd Ha].
      apply (In_by_span d _ x RX Hd Ha). apply Hspans. now apply in_map.
    + pose proof (proj1 (Forall_forall _ _) RX x Hx) as [Hd Ha].
      apply (In_by_span d _ x RA Hd Ha). apply Hspans. now apply in_map.
Qed.

(** The three participants taken in the order B, C, A. *)
Lemma common_intervals_independent_of_order_witness :
  sameSpans (TimeUtils.findCommonFreeSlots [freeA; freeB; freeC])
            (TimeUtils.findCommonFreeSlots [freeB; freeC; freeA])
  /\ (forall iv, In iv (map span (TimeUtils.findCommonFreeSlots [freeB; freeC; freeA]))
                 <-> common3 freeA freeB freeC iv)
  /\ (forall X Y Z, [freeB; freeC; freeA] = [X; Y; Z] ->
        sameSpans (TimeUtils.findCommonFreeSlots [freeA; freeB; freeC])
                  (TimeUtils.intersectFreeSlots X (TimeUtils.intersectFreeSlots Y Z)))
  /\ (forall d, Forall (taggedWith d) [freeA; freeB; freeC] ->
        forall x, In x (TimeUtils.findCommonFreeSlots [freeA; freeB; freeC])
                  <-> In x (TimeUtils.findCommonFreeSlots [freeB; freeC; freeA])).
Proof.
  apply (common_intervals_independent_of_order freeA freeB freeC [freeB; freeC; freeA]).
  change [freeB; freeC; freeA] with ([freeB; freeC] ++ [freeA]).
  apply Permutation_cons_append.
Defined.

(** ** The working window *)

(** C8: every free slot lies within the working window of its day, a
    commitment that sticks out of the window being cut at its bounds.  The
    code breaks this: the loop opens the window at [workingHours.start]
    and closes it at [endOfDay], but it moves the cursor to the end of a
    class and ends a slot at the start of a class wherever these are.  On
    Monday 2024-01-01, with the window 08:00 to 22:00, a class from 06:00
    to 07:00 gives the one slot 07:00 to 22:00, and a class from 22:30 to
    23:00 gives the one slot 08:00 to 22:30. *)
Theorem gaps_leave_the_window :
  ~ gapsWithinWindows 0 [earlyClass] 1704067200000 1704067200000
      TimeUtils.defaultWorkingHours
  /\ fst (TimeUtils.calculateFreeTimeSlots 0 [earlyClass]
            1704067200000 1704067200000 None)
     = [IFreeTimeSlot.mk 1704092400000 1704146400000 900 1 true]
  /\ ~ gapsWithinWindows 0 [eveningClass] 1704067200000 1704067200000
         TimeUtils.defaultWorkingHours
  /\ fst (TimeUtils.calculateFreeTimeSlots 0 [eveningClass]
            1704067200000 1704067200000 None)
     = [IFreeTimeSlot.mk 1704096000000 1704148200000 870 1 true].
Proof.
  assert (Hd : In 1704067200000 (loopDates 1704067200000 1704067200000))
    by (vm_compute; tauto).
  split; [|split; [|split]].
  - intros H. specialize (H _ Hd).
    replace (TimeUtils.sweepDay _ _ _ _)
      with [IFreeTimeSlot.mk 1704092400000 1704146400000 900 1 true] in H
      by (vm_compute; reflexivity).
    inversion H as [|? ? [Hs _] _]; subst. vm_compute in Hs. apply Hs. reflexivity.
  - vm_compute. reflexivity.
  - intros H. specialize (H _ Hd).
    replace (TimeUtils.sweepDay _ _ _ _)
      with [IFreeTimeSlot.mk 1704096000000 1704148200000 870 1 true] in H
      by (vm_compute; reflexivity).
    inversion H as [|? ? [_ He] _]; subst. vm_compute in He. apply He. reflexivity.
  - vm_compute. reflexivity.
Qed.

(** When every entry swept on a day of the loop ends at or after the
    opening of the window of that day and starts at or before its close
    (it may stick out of the window on either side), every slot pushed for
    that day lies within the window. *)
Theorem gaps_within_window_when_entries_reach_it
        (tz : Z) (timetableEntries : list ITimetableEntry.t)
        (startDate endDate : Z) (workingHours : option WorkingHours) :
  (forall currentDate entry,
      In currentDate (loopDates startDate endDate) ->
      In entry timetableEntries ->
      ITimetableEntry.dayOfWeek entry = JsDate.getDay tz currentDate ->
      reachesWindow tz (TimeUtils.hoursOrDefault workingHours) currentDate entry) ->
  gapsWithinWindows tz timetableEntries startDate endDate
    (TimeUtils.hoursOrDefault workingHours)
  /\ Forall (fun slot =>
               exists currentDate,
                 In currentDate (loopDates startDate endDate)
                 /\ withinWindow tz (TimeUtils.hoursOrDefault workingHours)
                      currentDate slot)
            (fst (TimeUtils.calculateFreeTimeSlots tz timetableEntries
                    startDate endDate workingHours)).
Proof.
  intros Hreach.
  assert (Hw : gapsWithinWindows tz timetableEntries startDate endDate
                 (TimeUtils.hoursOrDefault workingHours)).
  { intros d Hd. apply Forall_forall. intros s Hs.
    unfold TimeUtils.sweepDay in Hs. apply findGaps_gapOf in Hs.
    destruct Hs as [Hstart Hend Hlen _ _ _].
    assert (Hin : forall e,
               In e (TimeUtils.dayEntriesOf tz
                       (sortByKey ITimetableEntry.startTime timetableEntries) d) ->
               reachesWindow tz (TimeUtils.hoursOrDefault workingHours) d e).
    { intros e He. apply (sweptOn_iff tz timetableEntries e d) in He as [He1 He2].
      now apply Hreach. }
    unfold withinWindow. split.
    - destruct Hstart as [->|(e & He & ->)]; [lia|]. apply (Hin e He).
    - destruct Hend as [->|(e & He & ->)]; [lia|]. apply (Hin e He). }
  split; [exact Hw|].
  rewrite calculateFreeTimeSlots_days. apply Forall_flat_map, Forall_forall.
  intros d Hd. eapply Forall_impl; [|apply (Hw d Hd)].
  intros s Hs. exists d. split; [exact Hd|exact Hs].
Qed.

(** Both classes of [straddlingClasses] stick out of the window 08:00 to
    22:00. *)
Lemma gaps_within_window_when_entries_reach_it_witness :
  gapsWithinWindows 0 straddlingClasses 1704067200000 1704067200000
    (TimeUtils.hoursOrDefault None)
  /\ Forall (fun slot =>
               exists currentDate,
                 In currentDate (loopDates 1704067200000 1704067200000)
                 /\ withinWindow 0 (TimeUtils.hoursOrDefault None) currentDate slot)
            (fst (TimeUtils.calculateFreeTimeSlots 0 straddlingClasses
                    1704067200000 1704067200000 None)).
Proof.
  apply (gaps_within_window_when_entries_reach_it 0 straddlingClasses
           1704067200000 1704067200000 None).
  intros d e Hd He _. vm_compute in Hd. destruct Hd as [<-|[]].
  destruct He as [<-|[<-|[]]]; split; vm_compute; discriminate.
Defined.

(** * Further properties of the code *)

(** ** Free slots and the entries of the day *)

Lemma findGaps_start_lower (dow : Z) (es : list ITimetableEntry.t) (cur eod low : Z)
      (s : IFreeTimeSlot.t) :
  low <= cur ->
  Forall (fun e => low <= ITimetableEntry.endTime e) es ->
  In s (TimeUtils.findGaps dow es cur eod) ->
  low <= IFreeTimeSlot.startTime s.
Proof.
  intros Hc He Hs. apply findGaps_gapOf in Hs. destruct Hs as [Hstart _ _ _ _ _].
  destruct Hstart as [->|(e & Hin & ->)]; [exact Hc|].
  rewrite Forall_forall in He. now apply He.
Qed.

Lemma findGaps_avoid (dow : Z) (es : list ITimetableEntry.t) (cur eod : Z) :
  StronglySorted (keyLe ITimetableEntry.startTime) es ->
  StronglySorted (keyLe ITimetableEntry.endTime) es ->
  forall s e, In s (TimeUtils.findGaps dow es cur eod) -> In e es ->
              ~ entryOverlapsSlot e s.
Proof.
  intros Hs. revert cur.
  induction Hs as [|e0 es Hs IH Hs0]; intros cur He s e Hin He'; [destruct He'|].
  inversion He as [|? ? He1 He0]; subst.
  simpl in Hin. apply in_app_iff in Hin as [Hin|Hin].
  - apply pushGap_In in Hin as [_ ->]. unfold entryOverlapsSlot. simpl.
    assert (ITimetableEntry.startTime e0 <= ITimetableEntry.startTime e).
    { destruct He' as [<-|He']; [lia|].
      rewrite Forall_forall in Hs0. now apply Hs0. }
    lia.
  - destruct He' as [<-|He'].
    + assert (ITimetableEntry.endTime e0 <= IFreeTimeSlot.startTime s).
      { eapply findGaps_start_lower; [| |exact Hin]; [lia|exact He0]. }
      unfold entryOverlapsSlot. lia.
    + exact (IH _ He1 s e Hin He').
Qed.

Lemma ends_in_order (es : list ITimetableEntry.t) :
  StronglySorted (keyLe ITimetableEntry.startTime) es ->
  Forall properEntry es ->
  (forall a b, In a es -> In b es -> a <> b -> ~ entriesOverlap a b) ->
  StronglySorted (keyLe ITimetableEntry.endTime) es.
Proof.
  induction 1 as [|a es Hs IH Ha]; intros Hp Hn; [constructor|].
  inversion Hp as [|? ? Hpa Hpes]; subst.
  constructor.
  - apply IH; [exact Hpes|]. intros x y Hx Hy. apply Hn; now right.
  - apply Forall_forall. intros b Hb. unfold keyLe.
    destruct (Z_le_gt_dec (ITimetableEntry.endTime a) (ITimetableEntry.endTime b))
      as [Hle|Hgt]; [exact Hle|exfalso].
    rewrite Forall_forall in Ha, Hpes.
    specialize (Ha b Hb). specialize (Hpes b Hb).
    unfold keyLe, properEntry in *.
    apply (Hn a b); [now left|now right| |unfold entriesOverlap; lia].
    intros ->. lia.
Qed.

Lemma sweepDay_avoids_entries
      (tz : Z) (timetableEntries : list ITimetableEntry.t)
      (workingHours : WorkingHours) (currentDate : Z)
      (slot : IFreeTimeSlot.t) (entry : ITimetableEntry.t) :
  Forall properEntry timetableEntries ->
  noDayConflict timetableEntries ->
  In slot (TimeUtils.sweepDay tz (sortByKey ITimetableEntry.startTime timetableEntries)
             workingHours currentDate) ->
  sweptOn tz timetableEntries entry currentDate ->
  ~ entryOverlapsSlot entry slot.
Proof.
  intros Hp Hn Hs He. unfold TimeUtils.sweepDay in Hs. unfold sweptOn in He.
  set (day := TimeUtils.dayEntriesOf tz
                (sortByKey ITimetableEntry.startTime timetableEntries) currentDate) in *.
  assert (Hsub : forall x, In x day ->
                           In x timetableEntries
                           /\ ITimetableEntry.dayOfWeek x = JsDate.getDay tz currentDate)
    by (intros x Hx; now apply (sweptOn_iff tz timetableEntries x currentDate)).
  assert (Hsorted : StronglySorted (keyLe ITimetableEntry.startTime) day)
    by apply filter_sorted, sortByKey_sorted.
  eapply findGaps_avoid; [exact Hsorted| |exact Hs|exact He].
  apply ends_in_order; [exact Hsorted| |].
  - apply Forall_forall. intros x Hx. rewrite Forall_forall in Hp.
    apply Hp, (Hsub x Hx).
  - intros a b Ha Hb Hab. destruct (Hsub a Ha) as [Ha1 Ha2], (Hsub b Hb) as [Hb1 Hb2].
    apply Hn; congruence.
Qed.

(** When the entries end after they start and no two different entries of
    one weekday share an instant, no slot pushed in the round of a day
    shares an instant with an entry swept in that round. *)
Theorem free_slots_avoid_the_entries_of_the_day
        (tz : Z) (timetableEntries : list ITimetableEntry.t)
        (workingHours : WorkingHours) (currentDate : Z)
        (slot : IFreeTimeSlot.t) (entry : ITimetableEntry.t) :
  Forall properEntry timetableEntries ->
  noDayConflict timetableEntries ->
  In slot (TimeUtils.sweepDay tz (sortByKey ITimetableEntry.startTime timetableEntries)
             workingHours currentDate) ->
  sweptOn tz timetableEntries entry currentDate ->
  ~ entryOverlapsSlot entry slot.
Proof.
  apply sweepDay_avoids_entries.
Qed.

Lemma free_slots_avoid_the_entries_of_the_day_witness :
  ~ entryOverlapsSlot
      (ITimetableEntry.mk "c1" "alice" "Algebra" 1704099600000 1704103200000 1 false None)
      (IFreeTimeSlot.mk 1704103200000 1704106800000 60 1 true).
Proof.
  apply (free_slots_avoid_the_entries_of_the_day 0 mondayClasses
           TimeUtils.defaultWorkingHours 1704067200000).
  - repeat constructor; unfold properEntry; simpl; lia.
  - intros a b [<-|[<-|[]]] [<-|[<-|[]]] Hab _; try congruence;
      unfold entriesOverlap; simpl; lia.
  - vm_compute. tauto.
  - apply sweptOn_iff. split; [now left|reflexivity].
Defined.

(** ** An empty timetable, an empty range *)

Lemma setHours_window (tz d a b : Z) :
  JsDate.setHours tz d b 0 0 0 - JsDate.setHours tz d a 0 0 0 = (b - a) * 3600000.
Proof. unfold JsDate.setHours, JsDate.msPerHour, JsDate.msPerMinute. lia. Qed.

(** With no entry, [calculateFreeTimeSlots] returns the working window of
    each day of the loop, in the order of the days, when the window closes
    at a later hour than it opens, and nothing when it does not; each of
    these slots lasts 60 minutes for each hour of the window. *)
Theorem free_slots_of_an_empty_timetable
        (tz startDate endDate : Z) (workingHours : option WorkingHours) :
  let hours := TimeUtils.hoursOrDefault workingHours in
  fst (TimeUtils.calculateFreeTimeSlots tz [] startDate endDate workingHours)
  = (if whStart hours <? whEnd hours
     then map (windowSlot tz hours) (loopDates startDate endDate)
     else [])
  /\ forall currentDate,
      (IFreeTimeSlot.duration (windowSlot tz hours currentDate)
       == inject_Z (60 * (whEnd hours - whStart hours)))%Q.
Proof.
  intros hours. split.
  - rewrite calculateFreeTimeSlots_days. fold hours. clearbody hours. simpl sortByKey.
    assert (Hday : forall d,
               TimeUtils.sweepDay tz [] hours d
               = if whStart hours <? whEnd hours then [windowSlot tz hours d] else []).
    { intros d. unfold TimeUtils.sweepDay, TimeUtils.dayEntriesOf. simpl.
      rewrite pushGap_eq, setHours_window.
      destruct (Z.ltb_spec (whStart hours) (whEnd hours));
        destruct (Z.leb_spec 1800000 ((whEnd hours - whStart hours) * 3600000));
        (reflexivity || lia). }
    induction (loopDates startDate endDate) as [|d ds IH]; simpl.
    + now destruct (_ <? _).
    + rewrite Hday, IH. now destruct (_ <? _).
  - clearbody hours. intros d. unfold windowSlot. cbn [IFreeTimeSlot.duration].
    rewrite minutesBetween_eq, setHours_window.
    unfold Qeq, inject_Z. cbn [Qnum Qden]. lia.
Qed.

(** When [endDate] is before [startDate] the loop over the days has no
    round, and the result is empty whatever the entries are. *)
Theorem free_slots_of_an_empty_range
        (tz : Z) (timetableEntries : list ITimetableEntry.t)
        (startDate endDate : Z) (workingHours : option WorkingHours) :
  endDate < startDate ->
  fst (TimeUtils.calculateFreeTimeSlots tz timetableEntries startDate endDate workingHours)
  = [].
Proof.
  intros H. rewrite calculateFreeTimeSlots_days. unfold loopDates.
  now rewrite dayCount_stop.
Qed.

Lemma free_slots_of_an_empty_range_witness :
  fst (TimeUtils.calculateFreeTimeSlots 0 mondayClasses 1704672000000 1704067200000 None)
  = [].
Proof.
  apply (free_slots_of_an_empty_range 0 mondayClasses 1704672000000 1704067200000 None).
  lia.
Defined.

(** ** Common slots *)

Lemma intersectFreeSlots_nil_r (slots1 : list IFreeTimeSlot.t) :
  TimeUtils.intersectFreeSlots slots1 [] = [].
Proof. induction slots1 as [|a l IH]; [reflexivity|exact IH]. Qed.

Lemma fold_intersect_nil (rest : list (list IFreeTimeSlot.t)) (acc : list IFreeTimeSlot.t) :
  acc = [] \/ In [] rest ->
  fold_left TimeUtils.intersectFreeSlots rest acc = [].
Proof.
  revert acc. induction rest as [|P rest IH]; intros acc H; simpl.
  - destruct H as [H|[]]. exact H.
  - apply IH. destruct H as [->|[->|H]].
    + now left.
    + left. apply intersectFreeSlots_nil_r.
    + now right.
Qed.

(** With two participants or more, one participant without any free slot
    leaves no common slot. *)
Theorem no_common_slot_with_a_busy_participant
        (userFreeSlots : list (list IFreeTimeSlot.t)) :
  (2 <= List.length userFreeSlots)%nat ->
  In [] userFreeSlots ->
  TimeUtils.findCommonFreeSlots userFreeSlots = [].
Proof.
  intros Hlen Hin.
  destruct userFreeSlots as [|first [|second others]]; simpl in Hlen; try lia.
  unfold TimeUtils.findCommonFreeSlots. apply fold_intersect_nil.
  destruct Hin as [->|Hin]; [now left|now right].
Qed.

Lemma no_common_slot_with_a_busy_participant_witness :
  TimeUtils.findCommonFreeSlots [freeA; []; freeC] = [].
Proof.
  apply (no_common_slot_with_a_busy_participant [freeA; []; freeC]).
  - simpl. lia.
  - simpl. tauto.
Defined.

Lemma slotWithin_trans (a b c : IFreeTimeSlot.t) :
  slotWithin a b -> slotWithin b c -> slotWithin a c.
Proof. unfold slotWithin. lia. Qed.

Lemma intersectFreeSlots_within (slots1 slots2 : list IFreeTimeSlot.t) (x : IFreeTimeSlot.t) :
  In x (TimeUtils.intersectFreeSlots slots1 slots2) ->
  (exists a, In a slots1 /\ slotWithin x a) /\ (exists b, In b slots2 /\ slotWithin x b).
Proof.
  intros Hx. apply intersectFreeSlots_In in Hx as (a & b & Ha & Hb & _ & Hbd & _).
  unfold bounds, meet in Hbd. simpl in Hbd. injection Hbd as Hs He.
  split; [exists a|exists b]; (split; [assumption|unfold slotWithin; lia]).
Qed.

Lemma fold_intersect_within (rest : list (list IFreeTimeSlot.t))
      (acc : list IFreeTimeSlot.t) (s : IFreeTimeSlot.t) :
  In s (fold_left TimeUtils.intersectFreeSlots rest acc) ->
  (exists a, In a acc /\ slotWithin s a)
  /\ forall P, In P rest -> exists p, In p P /\ slotWithin s p.
Proof.
  revert acc. induction rest as [|P0 rest IH]; intros acc Hs; simpl in Hs.
  - split; [|intros P []]. exists s. split; [exact Hs|unfold slotWithin; lia].
  - destruct (IH _ Hs) as [(x & Hx & Hsx) Hrest].
    apply intersectFreeSlots_within in Hx as [(a & Ha & Hxa) (b & Hb & Hxb)].
    split.
    + exists a. split; [exact Ha|]. eapply slotWithin_trans; eassumption.
    + intros P [<-|HP]; [|now apply Hrest].
      exists b. split; [exact Hb|]. eapply slotWithin_trans; eassumption.
Qed.

Lemma findCommonFreeSlots_within
      (userFreeSlots : list (list IFreeTimeSlot.t))
      (slot : IFreeTimeSlot.t) (participant : list IFreeTimeSlot.t) :
  In slot (TimeUtils.findCommonFreeSlots userFreeSlots) ->
  In participant userFreeSlots ->
  exists own, In own participant /\ slotWithin slot own.
Proof.
  intros Hs HP. destruct userFreeSlots as [|first [|second others]].
  - destruct HP.
  - destruct HP as [<-|[]]. exists slot. split; [exact Hs|unfold slotWithin; lia].
  - unfold TimeUtils.findCommonFreeSlots in Hs.
    apply fold_intersect_within in Hs as [(a & Ha & Hsa) Hrest].
    destruct HP as [<-|HP]; [exists a; now split|now apply Hrest].
Qed.

(** Every slot returned by [findCommonFreeSlots] lies within a free slot of
    each participant. *)
Theorem common_slot_within_a_slot_of_each_participant
        (userFreeSlots : list (list IFreeTimeSlot.t))
        (slot : IFreeTimeSlot.t) (participant : list IFreeTimeSlot.t) :
  In slot (TimeUtils.findCommonFreeSlots userFreeSlots) ->
  In participant userFreeSlots ->
  exists own, In own participant /\ slotWithin slot own.
Proof.
  apply findCommonFreeSlots_within.
Qed.

Lemma common_slot_within_a_slot_of_each_participant_witness :
  exists own, In own freeC
              /\ slotWithin (IFreeTimeSlot.mk 1704103200000 1704110400000 120 1 true) own.
Proof.
  apply (common_slot_within_a_slot_of_each_participant [freeA; freeB; freeC]).
  - vm_compute. tauto.
  - simpl. tauto.
Defined.

Lemma flat_map_nil_in {A B : Type} (f : A -> list B) (l : list A) :
  (forall x, In x l -> f x = []) -> flat_map f l = [].
Proof.
  induction l as [|a l IH]; intros H; simpl; [reflexivity|].
  rewrite (H a) by now left. apply IH. intros x Hx. apply H. now right.
Qed.

Lemma flat_map_ext_in {A B : Type} (f g : A -> list B) (l : list A) :
  (forall x, In x l -> f x = g x) -> flat_map f l = flat_map g l.
Proof.
  induction l as [|a l IH]; intros H; simpl; [reflexivity|].
  rewrite (H a) by now left. f_equal. apply IH. intros x Hx. apply H. now right.
Qed.

Lemma overlapOf_self (a : IFreeTimeSlot.t) :
  gapShaped a -> TimeUtils.overlapOf a a = [a].
Proof.
  intros (Hlen & Hdur & Hav). rewrite overlapOf_eq. unfold meet, bounds. cbn [fst snd].
  rewrite Z.max_id, Z.min_id. apply Z.leb_le in Hlen. rewrite Hlen.
  destruct a as [s e d w av]. simpl in *. subst. reflexivity.
Qed.

Lemma overlapOf_apart (a b : IFreeTimeSlot.t) :
  slotBefore a b -> TimeUtils.overlapOf a b = [] /\ TimeUtils.overlapOf b a = [].
Proof.
  intros H. unfold slotBefore in H. rewrite !overlapOf_eq. unfold meet, bounds.
  cbn [fst snd]. split.
  - destruct (Z.leb_spec 1800000
                (Z.min (IFreeTimeSlot.endTime a) (IFreeTimeSlot.endTime b)
                 - Z.max (IFreeTimeSlot.startTime a) (IFreeTimeSlot.startTime b)));
      [lia|reflexivity].
  - destruct (Z.leb_spec 1800000
                (Z.min (IFreeTimeSlot.endTime b) (IFreeTimeSlot.endTime a)
                 - Z.max (IFreeTimeSlot.startTime b) (IFreeTimeSlot.startTime a)));
      [lia|reflexivity].
Qed.

Lemma intersectFreeSlots_self (slots : list IFreeTimeSlot.t) :
  ForallOrdPairs slotBefore slots -> Forall gapShaped slots ->
  TimeUtils.intersectFreeSlots slots slots = slots.
Proof.
  induction 1 as [|a l Ha Hl IH]; intros Hg; [reflexivity|].
  inversion Hg as [|? ? Hga Hgl]; subst.
  rewrite Forall_forall in Ha.
  unfold TimeUtils.intersectFreeSlots in *. simpl.
  rewrite (overlapOf_self a Hga).
  rewrite (flat_map_nil_in (fun slot2 => TimeUtils.overlapOf a slot2) l)
    by (intros x Hx; apply (overlapOf_apart a x), Ha, Hx).
  simpl. f_equal.
  rewrite <- (IH Hgl) at 2. apply flat_map_ext_in. intros x Hx.
  now rewrite (proj2 (overlapOf_apart a x (Ha x Hx))).
Qed.

(** Two participants with the same entries: the common slots of the round
    of a day are the slots of that round, as they are. *)
Theorem common_slots_of_a_day_with_oneself
        (tz : Z) (timetableEntries : list ITimetableEntry.t)
        (workingHours : WorkingHours) (currentDate : Z) :
  Forall wellFormed timetableEntries ->
  let slots := TimeUtils.sweepDay tz
                 (sortByKey ITimetableEntry.startTime timetableEntries)
                 workingHours currentDate in
  TimeUtils.findCommonFreeSlots [slots; slots] = slots.
Proof.
  intros Hwf slots. simpl. apply intersectFreeSlots_self.
  - unfold slots, TimeUtils.sweepDay, TimeUtils.dayEntriesOf. apply findGaps_ordered.
    + apply filter_sorted, sortByKey_sorted.
    + apply Forall_forall. intros e He. apply filter_In in He as [He _].
      rewrite Forall_forall in Hwf. apply Hwf.
      eapply Permutation_in; [apply sortByKey_perm|exact He].
  - apply Forall_forall. intros s Hs. unfold slots, TimeUtils.sweepDay in Hs.
    apply findGaps_gapOf in Hs. destruct Hs as [_ _ Hlen Hdur _ Hav].
    repeat split; assumption.
Qed.

Lemma common_slots_of_a_day_with_oneself_witness :
  let slots := TimeUtils.sweepDay 0
                 (sortByKey ITimetableEntry.startTime mondayClasses)
                 TimeUtils.defaultWorkingHours 1704067200000 in
  TimeUtils.findCommonFreeSlots [slots; slots] = slots.
Proof.
  apply (common_slots_of_a_day_with_oneself 0 mondayClasses
           TimeUtils.defaultWorkingHours 1704067200000).
  repeat constructor; unfold wellFormed; simpl; lia.
Defined.

(** ** [ArrayUtils.chunk] *)

Section ChunkFacts.
Context {T : Type}.

Lemma slice_window (array : list T) (i size : Z) :
  0 <= i -> 1 <= size -> i < Z.of_nat (List.length array) ->
  ArrayUtils.slice array i (i + size)
  = firstn (Z.to_nat size) (skipn (Z.to_nat i) array).
Proof.
  intros Hi Hs Hlt. unfold ArrayUtils.slice, ArrayUtils.relativeIndex.
  destruct (Z.ltb_spec i 0); [lia|]. destruct (Z.ltb_spec (i + size) 0); [lia|].
  rewrite (Z.min_l i) by lia.
  destruct (Z_le_gt_dec (i + size) (Z.of_nat (List.length array))) as [Hle|Hgt].
  - rewrite Z.min_l by lia. f_equal. lia.
  - rewrite Z.min_r by lia.
    rewrite !firstn_all2; [reflexivity| |]; rewrite length_skipn; lia.
Qed.

Lemma chunksFilled_concat (size : Z) (chunks : list (list T)) :
  1 <= size -> chunksFilled size chunks -> chunks <> [] -> List.concat chunks <> [].
Proof.
  intros Hs Hf Hne. destruct chunks as [|c rest]; [congruence|].
  assert (Hc : 1 <= Z.of_nat (List.length c)).
  { destruct rest; simpl in Hf; lia. }
  destruct c; simpl in *; [lia|discriminate].
Qed.

Lemma chunkFrom_spec (array : list T) (size : Z) :
  1 <= size ->
  forall (fuel : nat) (i : Z),
    0 <= i ->
    Z.max (Z.of_nat (List.length array) - i) 0 < Z.of_nat fuel ->
    exists chunks,
      ArrayUtils.chunkFrom fuel array size i = Some chunks
      /\ List.concat chunks = skipn (Z.to_nat i) array
      /\ chunksFilled size chunks
      /\ Z.of_nat (List.length chunks)
         = (Z.max (Z.of_nat (List.length array) - i) 0 + size - 1) / size.
Proof.
  intros Hs. induction fuel as [|fuel IH]; intros i Hi Hfuel; [lia|].
  simpl. destruct (Z.ltb_spec i (Z.of_nat (List.length array))) as [Hlt|Hge].
  - destruct (IH (i + size)) as (chunks & -> & Hcat & Hfill & Hcount); [lia|lia|].
    eexists. split; [reflexivity|].
    rewrite (slice_window array i size Hi Hs Hlt).
    assert (Hskip : skipn (Z.to_nat (i + size)) array
                    = skipn (Z.to_nat size) (skipn (Z.to_nat i) array)).
    { rewrite skipn_skipn. f_equal. lia. }
    split; [|split].
    + simpl. rewrite Hcat, Hskip. apply firstn_skipn.
    + assert (Hlen : List.length (firstn (Z.to_nat size) (skipn (Z.to_nat i) array))
                     = Z.to_nat (Z.min size (Z.of_nat (List.length array) - i))).
      { rewrite length_firstn, length_skipn. lia. }
      destruct chunks as [|c rest].
      * simpl. rewrite Hlen. lia.
      * split; [|exact Hfill].
        assert (Hne : List.concat (c :: rest) <> [])
          by (apply (chunksFilled_concat size); [exact Hs|exact Hfill|discriminate]).
        rewrite Hcat in Hne.
        assert (Z.to_nat (i + size) < List.length array)%nat.
        { destruct (Nat.lt_ge_cases (Z.to_nat (i + size)) (List.length array))
            as [Hl|Hg]; [exact Hl|].
          exfalso. apply Hne. now apply skipn_all2. }
        rewrite Hlen. lia.
    + simpl List.length. rewrite Nat2Z.inj_succ, Hcount.
      rewrite (Z.max_l (Z.of_nat (List.length array) - i) 0) by lia.
      destruct (Z_le_gt_dec 0 (Z.of_nat (List.length array) - (i + size))) as [Hle|Hgt].
      * rewrite Z.max_l by lia.
        replace (Z.of_nat (List.length array) - i + size - 1)
          with (Z.of_nat (List.length array) - (i + size) + size - 1 + 1 * size) by lia.
        rewrite Z.div_add by lia. lia.
      * rewrite Z.max_r by lia.
        rewrite (Z.div_small (0 + size - 1) size) by lia.
        apply Z.div_unique with (r := Z.of_nat (List.length array) - i - 1); lia.
  - exists []. split; [reflexivity|]. split; [|split].
    + simpl. symmetry. apply skipn_all2. lia.
    + exact I.
    + rewrite Z.max_r by lia. simpl. symmetry. apply Z.div_small. lia.
Qed.

(** For a size of 1 or more [chunk] returns: the chunks put end to end are
    the array, every chunk but the last holds [size] elements and the last
    holds from 1 to [size], there are [ceil (length / size)] chunks, and
    more rounds than needed change nothing. *)
Theorem chunk_splits_the_array (array : list T) (size : Z) :
  1 <= size ->
  exists chunks,
    ArrayUtils.chunk array size = Some chunks
    /\ List.concat chunks = array
    /\ chunksFilled size chunks
    /\ Z.of_nat (List.length chunks)
       = (Z.of_nat (List.length array) + size - 1) / size
    /\ forall fuel, (List.length array < fuel)%nat ->
                    ArrayUtils.chunkFrom fuel array size 0 = Some chunks.
Proof.
  intros Hs.
  destruct (chunkFrom_spec array size Hs (S (List.length array)) 0)
    as (chunks & Hrun & Hcat & Hfill & Hcount); [lia|lia|].
  exists chunks. split; [exact Hrun|]. split; [exact Hcat|]. split; [exact Hfill|].
  split.
  - rewrite Hcount. f_equal. lia.
  - intros fuel Hfuel.
    destruct (chunkFrom_spec array size Hs fuel 0)
      as (chunks' & Hrun' & Hcat' & Hfill' & Hcount'); [lia|lia|].
    rewrite Hrun'. f_equal. clear Hrun Hrun' Hcount Hcount'.
    (* two lists of filled chunks with the same concatenation are equal *)
    simpl in Hcat, Hcat'. rewrite <- Hcat' in Hcat. clear Hcat'.
    revert chunks Hfill Hcat. induction chunks' as [|c' rest' IH]; intros chunks Hfill Hcat.
    + destruct chunks as [|c rest]; [reflexivity|].
      exfalso. apply (chunksFilled_concat size (c :: rest) Hs Hfill); [discriminate|exact Hcat].
    + destruct chunks as [|c rest].
      * exfalso. apply (chunksFilled_concat size (c' :: rest') Hs Hfill');
          [discriminate|now symmetry].
      * simpl in Hcat.
        assert (Hcc : c = c' /\ List.concat rest = List.concat rest').
        { destruct rest as [|r rest], rest' as [|r' rest''].
          - simpl in Hcat. rewrite !app_nil_r in Hcat. now split.
          - simpl in Hfill, Hfill'. destruct Hfill' as [Hl' Hf'].
            assert (Hn : List.concat (r' :: rest'') <> [])
              by (apply (chunksFilled_concat size); [exact Hs|exact Hf'|discriminate]).
            change (List.concat []) with (@nil T) in Hcat. rewrite app_nil_r in Hcat.
            apply (f_equal (@List.length T)) in Hcat. rewrite length_app in Hcat.
            destruct (List.concat (r' :: rest'')); [congruence|simpl in Hcat; lia].
          - simpl in Hfill, Hfill'. destruct Hfill as [Hl Hf].
            assert (Hn : List.concat (r :: rest) <> [])
              by (apply (chunksFilled_concat size); [exact Hs|exact Hf|discriminate]).
            change (List.concat []) with (@nil T) in Hcat. rewrite app_nil_r in Hcat.
            apply (f_equal (@List.length T)) in Hcat. rewrite length_app in Hcat.
            destruct (List.concat (r :: rest)); [congruence|simpl in Hcat; lia].
          - simpl in Hfill, Hfill'. destruct Hfill as [Hl _], Hfill' as [Hl' _].
            apply app_eq_app in Hcat as (l & [[-> E]|[-> E]]).
            + rewrite length_app in Hl. assert (l = []) by (destruct l; [reflexivity|simpl in Hl; lia]).
              subst l. rewrite app_nil_r. simpl in E. now split.
            + rewrite length_app in Hl'. assert (l = []) by (destruct l; [reflexivity|simpl in Hl'; lia]).
              subst l. rewrite app_nil_r. simpl in E. now split. }
        destruct Hcc as [-> Hrest]. f_equal. apply IH.
        -- destruct rest'; [exact I|apply Hfill'].
        -- destruct rest; [exact I|apply Hfill].
        -- exact Hrest.
Qed.

(** With a size of 0 or less, the loop of [chunk] never ends on an array
    that holds an element: whatever the number of rounds, it has not
    returned.  An empty array is returned as no chunk for every size. *)
Theorem chunk_does_not_end_for_size_zero (array : list T) (size : Z) :
  array <> [] -> size <= 0 ->
  (forall fuel, ArrayUtils.chunkFrom fuel array size 0 = None)
  /\ ArrayUtils.chunk (@nil T) size = Some [].
Proof.
  intros Hne Hs. split; [|reflexivity].
  assert (Hlen : 0 < Z.of_nat (List.length array))
    by (destruct array; [congruence|simpl; lia]).
  assert (H : forall fuel i, i <= 0 -> ArrayUtils.chunkFrom fuel array size i = None).
  { induction fuel as [|fuel IH]; intros i Hi; [reflexivity|]. simpl.
    destruct (Z.ltb_spec i (Z.of_nat (List.length array))); [|lia].
    rewrite IH by lia. reflexivity. }
  intros fuel. apply H. lia.
Qed.
End ChunkFacts.

Lemma chunk_splits_the_array_witness :
  exists chunks,
    ArrayUtils.chunk [1; 2; 3; 4; 5] 2 = Some chunks
    /\ List.concat chunks = [1; 2; 3; 4; 5]
    /\ chunksFilled 2 chunks
    /\ Z.of_nat (List.length chunks) = (Z.of_nat (List.length [1; 2; 3; 4; 5]) + 2 - 1) / 2
    /\ forall fuel, (List.length [1; 2; 3; 4; 5] < fuel)%nat ->
                    ArrayUtils.chunkFrom fuel [1; 2; 3; 4; 5] 2 0 = Some chunks.
Proof. apply (chunk_splits_the_array [1; 2; 3; 4; 5] 2). lia. Defined.

Lemma chunk_does_not_end_for_size_zero_witness :
  (forall fuel, ArrayUtils.chunkFrom fuel [1; 2; 3] 0 0 = None)
  /\ ArrayUtils.chunk (@nil Z) 0 = Some [].
Proof.
  apply (chunk_does_not_end_for_size_zero [1; 2; 3] 0); [discriminate|lia].
Defined.

(** ** [ArrayUtils.unique], [intersection] and [difference] *)

Section SetFacts.
Context {T : Type} (sameValueZero : T -> T -> bool).
Hypothesis sameValueZero_eq : forall x y, sameValueZero x y = true <-> x = y.

Lemma includes_In (array : list T) (value : T) :
  ArrayUtils.includes sameValueZero array value = true <-> In value array.
Proof.
  unfold ArrayUtils.includes. rewrite existsb_exists. split.
  - intros (x & Hx & E). apply sameValueZero_eq in E. now subst.
  - intros H. exists value. split; [exact H|]. now apply sameValueZero_eq.
Qed.

Lemma filter_filter_and (f g : T -> bool) (l : list T) :
  filter f (filter g l) = filter (fun z => g z && f z) l.
Proof.
  induction l as [|x l IH]; simpl; [reflexivity|].
  destruct (g x); simpl; [destruct (f x)|]; now rewrite IH.
Qed.

Lemma includes_app (a b : list T) (v : T) :
  ArrayUtils.includes sameValueZero (a ++ b) v
  = ArrayUtils.includes sameValueZero a v || ArrayUtils.includes sameValueZero b v.
Proof. unfold ArrayUtils.includes. apply existsb_app. Qed.

Lemma fold_setAdd (l acc : list T) :
  fold_left (ArrayUtils.setAdd sameValueZero) l acc
  = acc ++ filter (fun y => negb (ArrayUtils.includes sameValueZero acc y))
                  (ArrayUtils.unique sameValueZero l).
Proof.
  revert acc. induction l as [|y l IH]; intros acc.
  - simpl. now rewrite app_nil_r.
  - unfold ArrayUtils.unique. simpl fold_left.
    rewrite (IH (ArrayUtils.setAdd sameValueZero [] y)), (IH (ArrayUtils.setAdd sameValueZero acc y)).
    unfold ArrayUtils.setAdd at 2 3. simpl ArrayUtils.includes at 2. cbn iota.
    rewrite app_nil_l.
    unfold ArrayUtils.setAdd.
    destruct (ArrayUtils.includes sameValueZero acc y) eqn:E.
    + f_equal. simpl filter at 2. rewrite E. simpl negb. cbn iota.
      rewrite filter_filter_and. apply filter_ext_in. intros z _.
      destruct (ArrayUtils.includes sameValueZero acc z) eqn:Ez; simpl;
        [now rewrite andb_false_r|].
      rewrite andb_true_r. unfold ArrayUtils.includes. simpl. rewrite orb_false_r.
      destruct (sameValueZero y z) eqn:Eyz; [|reflexivity].
      apply sameValueZero_eq in Eyz. subst. congruence.
    + rewrite <- app_assoc. f_equal. simpl app. simpl filter at 2. rewrite E. simpl negb.
      cbn iota. f_equal.
      rewrite filter_filter_and. apply filter_ext. intros z.
      rewrite includes_app, negb_orb. apply andb_comm.
Qed.

Lemma unique_cons (x : T) (l : list T) :
  ArrayUtils.unique sameValueZero (x :: l)
  = x :: filter (fun y => negb (sameValueZero x y)) (ArrayUtils.unique sameValueZero l).
Proof.
  unfold ArrayUtils.unique at 1. simpl fold_left. rewrite fold_setAdd.
  unfold ArrayUtils.setAdd. simpl. f_equal. apply filter_ext. intros z.
  now rewrite orb_false_r.
Qed.

Lemma differs_iff (x y : T) : negb (sameValueZero x y) = true <-> x <> y.
Proof.
  rewrite negb_true_iff. split.
  - intros E H. apply sameValueZero_eq in H. congruence.
  - intros H. destruct (sameValueZero x y) eqn:E; [|reflexivity].
    apply sameValueZero_eq in E. contradiction.
Qed.

Lemma unique_In (l : list T) (v : T) :
  In v (ArrayUtils.unique sameValueZero l) <-> In v l.
Proof.
  induction l as [|x l IH]; [reflexivity|].
  rewrite unique_cons. simpl. rewrite filter_In, IH, differs_iff.
  split; [tauto|]. intros [->|H]; [now left|].
  destruct (sameValueZero x v) eqn:E.
  - left. now apply sameValueZero_eq.
  - right. split; [exact H|]. intros ->.
    assert (sameValueZero v v = true) by now apply sameValueZero_eq. congruence.
Qed.

Lemma unique_NoDup (l : list T) : NoDup (ArrayUtils.unique sameValueZero l).
Proof.
  induction l as [|x l IH]; [constructor|].
  rewrite unique_cons. constructor.
  - rewrite filter_In, differs_iff. tauto.
  - now apply NoDup_filter.
Qed.

Lemma unique_fixed (l : list T) :
  NoDup l -> ArrayUtils.unique sameValueZero l = l.
Proof.
  induction 1 as [|x l Hx Hl IH]; [reflexivity|].
  rewrite unique_cons, IH. f_equal.
  apply forallb_filter_id, forallb_forall. intros y Hy.
  apply differs_iff. intros ->. contradiction.
Qed.

(** [unique] keeps the first occurrence of every value, in the order of
    the array: the result has no value twice, it holds the values of the
    array and no other, an array without repetition is returned as it is,
    and [unique] applied twice is [unique]. *)
Theorem unique_keeps_first_occurrences (array : list T) :
  NoDup (ArrayUtils.unique sameValueZero array)
  /\ (forall value, In value (ArrayUtils.unique sameValueZero array) <-> In value array)
  /\ (forall first rest,
         array = first :: rest ->
         ArrayUtils.unique sameValueZero array
         = first :: filter (fun y => negb (sameValueZero first y))
                           (ArrayUtils.unique sameValueZero rest))
  /\ (NoDup array -> ArrayUtils.unique sameValueZero array = array)
  /\ ArrayUtils.unique sameValueZero (ArrayUtils.unique sameValueZero array)
     = ArrayUtils.unique sameValueZero array.
Proof.
  split; [apply unique_NoDup|]. split; [apply unique_In|].
  split; [intros first rest ->; apply unique_cons|].
  split; [apply unique_fixed|]. apply unique_fixed, unique_NoDup.
Qed.

Lemma filter_split (f : T -> bool) (l : list T) :
  Permutation (filter f l ++ filter (fun x => negb (f x)) l) l.
Proof.
  induction l as [|x l IH]; simpl; [constructor|].
  destruct (f x); simpl.
  - now constructor.
  - rewrite <- Permutation_middle. now constructor.
Qed.

Lemma filter_interleaved (f : T -> bool) (l : list T) :
  interleaved (filter f l) (filter (fun x => negb (f x)) l) l.
Proof.
  induction l as [|x l IH]; simpl; [constructor|].
  destruct (f x); simpl; now constructor.
Qed.

(** [intersection] keeps the elements of the first array that the second
    holds, [difference] those that it does not hold; both keep the order
    and the repetitions of the first array, which is the two results
    shuffled together, each in its order, so that together they hold each
    of its elements once.  An array has itself as intersection with itself
    and nothing as difference. *)
Theorem intersection_and_difference_split (arr1 arr2 : list T) :
  (forall value, In value (ArrayUtils.intersection sameValueZero arr1 arr2)
                 <-> In value arr1 /\ In value arr2)
  /\ (forall value, In value (ArrayUtils.difference sameValueZero arr1 arr2)
                    <-> In value arr1 /\ ~ In value arr2)
  /\ interleaved (ArrayUtils.intersection sameValueZero arr1 arr2)
                 (ArrayUtils.difference sameValueZero arr1 arr2) arr1
  /\ Permutation (ArrayUtils.intersection sameValueZero arr1 arr2
                  ++ ArrayUtils.difference sameValueZero arr1 arr2) arr1
  /\ ArrayUtils.intersection sameValueZero arr1 arr1 = arr1
  /\ ArrayUtils.difference sameValueZero arr1 arr1 = [].
Proof.
  unfold ArrayUtils.intersection, ArrayUtils.difference.
  split; [|split; [|split; [|split; [|split]]]]; [| |apply filter_interleaved| | |].
  - intros v. now rewrite filter_In, includes_In.
  - intros v. rewrite filter_In, negb_true_iff. split.
    + intros [H1 H2]. split; [exact H1|]. intros H. apply includes_In in H. congruence.
    + intros [H1 H2]. split; [exact H1|].
      destruct (ArrayUtils.includes sameValueZero arr2 v) eqn:E; [|reflexivity].
      apply includes_In in E. contradiction.
  - apply filter_split.
  - apply forallb_filter_id, forallb_forall. intros v Hv. now apply includes_In.
  - destruct (filter _ arr1) as [|x l] eqn:E; [reflexivity|].
    assert (H : In x (x :: l)) by now left.
    rewrite <- E in H. apply filter_In in H as [H1 H2].
    apply negb_true_iff in H2. apply includes_In in H1. congruence.
Qed.
End SetFacts.

Lemma unique_keeps_first_occurrences_witness :
  NoDup (ArrayUtils.unique Z.eqb [3; 1; 3; 2; 1])
  /\ (forall value, In value (ArrayUtils.unique Z.eqb [3; 1; 3; 2; 1])
                     <-> In value [3; 1; 3; 2; 1])
  /\ (forall first rest,
         [3; 1; 3; 2; 1] = first :: rest ->
         ArrayUtils.unique Z.eqb [3; 1; 3; 2; 1]
         = first :: filter (fun y => negb (Z.eqb first y)) (ArrayUtils.unique Z.eqb rest))
  /\ (NoDup [3; 1; 3; 2; 1] -> ArrayUtils.unique Z.eqb [3; 1; 3; 2; 1] = [3; 1; 3; 2; 1])
  /\ ArrayUtils.unique Z.eqb (ArrayUtils.unique Z.eqb [3; 1; 3; 2; 1])
     = ArrayUtils.unique Z.eqb [3; 1; 3; 2; 1].
Proof. apply (unique_keeps_first_occurrences Z.eqb Z.eqb_eq [3; 1; 3; 2; 1]). Defined.

Lemma intersection_and_difference_split_witness :
  (forall value, In value (ArrayUtils.intersection Z.eqb [1; 2; 2; 3] [2; 4])
                 <-> In value [1; 2; 2; 3] /\ In value [2; 4])
  /\ (forall value, In value (ArrayUtils.difference Z.eqb [1; 2; 2; 3] [2; 4])
                    <-> In value [1; 2; 2; 3] /\ ~ In value [2; 4])
  /\ interleaved (ArrayUtils.intersection Z.eqb [1; 2; 2; 3] [2; 4])
                 (ArrayUtils.difference Z.eqb [1; 2; 2; 3] [2; 4]) [1; 2; 2; 3]
  /\ Permutation (ArrayUtils.intersection Z.eqb [1; 2; 2; 3] [2; 4]
                  ++ ArrayUtils.difference Z.eqb [1; 2; 2; 3] [2; 4]) [1; 2; 2; 3]
  /\ ArrayUtils.intersection Z.eqb [1; 2; 2; 3] [1; 2; 2; 3] = [1; 2; 2; 3]
  /\ ArrayUtils.difference Z.eqb [1; 2; 2; 3] [1; 2; 2; 3] = [].
Proof. apply (intersection_and_difference_split Z.eqb Z.eqb_eq [1; 2; 2; 3] [2; 4]). Defined.

(** ** [CacheUtils] *)

Section CacheFacts.
Context {T : Type}.
Implicit Types (c : @CacheUtils.cache T) (key other : string).

Lemma mapGet_mapSet_same c key (v : @CacheUtils.item T) :
  CacheUtils.mapGet (CacheUtils.mapSet c key v) key = Some v.
Proof.
  induction c as [|[k x] c IH]; simpl.
  - now rewrite String.eqb_refl.
  - destruct (String.eqb k key) eqn:E; simpl; rewrite E; [reflexivity|exact IH].
Qed.

Lemma mapGet_mapSet_other c key other (v : @CacheUtils.item T) :
  other <> key ->
  CacheUtils.mapGet (CacheUtils.mapSet c key v) other = CacheUtils.mapGet c other.
Proof.
  intros Hne. induction c as [|[k x] c IH]; simpl.
  - destruct (String.eqb_spec key other); [congruence|reflexivity].
  - destruct (String.eqb_spec k key) as [->|Hk]; simpl.
    + destruct (String.eqb_spec key other); [congruence|reflexivity].
    + now rewrite IH.
Qed.

Lemma mapGet_mapDelete_same c key :
  CacheUtils.mapGet (CacheUtils.mapDelete c key) key = None.
Proof.
  unfold CacheUtils.mapDelete. induction c as [|[k x] c IH]; simpl; [reflexivity|].
  destruct (String.eqb k key) eqn:E; simpl; [exact IH|]. now rewrite E.
Qed.

Lemma mapGet_mapDelete_other c key other :
  other <> key ->
  CacheUtils.mapGet (CacheUtils.mapDelete c key) other = CacheUtils.mapGet c other.
Proof.
  intros Hne. unfold CacheUtils.mapDelete.
  induction c as [|[k x] c IH]; simpl; [reflexivity|].
  destruct (String.eqb_spec k key) as [->|Hk]; simpl.
  - destruct (String.eqb_spec key other); [congruence|exact IH].
  - now rewrite IH.
Qed.

Lemma mapSet_keys c key (v : @CacheUtils.item T) :
  map fst (CacheUtils.mapSet c key v)
  = if CacheUtils.mapHas c key then map fst c else map fst c ++ [key].
Proof.
  unfold CacheUtils.mapHas. induction c as [|[k x] c IH]; simpl; [reflexivity|].
  destruct (String.eqb k key) eqn:E; simpl; [reflexivity|].
  rewrite IH. now destruct (CacheUtils.mapGet c key).
Qed.

Lemma mapGet_None_keys c key :
  CacheUtils.mapGet c key = None -> ~ In key (map fst c).
Proof.
  induction c as [|[k x] c IH]; simpl; [tauto|].
  destruct (String.eqb_spec k key); [discriminate|]. intros H [E|Hin]; [congruence|].
  now apply IH.
Qed.

(** A value that was stored is returned by [get] up to its time of expiry,
    that instant included, and the cache is not touched by the read.  After
    that instant [get] returns [null] and removes the key: every later
    [get], at whatever time, returns [null], and [delete] returns false. *)
Theorem cached_value_read_until_expiry
        (now later : Z) c key (d : T) (ttlMs : option Z) :
  let ttl := match ttlMs with Some t => t | None => 300000 end in
  let stored := CacheUtils.set now c key d ttlMs in
  (later <= now + ttl -> CacheUtils.get later stored key = (Some d, stored))
  /\ (now + ttl < later ->
      fst (CacheUtils.get later stored key) = None
      /\ (forall again,
             fst (CacheUtils.get again (snd (CacheUtils.get later stored key)) key) = None)
      /\ fst (CacheUtils.delete (snd (CacheUtils.get later stored key)) key) = false).
Proof.
  intros ttl stored. unfold CacheUtils.get.
  assert (Hget : CacheUtils.mapGet stored key = Some (CacheUtils.mkItem d (now + ttl)))
    by apply mapGet_mapSet_same.
  rewrite Hget. simpl CacheUtils.expiry. simpl CacheUtils.data. split.
  - intros Hle. destruct (Z.ltb_spec (now + ttl) later); [lia|reflexivity].
  - intros Hlt. destruct (Z.ltb_spec (now + ttl) later); [|lia]. simpl.
    split; [reflexivity|]. split.
    + intros again. now rewrite mapGet_mapDelete_same.
    + unfold CacheUtils.mapHas. now rewrite mapGet_mapDelete_same.
Qed.

Lemma get_other_key (now : Z) c key other :
  other <> key ->
  CacheUtils.mapGet (snd (CacheUtils.get now c key)) other = CacheUtils.mapGet c other.
Proof.
  intros Hne. unfold CacheUtils.get. destruct (CacheUtils.mapGet c key) as [found|];
    [|reflexivity].
  destruct (_ <? _); [|reflexivity]. simpl. now apply mapGet_mapDelete_other.
Qed.

(** [set], [get] and [delete] on one key change what [get] returns for no
    other key, and they keep every key bound once. *)
Theorem cache_calls_leave_other_keys
        (now time : Z) c key other (d : T) (ttlMs : option Z) :
  other <> key ->
  (fst (CacheUtils.get time (CacheUtils.set now c key d ttlMs) other)
   = fst (CacheUtils.get time c other)
   /\ fst (CacheUtils.get time (snd (CacheUtils.get now c key)) other)
      = fst (CacheUtils.get time c other)
   /\ fst (CacheUtils.get time (snd (CacheUtils.delete c key)) other)
      = fst (CacheUtils.get time c other))
  /\ (keysOnce c ->
      keysOnce (CacheUtils.set now c key d ttlMs)
      /\ keysOnce (snd (CacheUtils.get now c key))
      /\ keysOnce (snd (CacheUtils.delete c key))).
Proof.
  intros Hne.
  assert (Hread : forall c1 c2,
             CacheUtils.mapGet c1 other = CacheUtils.mapGet c2 other ->
             fst (CacheUtils.get time c1 other) = fst (CacheUtils.get time c2 other)).
  { intros c1 c2 E. unfold CacheUtils.get. rewrite E.
    destruct (CacheUtils.mapGet c2 other); [|reflexivity]. now destruct (_ <? _). }
  split; [split; [|split]|].
  - apply Hread. now apply mapGet_mapSet_other.
  - apply Hread. now apply get_other_key.
  - apply Hread. simpl. now apply mapGet_mapDelete_other.
  - intros Hk. unfold keysOnce in *.
    assert (Hdel : NoDup (map fst (CacheUtils.mapDelete c key))).
    { unfold CacheUtils.mapDelete. clear -Hk.
      induction c as [|[k x] c IH]; simpl in *; [constructor|].
      inversion Hk as [|? ? Hnin Hnd]; subst.
      destruct (negb (String.eqb k key)); simpl; [|now apply IH].
      constructor; [|now apply IH].
      intros Hin. apply Hnin. apply in_map_iff in Hin as (b & Hb & Hin).
      apply filter_In in Hin as [Hin _]. apply in_map_iff. now exists b. }
    split; [|split].
    + unfold CacheUtils.set. rewrite mapSet_keys. unfold CacheUtils.mapHas.
      destruct (CacheUtils.mapGet c key) eqn:E; [exact Hk|].
      apply NoDup_app; [exact Hk|repeat constructor; simpl; tauto|].
      intros x H1 [<-|[]]. revert H1. now apply mapGet_None_keys.
    + unfold CacheUtils.get. destruct (CacheUtils.mapGet c key); [|exact Hk].
      destruct (_ <? _); [exact Hdel|exact Hk].
    + exact Hdel.
Qed.

(** [delete] returns true exactly when the key is bound, expired or not;
    after [delete], and for every key after [clear], [get] returns [null]
    and [delete] returns false. *)
Theorem cache_delete_and_clear (time : Z) c key :
  (fst (CacheUtils.delete c key) = true <-> CacheUtils.mapGet c key <> None)
  /\ fst (CacheUtils.get time (snd (CacheUtils.delete c key)) key) = None
  /\ fst (CacheUtils.delete (snd (CacheUtils.delete c key)) key) = false
  /\ fst (CacheUtils.get time (CacheUtils.clear c) key) = None
  /\ fst (CacheUtils.delete (CacheUtils.clear c) key) = false.
Proof.
  unfold CacheUtils.delete, CacheUtils.get, CacheUtils.mapHas, CacheUtils.clear. simpl.
  rewrite mapGet_mapDelete_same. repeat split; try reflexivity.
  - destruct (CacheUtils.mapGet c key); [discriminate|discriminate].
  - intros H. destruct (CacheUtils.mapGet c key); [reflexivity|congruence].
Qed.
End CacheFacts.

Lemma cached_value_read_until_expiry_witness :
  CacheUtils.get 1300 (CacheUtils.set 1000 [] "k" 7 (Some 300)) "k"
  = (Some 7, CacheUtils.set 1000 [] "k" 7 (Some 300))
  /\ fst (CacheUtils.get 1301 (CacheUtils.set 1000 [] "k" 7 (Some 300)) "k") = None.
Proof.
  split.
  - apply (cached_value_read_until_expiry 1000 1300 [] "k" 7 (Some 300)). lia.
  - apply (cached_value_read_until_expiry 1000 1301 [] "k" 7 (Some 300)). lia.
Defined.

Lemma cache_calls_leave_other_keys_witness :
  fst (CacheUtils.get 1200 (CacheUtils.set 1100 (CacheUtils.set 1000 [] "a" 1 None) "b" 2 None) "a")
  = fst (CacheUtils.get 1200 (CacheUtils.set 1000 [] "a" 1 None) "a").
Proof.
  apply (cache_calls_leave_other_keys 1100 1200 (CacheUtils.set 1000 [] "a" 1 None)
           "b" "a" 2 None).
  discriminate.
Defined.

(** ** [ValidationUtils.sanitizeInput] *)

Lemma removeMarkup_chars (s : string) (c : ascii) :
  In c (chars (ValidationUtils.removeMarkup s)) ->
  ValidationUtils.isMarkup c = false /\ In c (chars s).
Proof.
  unfold chars. induction s as [|a s IH]; simpl; [tauto|].
  destruct (ValidationUtils.isMarkup a) eqn:E; simpl.
  - intros H. destruct (IH H). tauto.
  - intros [<-|H]; [tauto|]. destruct (IH H). tauto.
Qed.

Lemma removeMarkup_length (s : string) :
  (String.length (ValidationUtils.removeMarkup s) <= String.length s)%nat.
Proof.
  induction s as [|a s IH]; simpl; [lia|].
  destruct (ValidationUtils.isMarkup a); simpl; lia.
Qed.

Lemma trimStart_length (s : string) :
  (String.length (ValidationUtils.trimStart s) <= String.length s)%nat.
Proof.
  induction s as [|a s IH]; simpl; [lia|].
  destruct (ValidationUtils.isWhiteSpace a); simpl; lia.
Qed.

Lemma trimEnd_length (s : string) :
  (String.length (ValidationUtils.trimEnd s) <= String.length s)%nat.
Proof.
  induction s as [|a s IH]; simpl; [lia|].
  destruct (ValidationUtils.trimEnd s); [destruct (ValidationUtils.isWhiteSpace a)|];
    simpl in *; lia.
Qed.

Lemma trimStart_chars (s : string) (c : ascii) :
  In c (chars (ValidationUtils.trimStart s)) -> In c (chars s).
Proof.
  unfold chars. induction s as [|a s IH]; simpl; [tauto|].
  destruct (ValidationUtils.isWhiteSpace a); simpl; tauto.
Qed.

Lemma trimEnd_chars (s : string) (c : ascii) :
  In c (chars (ValidationUtils.trimEnd s)) -> In c (chars s).
Proof.
  unfold chars. induction s as [|a s IH]; simpl; [tauto|].
  destruct (ValidationUtils.trimEnd s); [destruct (ValidationUtils.isWhiteSpace a)|];
    simpl in *; tauto.
Qed.

(** The result of [sanitizeInput] holds none of the characters less-than,
    greater-than, double quote and single quote; it holds characters of
    the input only and is not longer than the input. *)
Theorem sanitized_input_has_no_markup (input : string) :
  (forall c, In c (chars (ValidationUtils.sanitizeInput input)) ->
             ValidationUtils.isMarkup c = false /\ In c (chars input))
  /\ (String.length (ValidationUtils.sanitizeInput input) <= String.length input)%nat.
Proof.
  unfold ValidationUtils.sanitizeInput, ValidationUtils.trim. split.
  - intros c Hc. apply removeMarkup_chars in Hc as [Hm Hc]. split; [exact Hm|].
    now apply trimStart_chars, trimEnd_chars.
  - etransitivity; [apply removeMarkup_length|].
    etransitivity; [apply trimEnd_length|apply trimStart_length].
Qed.

Lemma trimEnd_fixed (s : string) (first : ascii) :
  ValidationUtils.isWhiteSpace (last (chars s) first) = false ->
  s <> EmptyString ->
  ValidationUtils.trimEnd s = s.
Proof.
  unfold chars. induction s as [|a s IH]; intros Hl Hne; [congruence|].
  simpl. destruct s as [|b s'].
  - simpl in *. now rewrite Hl.
  - rewrite IH; [reflexivity| |discriminate]. exact Hl.
Qed.

Lemma removeMarkup_fixed (s : string) :
  (forall c, In c (chars s) -> ValidationUtils.isMarkup c = false) ->
  ValidationUtils.removeMarkup s = s.
Proof.
  unfold chars. induction s as [|a s IH]; intros H; simpl; [reflexivity|].
  rewrite (H a) by now left. f_equal. apply IH. intros c Hc. apply H. now right.
Qed.

(** A string that neither begins nor ends with white space and holds none
    of the four characters is returned by [sanitizeInput] as it is. *)
Theorem sanitize_keeps_clean_input (input : string) :
  trimmed input ->
  (forall c, In c (chars input) -> ValidationUtils.isMarkup c = false) ->
  ValidationUtils.sanitizeInput input = input.
Proof.
  intros Ht Hm. unfold ValidationUtils.sanitizeInput, ValidationUtils.trim.
  assert (Htrim : ValidationUtils.trimEnd (ValidationUtils.trimStart input) = input).
  { destruct input as [|a s]; [reflexivity|].
    unfold trimmed, chars in Ht. simpl list_ascii_of_string in Ht.
    destruct Ht as [Hf Hl]. simpl ValidationUtils.trimStart. rewrite Hf.
    apply (trimEnd_fixed _ a); [exact Hl|discriminate]. }
  rewrite Htrim. now apply removeMarkup_fixed.
Qed.

Lemma sanitize_keeps_clean_input_witness :
  ValidationUtils.sanitizeInput "Data Structures" = "Data Structures"%string.
Proof.
  apply (sanitize_keeps_clean_input "Data Structures").
  - vm_compute. split; reflexivity.
  - intros c Hc. vm_compute in Hc.
    repeat (destruct Hc as [<-|Hc]; [reflexivity|]). destruct Hc.
Defined.

(** ** [occursOnDate] *)

Lemma remainderIsZero_iff (x n : Z) :
  Timetable.remainderIsZero x n = true <-> n <> 0 /\ (n | x).
Proof.
  unfold Timetable.remainderIsZero. destruct (Z.eqb_spec n 0) as [->|Hn].
  - split; [discriminate|tauto].
  - rewrite Z.eqb_eq, Z.rem_divide by exact Hn. tauto.
Qed.

Lemma weeks_nonnegative (a : Z) : 0 <= a / Timetable.msPerWeek <-> 0 <= a.
Proof.
  unfold Timetable.msPerWeek. split; intros H.
  - destruct (Z_le_gt_dec 0 a) as [Hle|Hgt]; [exact Hle|].
    assert (a / (7 * 24 * 60 * 60 * 1000) < 0) by (apply Z.div_lt_upper_bound; lia). lia.
  - apply Z.div_pos; lia.
Qed.

Lemma occursOnDate_recurring (tz : Z) (doc : ITimetableEntry.t)
      (pattern : IRecurringPattern.t) (date : Z) :
  ITimetableEntry.isRecurring doc = true ->
  ITimetableEntry.recurringPattern doc = Some pattern ->
  Timetable.occursOnDate tz doc date
  = negb (match IRecurringPattern.endDate pattern with
          | Some patternEnd => patternEnd <? date
          | None => false
          end)
    && (JsDate.getDay tz date =? ITimetableEntry.dayOfWeek doc)
    && (0 <=? (date - ITimetableEntry.startTime doc) / Timetable.msPerWeek)
    && Timetable.remainderIsZero
         ((date - ITimetableEntry.startTime doc) / Timetable.msPerWeek)
         (weeksOfPeriod pattern).
Proof.
  intros Hrec Hpat. unfold Timetable.occursOnDate, weeksOfPeriod. rewrite Hrec, Hpat.
  cbn [negb].
  destruct (match IRecurringPattern.endDate pattern with
            | Some patternEnd => patternEnd <? date
            | None => false
            end); [reflexivity|].
  destruct (JsDate.getDay tz date =? ITimetableEntry.dayOfWeek doc); [|reflexivity].
  cbn [negb andb].
  destruct (String.eqb (IRecurringPattern.frequency pattern) "weekly"); [reflexivity|].
  destruct (String.eqb (IRecurringPattern.frequency pattern) "biweekly"); [reflexivity|].
  destruct (String.eqb (IRecurringPattern.frequency pattern) "monthly"); [reflexivity|].
  unfold Timetable.remainderIsZero. simpl. now rewrite andb_false_r.
Qed.

Lemma recurring_entry_occurs_exactly_when_aux
      (tz : Z) (doc : ITimetableEntry.t) (pattern : IRecurringPattern.t) (date : Z) :
  ITimetableEntry.isRecurring doc = true ->
  ITimetableEntry.recurringPattern doc = Some pattern ->
  Timetable.occursOnDate tz doc date = true <-> recurrenceHits tz doc pattern date.
Proof.
  intros Hrec Hpat. rewrite (occursOnDate_recurring tz doc pattern date Hrec Hpat).
  rewrite !andb_true_iff, negb_true_iff, Z.eqb_eq, Z.leb_le, weeks_nonnegative,
    remainderIsZero_iff.
  unfold recurrenceHits.
  assert (Hend : match IRecurringPattern.endDate pattern with
                 | Some patternEnd => patternEnd <? date
                 | None => false
                 end = false
                 <-> forall patternEnd,
                     IRecurringPattern.endDate pattern = Some patternEnd ->
                     date <= patternEnd).
  { destruct (IRecurringPattern.endDate pattern) as [e|].
    - rewrite Z.ltb_ge. split; [intros H p [= <-]; exact H|intros H; now apply H].
    - split; [intros _ p [=]|reflexivity]. }
  rewrite Hend. split; [intros [[[H1 H2] H3] [H4 H5]]|intros (H1 & H2 & H3 & H4 & H5)].
  - repeat split; (assumption || lia).
  - repeat split; (assumption || lia).
Qed.

(** A recurring document occurs on a date exactly when the date is not
    after the end of its pattern, falls on its weekday, is not before its
    first start instant, and lies a whole number of periods after it, the
    weeks between the two being counted rounded down; with an unknown
    frequency or an interval of 0 it occurs on no date. *)
Theorem recurring_entry_occurs_exactly_when
        (tz : Z) (doc : ITimetableEntry.t) (pattern : IRecurringPattern.t) (date : Z) :
  ITimetableEntry.isRecurring doc = true ->
  ITimetableEntry.recurringPattern doc = Some pattern ->
  Timetable.occursOnDate tz doc date = true <-> recurrenceHits tz doc pattern date.
Proof. apply recurring_entry_occurs_exactly_when_aux. Qed.

Lemma recurring_entry_occurs_exactly_when_witness :
  Timetable.occursOnDate 0 fortnightlyClass 1705309200000 = true
  <-> recurrenceHits 0 fortnightlyClass (IRecurringPattern.mk "weekly" 2 None None)
        1705309200000.
Proof.
  apply (recurring_entry_occurs_exactly_when 0 fortnightlyClass
           (IRecurringPattern.mk "weekly" 2 None None) 1705309200000);
    reflexivity.
Defined.

Lemma getDay_weeks (tz date n : Z) :
  JsDate.getDay tz (date + n * Timetable.msPerWeek) = JsDate.getDay tz date.
Proof.
  unfold JsDate.getDay.
  replace (date + n * Timetable.msPerWeek) with (date + (7 * n) * JsDate.msPerDay)
    by (unfold Timetable.msPerWeek, JsDate.msPerDay, JsDate.msPerHour,
          JsDate.msPerMinute; lia).
  rewrite localDay_step.
  replace (JsDate.localDay tz date + 7 * n + 4)
    with (JsDate.localDay tz date + 4 + n * 7) by lia.
  apply Z.mod_add. lia.
Qed.

(** A recurring document that occurs, or does not occur, on a date at or
    after its first start does the same a whole number of periods later,
    as long as the later date is not after the end of the pattern. *)
Theorem recurring_entry_comes_again_each_period
        (tz : Z) (doc : ITimetableEntry.t) (pattern : IRecurringPattern.t)
        (date periods : Z) :
  ITimetableEntry.isRecurring doc = true ->
  ITimetableEntry.recurringPattern doc = Some pattern ->
  ITimetableEntry.startTime doc <= date ->
  0 <= periods -> 0 <= weeksOfPeriod pattern ->
  (forall patternEnd,
      IRecurringPattern.endDate pattern = Some patternEnd ->
      date + periods * weeksOfPeriod pattern * Timetable.msPerWeek <= patternEnd) ->
  Timetable.occursOnDate tz doc
    (date + periods * weeksOfPeriod pattern * Timetable.msPerWeek)
  = Timetable.occursOnDate tz doc date.
Proof.
  intros Hrec Hpat Hstart Hk Hp Hend. apply eq_true_iff_eq.
  rewrite !(recurring_entry_occurs_exactly_when_aux tz doc pattern) by assumption.
  unfold recurrenceHits. rewrite getDay_weeks.
  assert (Hshift : 0 <= periods * weeksOfPeriod pattern * Timetable.msPerWeek)
    by (unfold Timetable.msPerWeek; nia).
  replace (date + periods * weeksOfPeriod pattern * Timetable.msPerWeek
           - ITimetableEntry.startTime doc)
    with (date - ITimetableEntry.startTime doc
          + (periods * weeksOfPeriod pattern) * Timetable.msPerWeek) by lia.
  rewrite Z.div_add by (unfold Timetable.msPerWeek; lia).
  split; intros (H1 & H2 & H3 & H4 & H5); repeat split; try assumption; try lia.
  - intros e He. specialize (Hend e He). lia.
  - destruct H5 as [q Hq]. exists (q - periods). lia.
  - destruct H5 as [q Hq]. exists (q + periods). lia.
Qed.

Lemma recurring_entry_comes_again_each_period_witness :
  Timetable.occursOnDate 0 fortnightlyClass
    (1704099600000 + 3 * weeksOfPeriod (IRecurringPattern.mk "weekly" 2 None None)
                     * Timetable.msPerWeek)
  = Timetable.occursOnDate 0 fortnightlyClass 1704099600000.
Proof.
  apply (recurring_entry_comes_again_each_period 0 fortnightlyClass
           (IRecurringPattern.mk "weekly" 2 None None) 1704099600000 3);
    try reflexivity; vm_compute; discriminate.
Defined.

(** ** The two queries of the model *)

Lemma insertByKey_day_sorted (x : ITimetableEntry.t) (l : list ITimetableEntry.t) :
  StronglySorted byDayThenStart l ->
  Forall (fun y => ITimetableEntry.startTime x <= ITimetableEntry.startTime y) l ->
  StronglySorted byDayThenStart (insertByKey ITimetableEntry.dayOfWeek x l).
Proof.
  induction 1 as [|y l Hl IH Hy]; intros Hx; simpl.
  - repeat constructor.
  - inversion Hx as [|? ? Hxy Hxl]; subst.
    destruct (Z.leb_spec (ITimetableEntry.dayOfWeek x) (ITimetableEntry.dayOfWeek y))
      as [Hle|Hgt].
    + constructor; [now constructor|].
      constructor; [unfold byDayThenStart; lia|].
      rewrite Forall_forall in *. intros z Hz.
      specialize (Hy z Hz). specialize (Hxl z Hz). unfold byDayThenStart in *. lia.
    + constructor; [now apply IH|].
      rewrite (insertByKey_perm ITimetableEntry.dayOfWeek x l).
      constructor; [unfold byDayThenStart; lia|exact Hy].
Qed.

Lemma sortByKey_day_sorted (l : list ITimetableEntry.t) :
  StronglySorted (keyLe ITimetableEntry.startTime) l ->
  StronglySorted byDayThenStart (sortByKey ITimetableEntry.dayOfWeek l).
Proof.
  induction 1 as [|x l Hl IH Hx]; simpl; [constructor|].
  apply insertByKey_day_sorted; [exact IH|].
  rewrite (sortByKey_perm ITimetableEntry.dayOfWeek l). exact Hx.
Qed.

(** [findByUserAndDateRange] returns documents of the collection, all of
    the user asked for, ordered by weekday and, within a weekday, by start
    instant; a document that does not recur is returned only if it starts
    within the range, and a recurring one only if its pattern has no end
    or ends at or after the start of the range. *)
Theorem date_range_query_sorted_and_sound
        (docs : Timetable.collection) (userId : string) (startDate endDate : Z) :
  let result := Timetable.findByUserAndDateRange docs userId startDate endDate in
  StronglySorted byDayThenStart result
  /\ Permutation result (filter (Timetable.inDateRange userId startDate endDate) docs)
  /\ Forall (fun doc =>
               In doc docs
               /\ ITimetableEntry.userId doc = userId
               /\ (ITimetableEntry.isRecurring doc = false ->
                   startDate <= ITimetableEntry.startTime doc <= endDate)
               /\ (ITimetableEntry.isRecurring doc = true ->
                   forall pattern patternEnd,
                     ITimetableEntry.recurringPattern doc = Some pattern ->
                     IRecurringPattern.endDate pattern = Some patternEnd ->
                     startDate <= patternEnd))
            result.
Proof.
  intros result. subst result. split; [|split].
  - apply sortByKey_day_sorted, sortByKey_sorted.
  - unfold Timetable.findByUserAndDateRange.
    etransitivity; apply sortByKey_perm.
  - apply Forall_forall. intros doc Hdoc.
    apply findByUserAndDateRange_In in Hdoc as [Hin Hr]. split; [exact Hin|].
    unfold Timetable.inDateRange in Hr. apply andb_true_iff in Hr as [Hu Hr].
    apply String.eqb_eq in Hu. split; [exact Hu|].
    destruct (ITimetableEntry.isRecurring doc); simpl in Hr.
    + split; [discriminate|]. intros _ pattern patternEnd Hp He.
      rewrite Hp, He in Hr. now apply Z.leb_le.
    + split; [|discriminate]. intros _. rewrite orb_false_r in Hr.
      apply andb_true_iff in Hr as [H1 H2]. apply Z.leb_le in H1, H2. lia.
Qed.

(** [findByUserAndDay] returns the documents of the user for that weekday,
    each as often as the collection holds it, by ascending start instant. *)
Theorem day_query_sorted_and_sound
        (docs : Timetable.collection) (userId : string) (dayOfWeek : Z) :
  let result := Timetable.findByUserAndDay docs userId dayOfWeek in
  StronglySorted (keyLe ITimetableEntry.startTime) result
  /\ (forall doc,
         In doc result
         <-> In doc docs /\ ITimetableEntry.userId doc = userId
             /\ ITimetableEntry.dayOfWeek doc = dayOfWeek)
  /\ Permutation result
       (filter (fun doc => String.eqb (ITimetableEntry.userId doc) userId
                           && (ITimetableEntry.dayOfWeek doc =? dayOfWeek)) docs).
Proof.
  intros result. subst result. unfold Timetable.findByUserAndDay.
  split; [apply sortByKey_sorted|]. split.
  - intros doc. split.
    + intros H. apply (Permutation_in _ (sortByKey_perm _ _)) in H.
      apply filter_In in H as [H1 H2]. apply andb_true_iff in H2 as [H2 H3].
      apply String.eqb_eq in H2. apply Z.eqb_eq in H3. tauto.
    + intros (H1 & H2 & H3).
      apply (Permutation_in _ (Permutation_sym (sortByKey_perm _ _))).
      apply filter_In. split; [exact H1|].
      apply andb_true_iff. split; [now apply String.eqb_eq|now apply Z.eqb_eq].
  - apply sortByKey_perm.
Qed.

(** ** [createEntry] and [deleteEntry] *)

Lemma findByUserAndDay_In (docs : Timetable.collection) (userId : string)
      (dayOfWeek : Z) (doc : ITimetableEntry.t) :
  In doc (Timetable.findByUserAndDay docs userId dayOfWeek)
  <-> In doc docs /\ ITimetableEntry.userId doc = userId
      /\ ITimetableEntry.dayOfWeek doc = dayOfWeek.
Proof.
  unfold Timetable.findByUserAndDay. split.
  - intros H. apply (Permutation_in _ (sortByKey_perm _ _)) in H.
    apply filter_In in H as [H1 H2]. apply andb_true_iff in H2 as [H2 H3].
    apply String.eqb_eq in H2. apply Z.eqb_eq in H3. tauto.
  - intros (H1 & H2 & H3).
    apply (Permutation_in _ (Permutation_sym (sortByKey_perm _ _))).
    apply filter_In. split; [exact H1|].
    apply andb_true_iff. split; [now apply String.eqb_eq|now apply Z.eqb_eq].
Qed.

Lemma conflicts_iff (newStart newEnd : Z) (entry : ITimetableEntry.t) :
  EntryController.conflicts newStart newEnd entry = true
  <-> newStart < ITimetableEntry.endTime entry
      /\ ITimetableEntry.startTime entry < newEnd.
Proof.
  unfold EntryController.conflicts.
  rewrite orb_true_iff, !andb_true_iff, !Z.ltb_lt. tauto.
Qed.

Lemma validDocument_facts (body : CreateEntryBody.t) (doc : ITimetableEntry.t) :
  EntryController.validDocument body doc = true ->
  properEntry doc
  /\ 0 <= ITimetableEntry.dayOfWeek doc <= 6
  /\ ITimetableEntry.subject doc <> ""%string
  /\ (ITimetableEntry.isRecurring doc = true ->
      exists pattern,
        ITimetableEntry.recurringPattern doc = Some pattern
        /\ Timetable.validRecurringPattern pattern = true).
Proof.
  unfold EntryController.validDocument. rewrite !andb_true_iff.
  intros [[[[[[[[H1 H2] H3] H4] H5] H6] H7] H8] H9].
  split; [unfold properEntry; now apply Z.ltb_lt|].
  split; [apply Z.leb_le in H5, H6; lia|].
  split.
  - intros E. rewrite E in H1. discriminate.
  - intros Hr. rewrite Hr in H9.
    destruct (ITimetableEntry.recurringPattern doc) as [p|]; [|discriminate].
    exists p. split; [reflexivity|].
    unfold EntryController.validPattern in H9. now apply andb_true_iff in H9.
Qed.

(** The outcomes of [createEntry], one by one. *)
Lemma createEntry_cases (docs : Timetable.collection) (newId : string)
      (headerUserId : option string) (body : CreateEntryBody.t) :
  let result := EntryController.createEntry docs newId headerUserId body in
  (fst result = EntryController.Reply401 /\ snd result = docs
   /\ TimetableController.missing headerUserId = true)
  \/ (exists userId existing,
         headerUserId = Some userId
         /\ fst result = EntryController.Reply409 existing /\ snd result = docs
         /\ In existing docs
         /\ ITimetableEntry.userId existing = userId
         /\ ITimetableEntry.dayOfWeek existing = CreateEntryBody.dayOfWeek body
         /\ bodyOverlaps body existing)
  \/ (exists userId,
         headerUserId = Some userId
         /\ (forall existing,
                In existing docs -> ITimetableEntry.userId existing = userId ->
                ITimetableEntry.dayOfWeek existing = CreateEntryBody.dayOfWeek body ->
                ~ bodyOverlaps body existing)
         /\ ((fst result = EntryController.Reply400 /\ snd result = docs
              /\ EntryController.validDocument body
                   (EntryController.newDocument newId userId body) = false)
             \/ (fst result
                 = EntryController.Reply201 (EntryController.newDocument newId userId body)
                 /\ snd result = docs ++ [EntryController.newDocument newId userId body]
                 /\ EntryController.validDocument body
                      (EntryController.newDocument newId userId body) = true))).
Proof.
  unfold EntryController.createEntry. destruct headerUserId as [uid|]; [|left; auto].
  destruct (TimetableController.missing (Some uid)) eqn:Em; [left; auto|].
  destruct (find _ _) as [existing|] eqn:Ef.
  - right. left. apply find_some in Ef as [Hin Hc].
    apply findByUserAndDay_In in Hin as (H1 & H2 & H3). apply conflicts_iff in Hc.
    exists uid, existing. simpl. unfold bodyOverlaps. tauto.
  - right. right. exists uid. split; [reflexivity|]. split.
    + intros existing H1 H2 H3 Hov.
      assert (Hin : In existing (Timetable.findByUserAndDay docs uid
                                   (CreateEntryBody.dayOfWeek body)))
        by (apply findByUserAndDay_In; tauto).
      pose proof (find_none _ _ Ef _ Hin) as Hc.
      apply conflicts_iff in Hov. congruence.
    + destruct (EntryController.validDocument _ _) eqn:Ev; simpl; [right|left]; auto.
Qed.

Lemma createEntry_conflictFree (docs : Timetable.collection) (newId : string)
      (headerUserId : option string) (body : CreateEntryBody.t) :
  conflictFree docs ->
  conflictFree (snd (EntryController.createEntry docs newId headerUserId body)).
Proof.
  intros [Hp Hn].
  destruct (createEntry_cases docs newId headerUserId body)
    as [(_ & -> & _)|[(u & x & _ & _ & -> & _)|(u & _ & Hfree & [(_ & -> & _)|(_ & -> & Hv)])]];
    try (split; assumption).
  set (doc := EntryController.newDocument newId u body) in *.
  destruct (validDocument_facts body doc Hv) as (Hproper & _).
  assert (Hnew : forall a, In a docs -> ITimetableEntry.userId a = ITimetableEntry.userId doc ->
                           ITimetableEntry.dayOfWeek a = ITimetableEntry.dayOfWeek doc ->
                           ~ entriesOverlap a doc /\ ~ entriesOverlap doc a).
  { intros a Ha Hu Hd. specialize (Hfree a Ha Hu Hd).
    unfold bodyOverlaps, entriesOverlap in *. simpl. tauto. }
  split.
  - apply Forall_app. split; [exact Hp|]. constructor; [exact Hproper|constructor].
  - intros a b Ha Hb Hab Hu Hd.
    apply in_app_iff in Ha as [Ha|[<-|[]]]; apply in_app_iff in Hb as [Hb|[<-|[]]].
    + now apply Hn.
    + now apply (Hnew a).
    + apply (Hnew b); auto.
    + congruence.
Qed.

(** [createEntry] keeps the collection free of conflicts: if every
    document ends after it starts and no two different documents of one
    user and weekday share an instant, the same holds after the call,
    whatever the reply. *)
Theorem create_entry_keeps_the_collection_conflict_free
        (docs : Timetable.collection) (newId : string)
        (headerUserId : option string) (body : CreateEntryBody.t) :
  conflictFree docs ->
  conflictFree (snd (EntryController.createEntry docs newId headerUserId body)).
Proof. apply createEntry_conflictFree. Qed.

Lemma create_entry_keeps_the_collection_conflict_free_witness :
  conflictFree
    (snd (EntryController.createEntry mondayClasses "c9" (Some "alice"%string) lectureBody)).
Proof.
  apply (create_entry_keeps_the_collection_conflict_free mondayClasses "c9"
           (Some "alice"%string) lectureBody).
  split.
  - repeat constructor; unfold properEntry; simpl; lia.
  - intros a b [<-|[<-|[]]] [<-|[<-|[]]] Hab _ _; try congruence;
      unfold entriesOverlap; simpl; lia.
Defined.

(** For a request with a user id, [createEntry] replies 409 exactly when
    the time span of the body shares an instant with a document of that
    user and weekday; the reply names such a document, the collection is
    left as it is, and the body is not validated. *)
Theorem create_entry_refuses_overlaps
        (docs : Timetable.collection) (newId userId : string) (body : CreateEntryBody.t) :
  userId <> ""%string ->
  let result := EntryController.createEntry docs newId (Some userId) body in
  ((exists existing,
       In existing docs /\ ITimetableEntry.userId existing = userId
       /\ ITimetableEntry.dayOfWeek existing = CreateEntryBody.dayOfWeek body
       /\ bodyOverlaps body existing)
   <-> exists existing, fst result = EntryController.Reply409 existing)
  /\ forall existing,
      fst result = EntryController.Reply409 existing ->
      snd result = docs
      /\ In existing docs /\ ITimetableEntry.userId existing = userId
      /\ ITimetableEntry.dayOfWeek existing = CreateEntryBody.dayOfWeek body
      /\ bodyOverlaps body existing.
Proof.
  intros Hu result. subst result.
  assert (Hm : TimetableController.missing (Some userId) = false).
  { simpl. destruct (String.eqb_spec userId ""); [contradiction|reflexivity]. }
  destruct (createEntry_cases docs newId (Some userId) body)
    as [(_ & _ & Hmiss)|[(u & x & [= <-] & Hr & Hs & Hx)|(u & [= <-] & Hfree & Hr)]].
  - congruence.
  - split.
    + split; [intros _; now exists x|intros _; exists x; tauto].
    + intros e He. rewrite Hr in He. injection He as <-. tauto.
  - split.
    + split.
      * intros (e & H1 & H2 & H3 & H4). exfalso. now apply (Hfree e).
      * intros (e & He). destruct Hr as [(Hr & _)|(Hr & _)]; rewrite Hr in He; discriminate.
    + intros e He. destruct Hr as [(Hr & _)|(Hr & _)]; rewrite Hr in He; discriminate.
Qed.

Lemma create_entry_refuses_overlaps_witness :
  exists existing,
    fst (EntryController.createEntry mondayClasses "c9" (Some "alice"%string) lectureBody)
    = EntryController.Reply409 existing.
Proof.
  apply (create_entry_refuses_overlaps mondayClasses "c9" "alice" lectureBody).
  - discriminate.
  - exists (ITimetableEntry.mk "c1" "alice" "Algebra" 1704099600000 1704103200000 1 false None).
    split; [now left|]. split; [reflexivity|]. split; [reflexivity|].
    unfold bodyOverlaps. simpl. lia.
Defined.

(** A document that [createEntry] stores is appended to the collection
    with the identifier given and the user of the request; it ends after
    it starts, its weekday is from 0 to 6, its subject is not empty and
    holds no markup character, and when it recurs it has a pattern whose
    frequency is weekly, biweekly or monthly and whose interval is 1 or
    more.  The pattern of a stored document is the pattern of the body with
    its array [daysOfWeek], the empty array when the body gives none; the
    days of the array are from 0 to 6.  With every other reply the
    collection is left as it is. *)
Theorem create_entry_stores_valid_documents
        (docs : Timetable.collection) (newId : string)
        (headerUserId : option string) (body : CreateEntryBody.t) :
  let result := EntryController.createEntry docs newId headerUserId body in
  match fst result with
  | EntryController.Reply201 doc =>
      snd result = docs ++ [doc]
      /\ ITimetableEntry._id doc = newId
      /\ headerUserId = Some (ITimetableEntry.userId doc)
      /\ properEntry doc
      /\ 0 <= ITimetableEntry.dayOfWeek doc <= 6
      /\ ITimetableEntry.subject doc <> ""%string
      /\ (forall c, In c (chars (ITimetableEntry.subject doc)) ->
                    ValidationUtils.isMarkup c = false)
      /\ (ITimetableEntry.isRecurring doc = true ->
          exists pattern,
            ITimetableEntry.recurringPattern doc = Some pattern
            /\ Timetable.validRecurringPattern pattern = true)
      /\ (ITimetableEntry.isRecurring doc = false ->
          ITimetableEntry.recurringPattern doc = None)
      /\ (forall pattern,
             ITimetableEntry.recurringPattern doc = Some pattern ->
             exists given days,
               CreateEntryBody.recurringPattern body = Some given
               /\ IRecurringPattern.frequency pattern = IRecurringPattern.frequency given
               /\ IRecurringPattern.interval pattern = IRecurringPattern.interval given
               /\ IRecurringPattern.endDate pattern = IRecurringPattern.endDate given
               /\ IRecurringPattern.daysOfWeek pattern = Some days
               /\ (forall l, IRecurringPattern.daysOfWeek given = Some l -> days = l)
               /\ (IRecurringPattern.daysOfWeek given = None -> days = [])
               /\ Forall (fun d => 0 <= d <= 6) days)
  | _ => snd result = docs
  end.
Proof.
  intros result. subst result.
  destruct (createEntry_cases docs newId headerUserId body)
    as [(-> & -> & _)|[(u & x & _ & -> & -> & _)|(u & -> & _ & [(-> & -> & _)|(-> & -> & Hv)])]];
    try reflexivity.
  destruct (validDocument_facts body _ Hv) as (H1 & H2 & H3 & H4).
  cbn [fst snd].
  split; [reflexivity|]. split; [reflexivity|]. split; [reflexivity|].
  split; [exact H1|]. split; [exact H2|]. split; [exact H3|].
  split; [|split; [exact H4|split]].
  - intros c Hc. simpl in Hc.
    unfold ValidationUtils.sanitizeInput, ValidationUtils.trim in Hc.
    apply trimEnd_chars, trimStart_chars in Hc.
    now apply removeMarkup_chars in Hc.
  - simpl. intros ->. reflexivity.
  - intros pattern Hp.
    unfold EntryController.validDocument in Hv. rewrite !andb_true_iff in Hv.
    destruct Hv as [_ Hv]. rewrite Hp in Hv.
    unfold EntryController.newDocument in Hp. cbn [ITimetableEntry.recurringPattern] in Hp.
    destruct (ITimetableEntry.isRecurring _) eqn:Er.
    2:{ unfold EntryController.newDocument in Er. cbn [ITimetableEntry.isRecurring] in Er.
        rewrite Er in Hp. discriminate. }
    unfold EntryController.newDocument in Er. cbn [ITimetableEntry.isRecurring] in Er.
    rewrite Er in Hp.
    destruct (CreateEntryBody.recurringPattern body) as [given|]; [|discriminate].
    injection Hp as <-. unfold EntryController.validPattern in Hv.
    apply andb_true_iff in Hv as [_ Hv]. cbn in Hv.
    exists given. eexists. split; [reflexivity|].
    cbn. split; [reflexivity|]. split; [reflexivity|]. split; [reflexivity|].
    split; [reflexivity|].
    split; [intros l ->; reflexivity|]. split; [intros ->; reflexivity|].
    apply Forall_forall. intros d Hd. rewrite forallb_forall in Hv.
    specialize (Hv d Hd). apply andb_true_iff in Hv as [Ha Hb].
    apply Z.leb_le in Ha, Hb. lia.
Qed.

Lemma findOneAndDelete_none (matches : ITimetableEntry.t -> bool)
      (docs : Timetable.collection) :
  EntryController.findOneAndDelete matches docs = None
  <-> forall doc, In doc docs -> matches doc = false.
Proof.
  induction docs as [|d docs IH]; simpl.
  - split; [intros _ doc []|reflexivity].
  - destruct (matches d) eqn:E.
    + split; [discriminate|]. intros H. specialize (H d (or_introl eq_refl)). congruence.
    + destruct (EntryController.findOneAndDelete matches docs) as [[f r]|].
      * split; [discriminate|]. intros H.
        assert (Hn : Some (f, r) = @None (ITimetableEntry.t * Timetable.collection))
          by (apply IH; intros doc Hd; apply H; now right).
        discriminate Hn.
      * split; [|reflexivity]. intros _ doc [<-|Hd]; [exact E|].
        now apply (proj1 IH).
Qed.

Lemma findOneAndDelete_some (matches : ITimetableEntry.t -> bool)
      (docs rest : Timetable.collection) (found : ITimetableEntry.t) :
  EntryController.findOneAndDelete matches docs = Some (found, rest) ->
  matches found = true
  /\ exists before after,
      docs = before ++ found :: after /\ rest = before ++ after
      /\ forall doc, In doc before -> matches doc = false.
Proof.
  revert rest. induction docs as [|d docs IH]; intros rest; simpl; [discriminate|].
  destruct (matches d) eqn:E.
  - intros [= <- <-]. split; [exact E|]. exists [], docs. repeat split. intros doc [].
  - destruct (EntryController.findOneAndDelete matches docs) as [[f r]|]; [|discriminate].
    intros [= <- <-]. destruct (IH r eq_refl) as (Hm & before & after & -> & -> & Hb).
    split; [exact Hm|]. exists (d :: before), after. repeat split.
    intros doc [<-|Hd]; [exact E|now apply Hb].
Qed.

Section DeleteFacts.
Variable castObjectId : string -> option string.

(** The outcomes of [deleteEntry], one by one. *)
Lemma deleteEntry_cases (docs : Timetable.collection)
      (headerUserId : option string) (entryId : string) :
  let result := EntryController.deleteEntry castObjectId docs headerUserId entryId in
  (fst result = EntryController.Reply401 /\ snd result = docs
   /\ TimetableController.missing headerUserId = true)
  \/ (exists userId,
         headerUserId = Some userId
         /\ TimetableController.missing headerUserId = false
         /\ fst result = EntryController.Reply500 /\ snd result = docs
         /\ castObjectId entryId = None)
  \/ (exists userId id,
         headerUserId = Some userId
         /\ TimetableController.missing headerUserId = false
         /\ castObjectId entryId = Some id
         /\ fst result = EntryController.Reply404 /\ snd result = docs
         /\ forall doc, In doc docs ->
                        ~ (ITimetableEntry._id doc = id
                           /\ ITimetableEntry.userId doc = userId))
  \/ (exists userId id before removed after,
         headerUserId = Some userId
         /\ TimetableController.missing headerUserId = false
         /\ castObjectId entryId = Some id
         /\ fst result = EntryController.Reply200 tt
         /\ docs = before ++ removed :: after
         /\ snd result = before ++ after
         /\ ITimetableEntry._id removed = id
         /\ ITimetableEntry.userId removed = userId
         /\ forall doc, In doc before ->
                        ~ (ITimetableEntry._id doc = id
                           /\ ITimetableEntry.userId doc = userId)).
Proof.
  unfold EntryController.deleteEntry. destruct headerUserId as [uid|]; [|left; auto].
  destruct (TimetableController.missing (Some uid)) eqn:Em; [left; auto|].
  destruct (castObjectId entryId) as [id|] eqn:Ec;
    [|right; left; exists uid; auto].
  set (matches := fun doc => String.eqb (ITimetableEntry._id doc) id
                             && String.eqb (ITimetableEntry.userId doc) uid).
  assert (Hm : forall doc, matches doc = true
                           <-> ITimetableEntry._id doc = id
                               /\ ITimetableEntry.userId doc = uid)
    by (intros doc; unfold matches; now rewrite andb_true_iff, !String.eqb_eq).
  destruct (EntryController.findOneAndDelete matches docs) as [[found rest]|] eqn:Ef.
  - right. right. right.
    apply findOneAndDelete_some in Ef as (Hf & before & after & -> & -> & Hb).
    apply Hm in Hf as [Hid Hu]. exists uid, id, before, found, after. simpl.
    repeat split; try assumption.
    intros doc Hd Hdoc. apply Hm in Hdoc. specialize (Hb doc Hd). congruence.
  - right. right. left. exists uid, id. simpl. repeat split.
    intros doc Hd Hdoc. apply Hm in Hdoc.
    pose proof (proj1 (findOneAndDelete_none matches docs) Ef doc Hd). congruence.
Qed.

(** For a request with a user id, [deleteEntry] replies 500 exactly when
    the identifier asked for is no [ObjectId], 404 exactly when it is one
    and the collection holds no document with that identifier and the user
    of the request, and 200 exactly when it is one and the collection holds
    such a document.  With the reply 200 the first such document is
    removed, the others staying in their order; with every other reply the
    collection is left as it is. *)
Theorem delete_entry_removes_one_document_of_the_user
        (docs : Timetable.collection) (userId entryId : string) :
  userId <> ""%string ->
  let result :=
    EntryController.deleteEntry castObjectId docs (Some userId) entryId in
  let held id :=
    exists doc, In doc docs /\ ITimetableEntry._id doc = id
                /\ ITimetableEntry.userId doc = userId in
  (fst result = EntryController.Reply500 <-> castObjectId entryId = None)
  /\ (fst result = EntryController.Reply404
      <-> exists id, castObjectId entryId = Some id /\ ~ held id)
  /\ (fst result = EntryController.Reply200 tt
      <-> exists id, castObjectId entryId = Some id /\ held id)
  /\ (fst result <> EntryController.Reply200 tt -> snd result = docs)
  /\ (fst result = EntryController.Reply200 tt ->
      exists id before removed after,
        castObjectId entryId = Some id
        /\ docs = before ++ removed :: after
        /\ snd result = before ++ after
        /\ ITimetableEntry._id removed = id
        /\ ITimetableEntry.userId removed = userId
        /\ forall doc, In doc before ->
                       ~ (ITimetableEntry._id doc = id
                          /\ ITimetableEntry.userId doc = userId)).
Proof.
  intros Hu result held. subst result held.
  assert (Hm : TimetableController.missing (Some userId) = false).
  { simpl. destruct (String.eqb_spec userId ""); [contradiction|reflexivity]. }
  destruct (deleteEntry_cases docs (Some userId) entryId)
    as [(_ & _ & Hmiss)
       |[(u & [= <-] & _ & Hr & Hs & Hc)
        |[(u & id & [= <-] & _ & Hc & Hr & Hs & Hno)
         |(u & id & before & removed & after
           & [= <-] & _ & Hc & Hr & Hd & Hs & Hid & Hus & Hb)]]].
  - congruence.
  - rewrite Hr, Hc. split; [tauto|].
    split; [split; [discriminate|intros (id & E & _); discriminate]|].
    split; [split; [discriminate|intros (id & E & _); discriminate]|].
    split; [intros _; exact Hs|discriminate].
  - rewrite Hr, Hc. split; [split; discriminate|].
    split.
    + split; [|reflexivity]. intros _. exists id. split; [reflexivity|].
      intros (doc & Hin & H1 & H2). now apply (Hno doc Hin).
    + split.
      * split; [discriminate|]. intros (id' & [= <-] & doc & Hin & H1 & H2).
        exfalso. now apply (Hno doc Hin).
      * split; [intros _; exact Hs|discriminate].
  - rewrite Hr, Hc. split; [split; discriminate|].
    assert (Hheld : exists doc, In doc docs /\ ITimetableEntry._id doc = id
                                /\ ITimetableEntry.userId doc = userId).
    { exists removed. rewrite Hd. split; [apply in_elt|tauto]. }
    split.
    + split; [discriminate|]. intros (id' & [= <-] & Hnot). contradiction.
    + split.
      * split; [|reflexivity]. intros _. exists id. split; [reflexivity|exact Hheld].
      * split; [congruence|]. intros _. exists id, before, removed, after. tauto.
Qed.

Lemma deleteEntry_sublist (docs : Timetable.collection)
      (headerUserId : option string) (entryId : string) (doc : ITimetableEntry.t) :
  In doc (snd (EntryController.deleteEntry castObjectId docs headerUserId entryId)) ->
  In doc docs.
Proof.
  destruct (deleteEntry_cases docs headerUserId entryId)
    as [(_ & -> & _)
       |[(u & _ & _ & _ & -> & _)
        |[(u & id & _ & _ & _ & _ & -> & _)
         |(u & id & before & removed & after & _ & _ & _ & _ & -> & -> & _)]]];
    try tauto.
  rewrite !in_app_iff. simpl. tauto.
Qed.

Lemma deleteEntry_conflictFree (docs : Timetable.collection)
      (headerUserId : option string) (entryId : string) :
  conflictFree docs ->
  conflictFree (snd (EntryController.deleteEntry castObjectId docs headerUserId entryId)).
Proof.
  intros [Hp Hn]. split.
  - apply Forall_forall. intros d Hd. rewrite Forall_forall in Hp.
    apply Hp. eapply deleteEntry_sublist, Hd.
  - intros a b Ha Hb. apply Hn; eapply deleteEntry_sublist; eassumption.
Qed.

(** [deleteEntry] never removes a document of another user, whatever the
    identifier asked for, and it keeps the collection free of conflicts. *)
Theorem delete_entry_spares_other_users
        (docs : Timetable.collection) (headerUserId : option string)
        (entryId : string) (doc : ITimetableEntry.t) :
  In doc docs ->
  headerUserId <> Some (ITimetableEntry.userId doc) ->
  In doc (snd (EntryController.deleteEntry castObjectId docs headerUserId entryId))
  /\ (conflictFree docs ->
      conflictFree
        (snd (EntryController.deleteEntry castObjectId docs headerUserId entryId))).
Proof.
  intros Hin Hother. split; [|apply deleteEntry_conflictFree].
  destruct (deleteEntry_cases docs headerUserId entryId)
    as [(_ & -> & _)
       |[(u & _ & _ & _ & -> & _)
        |[(u & id & _ & _ & _ & _ & -> & _)
         |(u & id & before & removed & after
           & -> & _ & _ & _ & -> & -> & _ & Hu & _)]]];
    try assumption.
  rewrite in_app_iff in *. simpl in Hin. destruct Hin as [H|[H|H]]; [tauto| |tauto].
  subst doc. congruence.
Qed.

(** ** Free slots over a collection built by the controller *)

Lemma builtByCalls_conflictFree (docs : Timetable.collection) :
  builtByCalls castObjectId docs -> conflictFree docs.
Proof.
  induction 1 as [|docs newId hdr body _ IH|docs hdr entryId _ IH].
  - split; [constructor|intros a b []].
  - now apply createEntry_conflictFree.
  - now apply deleteEntry_conflictFree.
Qed.

(** In a collection that calls of [createEntry] and [deleteEntry] have made
    of the empty collection, the free slots computed for a user from the
    documents of a date range share no instant with a document swept on the
    same day. *)
Theorem free_slots_avoid_entries_of_built_collections
        (tz : Z) (docs : Timetable.collection) (userId : string)
        (startDate endDate : Z) (workingHours : WorkingHours) (currentDate : Z)
        (slot : IFreeTimeSlot.t) (entry : ITimetableEntry.t) :
  builtByCalls castObjectId docs ->
  let entries := Timetable.findByUserAndDateRange docs userId startDate endDate in
  In slot (TimeUtils.sweepDay tz (sortByKey ITimetableEntry.startTime entries)
             workingHours currentDate) ->
  sweptOn tz entries entry currentDate ->
  ~ entryOverlapsSlot entry slot.
Proof.
  intros Hb entries. apply builtByCalls_conflictFree in Hb as [Hp Hn].
  assert (Hsub : forall d, In d entries ->
                           In d docs /\ ITimetableEntry.userId d = userId).
  { intros d Hd. apply findByUserAndDateRange_In in Hd as [Hd Hr]. split; [exact Hd|].
    unfold Timetable.inDateRange in Hr. apply andb_true_iff in Hr as [Hu _].
    now apply String.eqb_eq. }
  apply sweepDay_avoids_entries.
  - apply Forall_forall. intros d Hd. rewrite Forall_forall in Hp. apply Hp, (Hsub d Hd).
  - intros a b Ha Hb' Hab Hday.
    destruct (Hsub a Ha) as [Ha1 Ha2], (Hsub b Hb') as [Hb1 Hb2].
    apply Hn; congruence.
Qed.
End DeleteFacts.

(** The identifier of the first class, written in capital letters, and the
    user who holds the class. *)
Lemma delete_entry_removes_one_document_of_the_user_witness :
  fst (EntryController.deleteEntry hexObjectId storedClasses (Some "alice"%string)
         "65920A4E7F3C2B0012AB34C1")
  = EntryController.Reply200 tt.
Proof.
  apply (delete_entry_removes_one_document_of_the_user hexObjectId storedClasses
           "alice" "65920A4E7F3C2B0012AB34C1").
  - discriminate.
  - exists "65920a4e7f3c2b0012ab34c1"%string. split; [reflexivity|].
    eexists. split; [left; reflexivity|]. split; reflexivity.
Defined.

Lemma delete_entry_spares_other_users_witness :
  In (ITimetableEntry.mk "65920a4e7f3c2b0012ab34c1" "alice" "Algebra"
        1704099600000 1704103200000 1 false None)
     (snd (EntryController.deleteEntry hexObjectId storedClasses (Some "bob"%string)
             "65920a4e7f3c2b0012ab34c1")).
Proof.
  apply (delete_entry_spares_other_users hexObjectId storedClasses (Some "bob"%string)
           "65920a4e7f3c2b0012ab34c1").
  - now left.
  - discriminate.
Defined.

Lemma free_slots_avoid_entries_of_built_collections_witness :
  ~ entryOverlapsSlot
      (ITimetableEntry.mk "c9" "alice" "Logic" 1704101400000 1704105000000 1 false None)
      (IFreeTimeSlot.mk 1704096000000 1704101400000 90 1 true).
Proof.
  apply (free_slots_avoid_entries_of_built_collections hexObjectId 0
           (snd (EntryController.createEntry [] "c9" (Some "alice"%string) lectureBody))
           "alice" 1704067200000 1704153599999 TimeUtils.defaultWorkingHours
           1704067200000).
  - apply built_create, built_empty.
  - vm_compute. tauto.
  - apply sweptOn_iff. split; [vm_compute; tauto|reflexivity].
Defined.

(** ** No free time is left out *)

Lemma findGaps_complete (dow : Z) (es : list ITimetableEntry.t) (cur eod a b : Z) :
  Forall properEntry es ->
  cur <= a -> b <= eod -> 1800000 <= b - a ->
  (forall e, In e es ->
             ITimetableEntry.endTime e <= a \/ b <= ITimetableEntry.startTime e) ->
  exists slot,
    In slot (TimeUtils.findGaps dow es cur eod)
    /\ IFreeTimeSlot.startTime slot <= a /\ b <= IFreeTimeSlot.endTime slot.
Proof.
  intros Hp. revert cur. induction Hp as [|e es He Hes IH]; intros cur Hc Hb Hlen Hfree.
  - simpl. eexists. split; [apply pushGap_In; split; [|reflexivity]; lia|]. simpl. lia.
  - simpl. destruct (Z_le_gt_dec b (ITimetableEntry.startTime e)) as [Hle|Hgt].
    + eexists. split.
      * apply in_or_app. left. apply pushGap_In. split; [|reflexivity]. lia.
      * simpl. lia.
    + assert (Hend : ITimetableEntry.endTime e <= a).
      { destruct (Hfree e (or_introl eq_refl)); [assumption|lia]. }
      destruct (IH (ITimetableEntry.endTime e) Hend Hb Hlen) as (slot & Hin & Hs).
      * intros x Hx. apply Hfree. now right.
      * exists slot. split; [apply in_or_app; now right|exact Hs].
Qed.

(** When the entries swept on a day end after they start, every span of 30
    minutes or more that lies in the working window of the day and shares
    no instant with an entry swept that day is within one free slot of the
    day. *)
Theorem free_time_of_a_day_is_within_a_free_slot
        (tz : Z) (timetableEntries : list ITimetableEntry.t)
        (workingHours : WorkingHours) (currentDate from to : Z) :
  Forall properEntry timetableEntries ->
  JsDate.setHours tz currentDate (whStart workingHours) 0 0 0 <= from ->
  to <= JsDate.setHours tz currentDate (whEnd workingHours) 0 0 0 ->
  1800000 <= to - from ->
  (forall entry,
      sweptOn tz timetableEntries entry currentDate ->
      ITimetableEntry.endTime entry <= from \/ to <= ITimetableEntry.startTime entry) ->
  exists slot,
    In slot (TimeUtils.sweepDay tz (sortByKey ITimetableEntry.startTime timetableEntries)
               workingHours currentDate)
    /\ IFreeTimeSlot.startTime slot <= from /\ to <= IFreeTimeSlot.endTime slot.
Proof.
  intros Hp Hfrom Hto Hlen Hfree. unfold TimeUtils.sweepDay.
  apply findGaps_complete; try assumption.
  apply Forall_forall. intros e He.
  apply (sweptOn_iff tz timetableEntries e currentDate) in He as [He _].
  rewrite Forall_forall in Hp. now apply Hp.
Qed.

Lemma free_time_of_a_day_is_within_a_free_slot_witness :
  exists slot,
    In slot (TimeUtils.sweepDay 0 (sortByKey ITimetableEntry.startTime mondayClasses)
               TimeUtils.defaultWorkingHours 1704067200000)
    /\ IFreeTimeSlot.startTime slot <= 1704117600000
    /\ 1704121200000 <= IFreeTimeSlot.endTime slot.
Proof.
  apply (free_time_of_a_day_is_within_a_free_slot 0 mondayClasses
           TimeUtils.defaultWorkingHours 1704067200000 1704117600000 1704121200000).
  - repeat constructor; unfold properEntry; simpl; lia.
  - vm_compute. discriminate.
  - vm_compute. discriminate.
  - lia.
  - intros entry He. apply sweptOn_iff in He as [[<-|[<-|[]]] _]; simpl; lia.
Defined.

(** ** The payload of [findCommonFreeTime] *)


(** ** [getUserTimetable] *)








(** ** [isWithinTimeRange] and [getWeekDates] *)

Lemma digit_compare (x y : Z) :
  0 <= x <= 9 -> 0 <= y <= 9 ->
  Ascii.compare (TimeUtils.digit x) (TimeUtils.digit y) = (x ?= y).
Proof.
  intros Hx Hy.
  assert (Ex : x = 0 \/ x = 1 \/ x = 2 \/ x = 3 \/ x = 4 \/ x = 5 \/ x = 6 \/ x = 7
               \/ x = 8 \/ x = 9) by lia.
  assert (Ey : y = 0 \/ y = 1 \/ y = 2 \/ y = 3 \/ y = 4 \/ y = 5 \/ y = 6 \/ y = 7
               \/ y = 8 \/ y = 9) by lia.
  clear Hx Hy.
  repeat (destruct Ex as [Ex|Ex]); subst x;
    repeat (destruct Ey as [Ey|Ey]); subst y; reflexivity.
Qed.

Lemma twoDigits_compare (a c : Z) (s t : string) :
  0 <= a < 100 -> 0 <= c < 100 ->
  String.compare (TimeUtils.twoDigits a ++ s) (TimeUtils.twoDigits c ++ t)
  = match a ?= c with
    | Eq => String.compare s t
    | other => other
    end.
Proof.
  intros Ha Hc. unfold TimeUtils.twoDigits. cbn [String.append String.compare].
  rewrite !digit_compare by (Z.div_mod_to_equations; lia).
  destruct (Z.compare_spec (a / 10) (c / 10)) as [E1|E1|E1];
    [destruct (Z.compare_spec (a mod 10) (c mod 10)) as [E2|E2|E2]|..];
    destruct (Z.compare_spec a c) as [E|E|E];
    try reflexivity; exfalso; Z.div_mod_to_equations; lia.
Qed.

Lemma clockText_leb (a b c d : Z) :
  0 <= a < 100 -> 0 <= b < 60 -> 0 <= c < 100 -> 0 <= d < 60 ->
  String.leb (clockText a b) (clockText c d) = true <-> a * 60 + b <= c * 60 + d.
Proof.
  intros Ha Hb Hc Hd. unfold String.leb, clockText.
  rewrite twoDigits_compare by assumption.
  destruct (Z.compare_spec a c) as [E|E|E].
  - change (String.compare (":" ++ TimeUtils.twoDigits b) (":" ++ TimeUtils.twoDigits d))
      with (String.compare (TimeUtils.twoDigits b ++ "") (TimeUtils.twoDigits d ++ "")).
    rewrite twoDigits_compare by lia. simpl String.compare.
    destruct (Z.compare_spec b d); split; intros; (reflexivity || discriminate || lia).
  - split; [intros _; lia|reflexivity].
  - split; [discriminate|lia].
Qed.

Lemma formatHHmm_clockText (tz time : Z) :
  exists hour minute,
    TimeUtils.formatHHmm tz time = clockText hour minute
    /\ 0 <= hour < 24 /\ 0 <= minute < 60
    /\ minuteOfDay tz time = hour * 60 + minute.
Proof.
  unfold TimeUtils.formatHHmm, minuteOfDay, clockText.
  change JsDate.msPerDay with 86400000. change JsDate.msPerHour with 3600000.
  change JsDate.msPerMinute with 60000.
  set (ms := (time + tz) mod 86400000).
  assert (0 <= ms < 86400000) by (apply Z.mod_pos_bound; lia).
  exists (ms / 3600000), (ms mod 3600000 / 60000).
  split; [reflexivity|]. Z.div_mod_to_equations. lia.
Qed.

(** For a range given as two times of day, hour and minute on two digits
    each, [isWithinTimeRange] holds exactly when the minute of the local
    day of the instant is from the minute of the first time to the minute
    of the second, both included; the seconds of the instant do not
    count. *)
Theorem time_range_is_inclusive_to_the_minute
        (tz time startHour startMinute endHour endMinute : Z) :
  0 <= startHour < 24 -> 0 <= startMinute < 60 ->
  0 <= endHour < 24 -> 0 <= endMinute < 60 ->
  TimeUtils.isWithinTimeRange tz time (clockText startHour startMinute)
    (clockText endHour endMinute) = true
  <-> startHour * 60 + startMinute <= minuteOfDay tz time <= endHour * 60 + endMinute.
Proof.
  intros H1 H2 H3 H4. unfold TimeUtils.isWithinTimeRange.
  destruct (formatHHmm_clockText tz time) as (h & m & -> & Hh & Hm & ->).
  rewrite andb_true_iff, !clockText_leb by lia. tauto.
Qed.

Lemma time_range_is_inclusive_to_the_minute_witness :
  TimeUtils.isWithinTimeRange 0 1704105059999 (clockText 9 0) (clockText 10 30) = true
  <-> 9 * 60 + 0 <= minuteOfDay 0 1704105059999 <= 10 * 60 + 30.
Proof.
  apply (time_range_is_inclusive_to_the_minute 0 1704105059999 9 0 10 30); lia.
Defined.

(** [getWeekDates] returns a week that holds the date: it starts on a
    Sunday at the start of the local day and ends 7 days less 1 millisecond
    later.  Over that range the loop of [calculateFreeTimeSlots] has seven
    rounds, one for each weekday from Sunday to Saturday. *)
Theorem week_dates_hold_each_weekday_once (tz date : Z) :
  let start := fst (TimeUtils.getWeekDates tz date) in
  let finish := snd (TimeUtils.getWeekDates tz date) in
  start <= date <= finish
  /\ finish = start + 7 * JsDate.msPerDay - 1
  /\ start = JsDate.setHours tz start 0 0 0 0
  /\ loopDates start finish
     = map (fun k => start + k * JsDate.msPerDay) [0; 1; 2; 3; 4; 5; 6]
  /\ map (JsDate.getDay tz) (loopDates start finish) = [0; 1; 2; 3; 4; 5; 6].
Proof.
  intros start finish.
  assert (Hstart : start = (JsDate.localDay tz date - JsDate.getDay tz date)
                           * JsDate.msPerDay - tz).
  { unfold start, TimeUtils.getWeekDates, JsDate.setHours. simpl fst.
    unfold JsDate.msPerHour, JsDate.msPerMinute. lia. }
  assert (Hfinish : finish = start + 7 * JsDate.msPerDay - 1) by reflexivity.
  clearbody start finish.
  assert (Hday : forall k, JsDate.localDay tz (start + k * JsDate.msPerDay)
                           = JsDate.localDay tz date - JsDate.getDay tz date + k).
  { intros k. rewrite localDay_step. f_equal. rewrite Hstart.
    generalize (JsDate.localDay tz date - JsDate.getDay tz date). intros n.
    unfold JsDate.localDay.
    replace (n * JsDate.msPerDay - tz + tz) with (n * JsDate.msPerDay) by lia.
    apply Z.div_mul. discriminate. }
  assert (Hg : 0 <= JsDate.getDay tz date < 7)
    by (unfold JsDate.getDay; apply Z.mod_pos_bound; lia).
  assert (Hweekday : forall k, 0 <= k < 7 ->
                               JsDate.getDay tz (start + k * JsDate.msPerDay) = k).
  { intros k Hk. unfold JsDate.getDay at 1. rewrite Hday.
    unfold JsDate.getDay in *. Z.div_mod_to_equations. lia. }
  assert (Hloop : loopDates start finish
                  = map (fun k => start + k * JsDate.msPerDay) [0; 1; 2; 3; 4; 5; 6]).
  { unfold loopDates, TimeUtils.dayCount. rewrite Hfinish.
    replace (start + 7 * JsDate.msPerDay - 1 - start) with (7 * JsDate.msPerDay - 1) by lia.
    change (Z.to_nat ((7 * JsDate.msPerDay - 1) / JsDate.msPerDay + 1)) with 7%nat.
    cbn [datesFrom map]. change JsDate.msPerDay with 86400000.
    repeat (apply f_equal2; [lia|]). reflexivity. }
  split; [|split; [exact Hfinish|split; [|split; [exact Hloop|]]]].
  - rewrite Hfinish, Hstart. unfold JsDate.localDay.
    change JsDate.msPerDay with 86400000 in *.
    pose proof (Z.mod_pos_bound (date + tz) 86400000 ltac:(lia)).
    pose proof (Z.div_mod (date + tz) 86400000 ltac:(lia)). lia.
  - unfold JsDate.setHours. pose proof (Hday 0) as H0. rewrite Z.add_0_r in H0.
    replace (start + 0 * JsDate.msPerDay) with start in H0 by lia.
    rewrite H0. rewrite Hstart at 1. lia.
  - rewrite Hloop. cbn [map]. rewrite !Hweekday by lia. reflexivity.
Qed.
